(** * SolPay x402 SDK: canonical JSON hashing and receipt verification

    A shallow embedding of the TypeScript client ([SolPayX402]): its
    canonical serializer, its receipt verifier and its payment-intent
    request, with the manual verification of the receipt documentation,
    the request of the debug script and the request of the PHP port, and
    the properties that the design specification states about them.

    Sources.
    - The TypeScript client: class [SolPayX402], with its constructor and
      its methods [pay], [createPaymentIntent], [confirmPayment],
      [getPaymentIntent], [verifyReceipt], [computeReceiptHash] and
      [canonicalJSON].
    - The receipt documentation, section Manual Verification: functions
      [verifyReceipt] and [canonicalJSON] ([Manual]).
    - The debug script: the constant [body] ([debug_body]).
    - The PHP port: class [Client], with its constructor and its methods
      [pay], [createPaymentIntent], [confirmPayment] and
      [getPaymentIntent] ([PHP], [PHPRequests]).
    - The security notes: function [verifyWebhookSignature].

    Conventions.
    - A JavaScript string is a sequence of UTF-16 code units ([jsstring]).
    - A finite JavaScript Number is identified with the integers that
      [Number::toString] is defined over ([number]); a literal is read as
      the nearest double ([decimal]), and the infinite Numbers are values
      of their own ([JInf]).
    - A parsed JSON object is its list of own properties in enumeration
      order; keys are unique in a real object ([wf_value]).
    - [crypto.createHash('sha256')] is FIPS 180-4 SHA-256 ([Sha256]), and
      [crypto.createHmac('sha256', key)] is HMAC over it ([Hmac]).
    - A call to the service is given by what [fetch] comes back with
      ([fetch_outcome], [api_outcome]). *)

From Stdlib Require Import NArith ZArith List String Ascii Lia.
From Stdlib Require DecimalPos DecimalN DecimalFacts.
From stdpp Require Import base list sorting gmap.
Import ListNotations.

#[local] Set Warnings "-register-all".

(* ================================================================== *)
(** ** JavaScript strings *)

(** A UTF-16 code unit, below [0x10000] in a real string. *)
Definition codeunit := N.

(** A JavaScript string. *)
Definition jsstring := list codeunit.

(** An ASCII literal as a JavaScript string. *)
Definition str (s : string) : jsstring :=
  map N_of_ascii (list_ascii_of_string s).

(** [a === b] on strings. *)
Definition jsstring_eqb (a b : jsstring) : bool :=
  bool_decide (a = b).

(** The first half of a surrogate pair. *)
Definition is_high_surrogate (c : codeunit) : bool :=
  ((0xD800 <=? c) && (c <=? 0xDBFF))%N.

(** The second half of a surrogate pair. *)
Definition is_low_surrogate (c : codeunit) : bool :=
  ((0xDC00 <=? c) && (c <=? 0xDFFF))%N.

(** The code point of a surrogate pair. *)
Definition pair_code_point (hi lo : codeunit) : N :=
  (0x10000 + (hi - 0xD800) * 0x400 + (lo - 0xDC00))%N.

(** [Array.prototype.join] on an array of strings. *)
Fixpoint join (sep : jsstring) (parts : list jsstring) : jsstring :=
  match parts with
  | [] => []
  | [p] => p
  | p :: rest => p ++ sep ++ join sep rest
  end.

(** The lower-case hexadecimal digit of [d], for [d] below 16. *)
Definition hex_digit (d : N) : codeunit :=
  (if d <? 10 then 48 + d else 87 + d)%N.

(** The [width] least significant hexadecimal digits of [x], lower case,
    most significant first. *)
Fixpoint hex_fixed (width : nat) (x : N) : jsstring :=
  match width with
  | O => []
  | S w => hex_fixed w (N.shiftr x 4) ++ [hex_digit (N.land x 0xF)]
  end.

(** The UTF-8 encoding Node applies to a string passed to [hash.update]:
    a surrogate pair is one four-byte sequence, a lone surrogate is
    replaced by U+FFFD. *)
Fixpoint utf8_encode (s : jsstring) : list N :=
  let utf8_3 (c : N) : list N :=
    [N.lor 0xE0 (N.shiftr c 12);
     N.lor 0x80 (N.land (N.shiftr c 6) 0x3F);
     N.lor 0x80 (N.land c 0x3F)]%N in
  match s with
  | [] => []
  | c :: rest =>
      if (c <? 0x80)%N then c :: utf8_encode rest
      else if (c <? 0x800)%N then
        N.lor 0xC0 (N.shiftr c 6) :: N.lor 0x80 (N.land c 0x3F)
          :: utf8_encode rest
      else if is_high_surrogate c then
        match rest with
        | d :: rest' =>
            if is_low_surrogate d then
              let cp := pair_code_point c d in
              [N.lor 0xF0 (N.shiftr cp 18);
               N.lor 0x80 (N.land (N.shiftr cp 12) 0x3F);
               N.lor 0x80 (N.land (N.shiftr cp 6) 0x3F);
               N.lor 0x80 (N.land cp 0x3F)]%N ++ utf8_encode rest'
            else utf8_3 0xFFFD%N ++ utf8_encode rest
        | [] => utf8_3 0xFFFD%N
        end
      else if is_low_surrogate c then utf8_3 0xFFFD%N ++ utf8_encode rest
      else utf8_3 c ++ utf8_encode rest
  end.

(* ================================================================== *)
(** ** SHA-256 (FIPS 180-4), the primitive behind [crypto.createHash] *)

Module Sha256.
Local Open Scope N_scope.

(** Words have 32 bits; sums wrap around. *)
Definition wrap (x : N) : N := N.land x 0xFFFFFFFF.

(** Rotation of a word to the right by [r] bits. *)
Definition rotr (r x : N) : N :=
  N.lor (N.shiftr x r) (wrap (N.shiftl x (32 - r))).

Definition xor3 (a b c : N) : N := N.lxor (N.lxor a b) c.

(** The functions Ch and Maj. *)
Definition ch (x y z : N) : N :=
  N.lxor (N.land x y) (N.land (N.lxor x 0xFFFFFFFF) z).

Definition maj (x y z : N) : N :=
  xor3 (N.land x y) (N.land x z) (N.land y z).

(** The four sigma functions. *)
Definition big_sigma0 (x : N) := xor3 (rotr 2 x) (rotr 13 x) (rotr 22 x).
Definition big_sigma1 (x : N) := xor3 (rotr 6 x) (rotr 11 x) (rotr 25 x).
Definition small_sigma0 (x : N) :=
  xor3 (rotr 7 x) (rotr 18 x) (N.shiftr x 3).
Definition small_sigma1 (x : N) :=
  xor3 (rotr 17 x) (rotr 19 x) (N.shiftr x 10).

(** The first sixty-four primes. *)
Definition primes : list N :=
  [2; 3; 5; 7; 11; 13; 17; 19; 23; 29; 31; 37; 41; 43; 47; 53;
   59; 61; 67; 71; 73; 79; 83; 89; 97; 101; 103; 107; 109; 113;
   127; 131; 137; 139; 149; 151; 157; 163; 167; 173; 179; 181;
   191; 193; 197; 199; 211; 223; 227; 229; 233; 239; 241; 251;
   257; 263; 269; 271; 277; 281; 283; 293; 307; 311].

(** Integer cube root, one bit at a time from bit [bits - 1] down. *)
Fixpoint icbrt (bits : nat) (x acc : N) : N :=
  match bits with
  | O => acc
  | S b =>
      let cand := acc + N.shiftl 1 (N.of_nat b) in
      icbrt b x (if cand * cand * cand <=? x then cand else acc)
  end.

(** First 32 bits of the fractional part of the cube root of [p]. *)
Definition frac_cbrt (p : N) : N := wrap (icbrt 36 (N.shiftl p 96) 0).

(** First 32 bits of the fractional part of the square root of [p]. *)
Definition frac_sqrt (p : N) : N := wrap (N.sqrt (N.shiftl p 64)).

(** Round constants: from the cube roots of the first 64 primes. *)
Definition K : list N := Eval vm_compute in map frac_cbrt primes.

(** Initial hash value: from the square roots of the first 8 primes. *)
Definition H0 : list N := Eval vm_compute in map frac_sqrt (firstn 8 primes).

(** Big-endian bytes of [x], [n] of them. *)
Fixpoint be_bytes (n : nat) (x : N) : list N :=
  match n with
  | O => []
  | S m => be_bytes m (N.shiftr x 8) ++ [N.land x 0xFF]
  end.

(** Padding: a one bit, zero bits up to 56 mod 64 bytes, and the length
    of the message in bits as a 64-bit big-endian integer. *)
Definition pad (msg : list N) : list N :=
  let len := N.of_nat (length msg) in
  let zeros := (64 - (len + 9) mod 64) mod 64 in
  msg ++ 0x80 :: repeat 0 (N.to_nat zeros) ++ be_bytes 8 (8 * len).

(** The big-endian word of four bytes. *)
Definition word_of_bytes (b : list N) : N :=
  fold_left (fun acc x => N.lor (N.shiftl acc 8) (N.land x 0xFF)) b 0.

(** Cut a list into pieces of [size] elements; [fuel] bounds the number
    of pieces. *)
Fixpoint chunks {A} (fuel size : nat) (l : list A) : list (list A) :=
  match fuel, l with
  | O, _ | _, [] => []
  | S f, _ => firstn size l :: chunks f size (skipn size l)
  end.

(** The sixteen words of a block of 64 bytes. *)
Definition words_of_block (blk : list N) : list N :=
  map word_of_bytes (chunks 16 4 blk).

(** One step of the message schedule; [w] holds the words computed so
    far, most recent first. *)
Definition schedule_step (w : list N) : list N :=
  wrap (small_sigma1 (nth 1 w 0) + nth 6 w 0
        + small_sigma0 (nth 14 w 0) + nth 15 w 0) :: w.

(** The message schedule: sixty-four words, in order. *)
Definition schedule (blk_words : list N) : list N :=
  rev (Nat.iter 48 schedule_step (rev blk_words)).

(** The working variables a to h. *)
Record regs := Regs { ra : N; rb : N; rc : N; rd : N;
                      re : N; rf : N; rg : N; rh : N }.

Definition regs_of_list (l : list N) : regs :=
  Regs (nth 0 l 0) (nth 1 l 0) (nth 2 l 0) (nth 3 l 0)
       (nth 4 l 0) (nth 5 l 0) (nth 6 l 0) (nth 7 l 0).

Definition list_of_regs (r : regs) : list N :=
  [ra r; rb r; rc r; rd r; re r; rf r; rg r; rh r].

(** One round, with its constant and its word of the schedule. *)
Definition round (r : regs) (kw : N * N) : regs :=
  let t1 := wrap (rh r + big_sigma1 (re r) + ch (re r) (rf r) (rg r)
                  + fst kw + snd kw) in
  let t2 := wrap (big_sigma0 (ra r) + maj (ra r) (rb r) (rc r)) in
  Regs (wrap (t1 + t2)) (ra r) (rb r) (rc r)
       (wrap (rd r + t1)) (re r) (rf r) (rg r).

(** The hash value after one more block. *)
Definition compress (h : list N) (blk : list N) : list N :=
  let w := schedule (words_of_block blk) in
  let r := fold_left round (combine K w) (regs_of_list h) in
  map (fun p => wrap (fst p + snd p)) (combine h (list_of_regs r)).

(** The digest as eight 32-bit words. *)
Definition digest_words (msg : list N) : list N :=
  let p := pad msg in
  fold_left compress (chunks (length p) 64 p) H0.

(** [digest('hex')]: 64 lower-case hexadecimal digits. *)
Definition hexdigest (msg : list N) : jsstring :=
  flat_map (hex_fixed 8) (digest_words msg).
End Sha256.

(** [crypto.createHash('sha256').update(s).digest('hex')]. *)
Definition sha256_hex (s : jsstring) : jsstring :=
  Sha256.hexdigest (utf8_encode s).

(* ================================================================== *)
(** ** JavaScript Numbers and [Number::toString] *)

(** A finite Number, given by the integers of the definition of
    [Number::toString]: [num_digits] is [s], the significant digits read
    as an integer ([0] for the Number zero), and [num_point] is [n], the
    position of the decimal point: the value is [s * 10^(n - k)] for [k]
    the number of digits of [s].  In a Number [s] does not end in [0]:
    [k] is as small as possible.  [Infinity] and [-Infinity] are not of
    this type; as values they are [JInf]. *)
Record number := Num {
  num_neg : bool;
  num_digits : N;
  num_point : Z
}.

(** The digits of a decimal numeral, most significant first. *)
Definition uint_digits (u : Decimal.uint) : list N :=
  (fix go (u : Decimal.uint) : list N :=
     match u with
     | Decimal.Nil => []
     | Decimal.D0 r => 0%N :: go r
     | Decimal.D1 r => 1%N :: go r
     | Decimal.D2 r => 2%N :: go r
     | Decimal.D3 r => 3%N :: go r
     | Decimal.D4 r => 4%N :: go r
     | Decimal.D5 r => 5%N :: go r
     | Decimal.D6 r => 6%N :: go r
     | Decimal.D7 r => 7%N :: go r
     | Decimal.D8 r => 8%N :: go r
     | Decimal.D9 r => 9%N :: go r
     end) u.

(** The decimal digits of [x] as characters, most significant first. *)
Definition decimal_digits (x : N) : jsstring :=
  map (fun d => (48 + d)%N) (uint_digits (N.to_uint x)).

(** Drop the trailing zeros of [s], counting them in [z]. *)
Fixpoint strip_zeros (fuel : nat) (s : N) (z : Z) : N * Z :=
  match fuel with
  | O => (s, z)
  | S f =>
      if ((0 <? s) && (s mod 10 =? 0))%N
      then strip_zeros f (s / 10)%N (z + 1)%Z
      else (s, z)
  end.

(** [n / d] rounded to the nearest integer, a tie to the even one. *)
Definition round_half_even (n d : N) : N :=
  let q := (n / d)%N in
  let r := (n mod d)%N in
  if (2 * r <? d)%N then q
  else if (d <? 2 * r)%N then (q + 1)%N
  else if N.even q then q else (q + 1)%N.

(** The fraction [num / (den * 2^e)]. *)
Definition scale2 (num den : N) (e : Z) : N * N :=
  if (e <? 0)%Z then (num * 2 ^ Z.to_N (- e), den)%N
  else (num, den * 2 ^ Z.to_N e)%N.

(** The fraction [s * 10^p]. *)
Definition scale10 (s : N) (p : Z) : N * N :=
  if (p <? 0)%Z then (s, 10 ^ Z.to_N (- p))%N
  else (s * 10 ^ Z.to_N p, 1)%N.

(** The double nearest to the fraction [num / den] above zero, a tie to
    the even significand (IEEE 754 binary64, roundTiesToEven): the pair
    [(m, e)] stands for [m * 2^e], with [m] below [2^53] and with
    [e = -1074] where [m] is below [2^52]; [m] is [0] where the fraction
    is nearest to zero.  The exponent is not bounded from above here: the
    finite doubles are those up to [e = 971]. *)
Definition nearest_double (num den : N) : N * Z :=
  let e1 :=
    Z.max (Z.of_N (N.log2 num) - Z.of_N (N.log2 den) - 53) (-1074) in
  let '(n1, d1) := scale2 num den e1 in
  let e := if (2 ^ 53 <=? n1 / d1)%N then (e1 + 1)%Z else e1 in
  let '(n2, d2) := scale2 num den e in
  let m := round_half_even n2 d2 in
  if (m =? 2 ^ 53)%N then ((2 ^ 52)%N, (e + 1)%Z) else (m, e).

(** Whether the decimal [s * 10^p] is read as the double [m * 2^e]. *)
Definition reads_as (s : N) (p : Z) (m : N) (e : Z) : bool :=
  let '(num, den) := scale10 s p in
  let '(m', e') := nearest_double num den in
  ((m' =? m)%N && (e' =? e)%Z)%bool.

(** The [n] with [10^(n-1) <= m * 2^e < 10^n], for [m] above zero:
    looked for around the estimate that the binary logarithm gives. *)
Definition decimal_point (m : N) (e : Z) : Z :=
  let '(xn, xd) := scale2 m 1 (- e) in
  let at_least (j : Z) : bool :=
    let '(pn, pd) := scale10 1 j in (pn * xd <=? xn * pd)%N in
  let t := ((Z.of_N (N.log2 m) + e) * 30103 / 100000)%Z in
  match find (fun n => at_least (n - 1)%Z && negb (at_least n))
             (map (fun i => (t + i)%Z) [-1; 0; 1; 2; 3; 4]%Z) with
  | Some n => n
  | None => t
  end.

(** The decimal of [k] digits that is read as the double [m * 2^e], if
    there is one, as [(s, p)] for [s * 10^p]: the one below or the one
    above the double, whichever is nearer, and the even one of two that
    are as near. *)
Definition digits_of_length (m : N) (e : Z) (n : Z) (k : nat)
  : option (N * Z) :=
  let p := (n - Z.of_nat k)%Z in
  let '(xn, xd) := scale2 m 1 (- e) in
  let '(yn, yd) :=
    if (p <? 0)%Z then (xn * 10 ^ Z.to_N (- p), xd)%N
    else (xn, xd * 10 ^ Z.to_N p)%N in
  let lo := (yn / yd)%N in
  let hi := (lo + 1)%N in
  let lo_reads := ((0 <? lo)%N && reads_as lo p m e)%bool in
  let hi_reads := reads_as hi p m e in
  match lo_reads, hi_reads with
  | true, true =>
      if (2 * yn <? (2 * lo + 1) * yd)%N then Some (lo, p)
      else if ((2 * lo + 1) * yd <? 2 * yn)%N then Some (hi, p)
      else if N.even lo then Some (lo, p) else Some (hi, p)
  | true, false => Some (lo, p)
  | false, true => Some (hi, p)
  | false, false => None
  end.

(** The decimal of 17 digits nearest to the double [m * 2^e]: one of 17
    digits is always read as the double. *)
Definition nearest_of_17 (m : N) (e : Z) (n : Z) : N * Z :=
  let p := (n - 17)%Z in
  let '(xn, xd) := scale2 m 1 (- e) in
  let '(yn, yd) :=
    if (p <? 0)%Z then (xn * 10 ^ Z.to_N (- p), xd)%N
    else (xn, xd * 10 ^ Z.to_N p)%N in
  (round_half_even yn yd, p).

(** The first length from [k] on with a decimal that is read as the
    double, and that decimal; after [tries] lengths, the one of 17
    digits. *)
Fixpoint shortest_from (m : N) (e : Z) (n : Z) (k : nat) (tries : nat)
  : N * Z :=
  match tries with
  | O => nearest_of_17 m e n
  | S tries' =>
      match digits_of_length m e n k with
      | Some sp => sp
      | None => shortest_from m e n (S k) tries'
      end
  end.

(** The integers [s] and [n] of [Number::toString] for the double
    [m * 2^e] above zero: [s] has as few digits as a decimal that is read
    as this double can have, and of these decimals it is the nearest. *)
Definition shortest_digits (m : N) (e : Z) : N * Z :=
  let '(s, p) := shortest_from m e (decimal_point m e) 1 16 in
  (fst (strip_zeros 17 s 0), (Z.of_nat (length (decimal_digits s)) + p)%Z).

(** Whether a decimal literal [mant * 10^exp] is beyond the finite
    Numbers: it is nearest to a double of [2^1024] or more. *)
Definition infinite_literal (mant exp : Z) : bool :=
  let a := Z.to_N (Z.abs mant) in
  if (a =? 0)%N then false
  else
    let '(num, den) := scale10 a exp in
    (971 <? snd (nearest_double num den))%Z.

(** The Number a decimal literal [mant * 10^exp] denotes ([10.0] is
    [decimal 100 (-1)], and [10] is [decimal 10 0]), for a literal that is
    not beyond the finite Numbers: the double nearest to the literal, as
    [JSON.parse] and the language read it, given by the integers of
    [Number::toString].  A Number keeps no trace of how its literal was
    written, and none of the digits beyond its precision:
    [9007199254740993] is the Number [9007199254740992].  A literal that
    is nearest to zero is zero, with the sign of the literal. *)
Definition decimal (mant exp : Z) : number :=
  let a := Z.to_N (Z.abs mant) in
  if (a =? 0)%N then Num false 0 0
  else
    let '(num, den) := scale10 a exp in
    let '(m, e) := nearest_double num den in
    if (m =? 0)%N then Num (mant <? 0)%Z 0 0
    else
      let '(s, n) := shortest_digits m e in
      Num (mant <? 0)%Z s n.

(** [Number::toString] in radix 10, for a finite Number. *)
Definition number_to_string (x : number) : jsstring :=
  if (num_digits x =? 0)%N then str "0"
  else
    let ds := decimal_digits (num_digits x) in
    let k := Z.of_nat (length ds) in
    let n := num_point x in
    let body :=
      if ((k <=? n) && (n <=? 21))%Z then
        ds ++ repeat 48%N (Z.to_nat (n - k))
      else if ((0 <? n) && (n <=? 21))%Z then
        firstn (Z.to_nat n) ds ++ str "." ++ skipn (Z.to_nat n) ds
      else if ((-6 <? n) && (n <=? 0))%Z then
        str "0." ++ repeat 48%N (Z.to_nat (- n)) ++ ds
      else
        let e := (n - 1)%Z in
        let exponent :=
          str "e" ++ (if (e <? 0)%Z then str "-" else str "+")
                  ++ decimal_digits (Z.to_N (Z.abs e)) in
        match ds with
        | [] => []
        | [d] => d :: exponent
        | d :: more => d :: str "." ++ more ++ exponent
        end in
    (if num_neg x then str "-" else []) ++ body.

(* ================================================================== *)
(** ** JSON values *)

(** What [response.json()] returns.  The members of an object are its own
    properties in enumeration order.  [JNum] is a finite Number; [JInf]
    is [Infinity] or, with [negative], [-Infinity], which [JSON.parse]
    returns for a literal beyond the range of the finite Numbers
    ([1e400]).  [JSON.parse] never returns [NaN] or [undefined]. *)
Inductive value :=
| JNull
| JBool (b : bool)
| JNum (n : number)
| JStr (s : jsstring)
| JArr (items : list value)
| JObj (members : list (jsstring * value))
| JInf (negative : bool).

(** What [JSON.parse] returns for a decimal literal [mant * 10^exp]: an
    infinity for a literal beyond the finite Numbers ([1e400]). *)
Definition literal (mant exp : Z) : value :=
  if infinite_literal mant exp then JInf (mant <? 0)%Z
  else JNum (decimal mant exp).

(** Real objects have no two properties of the same name. *)
Inductive wf_value : value -> Prop :=
| wf_null : wf_value JNull
| wf_bool b : wf_value (JBool b)
| wf_num n : wf_value (JNum n)
| wf_str s : wf_value (JStr s)
| wf_arr items : Forall wf_value items -> wf_value (JArr items)
| wf_obj members :
    NoDup (map fst members) ->
    Forall (fun kv => wf_value (snd kv)) members ->
    wf_value (JObj members)
| wf_inf negative : wf_value (JInf negative).

(** [Object.keys(obj)]. *)
Definition keys {A} (members : list (jsstring * A)) : list jsstring :=
  map fst members.

(** [obj[key]] on the own properties; [None] is [undefined]. *)
Fixpoint get_prop {A} (members : list (jsstring * A)) (key : jsstring)
  : option A :=
  match members with
  | [] => None
  | (k, v) :: rest =>
      if jsstring_eqb k key then Some v else get_prop rest key
  end.

(** [delete obj.key]. *)
Fixpoint delete_prop {A} (members : list (jsstring * A)) (key : jsstring)
  : list (jsstring * A) :=
  match members with
  | [] => []
  | (k, v) :: rest =>
      if jsstring_eqb k key then delete_prop rest key
      else (k, v) :: delete_prop rest key
  end.

(** [obj.key = v]: an existing property keeps its place, a new one is
    added last. *)
Fixpoint set_prop {A} (members : list (jsstring * A)) (key : jsstring)
  (v : A) : list (jsstring * A) :=
  match members with
  | [] => [(key, v)]
  | (k, w) :: rest =>
      if jsstring_eqb k key then (k, v) :: rest
      else (k, w) :: set_prop rest key v
  end.

(** [ToBoolean], with [None] for [undefined]. *)
Definition truthy (v : option value) : bool :=
  match v with
  | None | Some JNull => false
  | Some (JBool b) => b
  | Some (JNum n) => negb (num_digits n =? 0)%N
  | Some (JStr s) => negb (jsstring_eqb s [])
  | Some (JArr _) | Some (JObj _) | Some (JInf _) => true
  end.

(** [a || b]. *)
Definition js_or (a b : option value) : option value :=
  if truthy a then a else b.

(* ================================================================== *)
(** ** [JSON.stringify] on strings *)

(** A backslash, the letter u and four lower-case hexadecimal digits. *)
Definition unicode_escape (c : codeunit) : jsstring :=
  str "\u" ++ hex_fixed 4 c.

(** One code unit that is no surrogate, as [QuoteJSONString] writes it. *)
Definition escape_unit (c : codeunit) : jsstring :=
  if (c =? 8)%N then str "\b"
  else if (c =? 9)%N then str "\t"
  else if (c =? 10)%N then str "\n"
  else if (c =? 12)%N then str "\f"
  else if (c =? 13)%N then str "\r"
  else if (c =? 34)%N then [92; 34]%N
  else if (c =? 92)%N then [92; 92]%N
  else if (c <? 32)%N then unicode_escape c
  else [c].

(** The characters between the quotes: a surrogate pair is kept, a lone
    surrogate is written as an escape. *)
Fixpoint quote_body (s : jsstring) : jsstring :=
  match s with
  | [] => []
  | c :: rest =>
      if is_high_surrogate c then
        match rest with
        | d :: rest' =>
            if is_low_surrogate d then c :: d :: quote_body rest'
            else unicode_escape c ++ quote_body rest
        | [] => unicode_escape c
        end
      else if is_low_surrogate c then unicode_escape c ++ quote_body rest
      else escape_unit c ++ quote_body rest
  end.

(** [JSON.stringify(s)] for a string [s]. *)
Definition quote_json_string (s : jsstring) : jsstring :=
  34%N :: quote_body s ++ [34%N].

(* ================================================================== *)
(** ** [Array.prototype.sort] without a comparison function *)

(** [a < b] on strings: lexicographic on the code units. *)
Fixpoint key_ltb (a b : jsstring) : bool :=
  match a, b with
  | _, [] => false
  | [], _ :: _ => true
  | x :: a', y :: b' =>
      if (x <? y)%N then true
      else if (y <? x)%N then false
      else key_ltb a' b'
  end.

(** [a <= b]: [b] is not below [a]. *)
Definition key_le (a b : jsstring) : Prop := key_ltb b a = false.

(** [k] put before the first key above it. *)
Fixpoint insert_key (k : jsstring) (sorted : list jsstring)
  : list jsstring :=
  match sorted with
  | [] => [k]
  | x :: rest =>
      if key_ltb k x then k :: sorted else x :: insert_key k rest
  end.

(** The array in ascending order.  The engine is free in its choice of
    algorithm; on strings every choice returns this array. *)
Definition sort_keys (ks : list jsstring) : list jsstring :=
  fold_right insert_key [] ks.

(* ================================================================== *)
(** ** The canonical serializer *)

(** One member of the output: a double quote, the key as it is, a double
    quote, a colon, and the value, which is already serialized. *)
Definition pair_string (key value_json : jsstring) : jsstring :=
  34%N :: key ++ [34%N; 58%N] ++ value_json.

(** [canonicalJSON(obj)].  The members are serialized first and looked up
    by key afterwards, which is [canonicalJSON(obj[key])]
    (see [canonicalJSON_object]). *)
Fixpoint canonicalJSON (obj : value) : jsstring :=
  match obj with
  | JNull => str "null"
  | JBool true => str "true"
  | JBool false => str "false"
  | JNum n => number_to_string n
  | JInf _ => str "null"
  | JStr s => quote_json_string s
  | JArr items =>
      str "[" ++ join (str ",") (map canonicalJSON items) ++ str "]"
  | JObj members =>
      let rendered :=
        map (fun kv : jsstring * value =>
               let (k, v) := kv in (k, canonicalJSON v)) members in
      let pairs :=
        map (fun key =>
               pair_string key
                 (match get_prop rendered key with
                  | Some json => json
                  | None => str "undefined"
                  end))
            (sort_keys (keys members)) in
      str "{" ++ join (str ",") pairs ++ str "}"
  end.

(* ================================================================== *)
(** ** The receipt verifier of the TypeScript client *)

(** The property names of an array or of a string: the indices 0, 1, ...
    in decimal. *)
Definition index_members {A} (xs : list A) : list (jsstring * A) :=
  combine (map (fun i => decimal_digits (N.of_nat i)) (seq 0 (length xs))) xs.

(** The own enumerable properties that [{ ...receipt }] copies. *)
Definition spread (receipt : value) : list (jsstring * value) :=
  match receipt with
  | JObj members => members
  | JArr items => index_members items
  | JStr s => index_members (map (fun c => JStr [c]) s)
  | JNull | JBool _ | JNum _ | JInf _ => []
  end.

(** [receipt.key]; only called on a receipt that is not [null].  Arrays
    and primitive values have no property of the names read here. *)
Definition member (receipt : value) (key : jsstring) : option value :=
  match receipt with
  | JObj members => get_prop members key
  | _ => None
  end.

(** The object that [computeReceiptHash] serializes: a copy of the receipt
    without the properties [sha256_hash] and [hash]. *)
Definition canonical_receipt (receipt : value) : value :=
  JObj (delete_prop (delete_prop (spread receipt) (str "sha256_hash"))
                    (str "hash")).

(** [computeReceiptHash(receipt)]. *)
Definition computeReceiptHash (receipt : value) : jsstring :=
  sha256_hex (canonicalJSON (canonical_receipt receipt)).

(** [ReceiptVerification].  [reported_hash] is whatever value the receipt
    carries; [receipt] and [error] are optional. *)
Record ReceiptVerification := {
  ok : bool;
  computed_hash : jsstring;
  reported_hash : value;
  receipt : option value;
  error : option jsstring
}.

(** The object the [catch] block returns. *)
Definition failure (message : jsstring) : ReceiptVerification :=
  {| ok := false; computed_hash := []; reported_hash := JStr [];
     receipt := None; error := Some message |}.

(** [computedHash === reportedHash]. *)
Definition strict_eq_string (s : jsstring) (v : option value) : bool :=
  match v with
  | Some (JStr t) => jsstring_eqb s t
  | _ => false
  end.

(** The body of [verifyReceipt] from the parsed receipt on, with its
    [catch] block.  Reading a property of [null] throws a [TypeError]; its
    message is the one of V8. *)
Definition verify_document (doc : value) : ReceiptVerification :=
  match doc with
  | JNull =>
      failure (str "Cannot read properties of null (reading 'sha256_hash')")
  | _ =>
      let reportedHash :=
        js_or (member doc (str "sha256_hash")) (member doc (str "hash")) in
      match reportedHash with
      | Some reported =>
          if truthy reportedHash then
            let computedHash := computeReceiptHash doc in
            {| ok := strict_eq_string computedHash reportedHash;
               computed_hash := computedHash;
               reported_hash := reported;
               receipt := Some doc;
               error := None |}
          else failure (str "Receipt does not contain sha256_hash field")
      | None => failure (str "Receipt does not contain sha256_hash field")
      end
  end.

(** What [fetch] and [response.json()] can do. *)
Inductive json_body :=
| BadJson (message : jsstring)
| Json (doc : value).

Inductive fetch_outcome :=
| FetchError (message : jsstring)
| Response (response_ok : bool) (statusText : jsstring) (body : json_body).

(** [verifyReceipt(receiptUrl)], as a function of what the fetch of the
    URL produces. *)
Definition verifyReceipt (fetched : fetch_outcome) : ReceiptVerification :=
  match fetched with
  | FetchError message => failure message
  | Response false statusText _ =>
      failure (str "Failed to fetch receipt: " ++ statusText)
  | Response true _ (BadJson message) => failure message
  | Response true _ (Json doc) => verify_document doc
  end.

(** The digest of a document: lower-case hexadecimal SHA-256 of the UTF-8
    bytes of its canonical form. *)
Definition digest (doc : value) : jsstring :=
  sha256_hex (canonicalJSON doc).

(* ================================================================== *)
(** ** The manual verification of the receipt documentation *)

Module Manual.
(** [verifyReceipt(receipt)]; [None] when reading [receipt.sha256_hash]
    throws, which is at [null]. *)
Definition verifyReceipt (doc : value) : option bool :=
  match doc with
  | JNull => None
  | _ =>
      let reportedHash := member doc (str "sha256_hash") in
      let canonical :=
        delete_prop (delete_prop (spread doc) (str "sha256_hash"))
                    (str "hash") in
      let canonicalJson := canonicalJSON (JObj canonical) in
      let computedHash := sha256_hex canonicalJson in
      Some (strict_eq_string computedHash reportedHash)
  end.
End Manual.

(* ================================================================== *)
(** ** The verifier over a store of objects

    [computeReceiptHash] copies the receipt and deletes from the copy.  To
    tell the copy from the receipt, objects live in a store here and are
    passed by reference.  The values of the properties stay trees: the
    verifier never writes below the top level of an object. *)

Module Store.
(** A reference to an object. *)
Definition ref := positive.

(** The own properties of every allocated object. *)
Abbreviation store := (gmap ref (list (jsstring * value))).

(** How a computation ends. *)
Inductive completion (A : Type) :=
| Normal (a : A)
| Throw (message : jsstring).
Arguments Normal {A} a.
Arguments Throw {A} message.

(** A computation on the store that returns or throws. *)
Definition M (A : Type) : Type := store -> completion A * store.

(** [return a]. *)
Definition ret {A} (a : A) : M A := fun h => (Normal a, h).

(** [throw new Error(message)]. *)
Definition throw {A} (message : jsstring) : M A :=
  fun h => (Throw message, h).

(** [m] and then, unless it throws, [k] on its value. *)
Definition bind {A B} (m : M A) (k : A -> M B) : M B :=
  fun h =>
    match m h with
    | (Normal a, h') => k a h'
    | (Throw message, h') => (Throw message, h')
    end.

(** [try { m } catch (error) { handler(error.message) }]. *)
Definition try_catch {A} (m : M A) (handler : jsstring -> M A) : M A :=
  fun h =>
    match m h with
    | (Normal a, h') => (Normal a, h')
    | (Throw message, h') => handler message h'
    end.

Notation "'do' x <- m ; k" := (bind m (fun x => k))
  (at level 10, x name, m at level 100, k at level 200).

(** The properties of the object at [r].  A reference the program holds
    is always allocated; the other case only makes the model total. *)
Definition load (r : ref) : M (list (jsstring * value)) :=
  fun h =>
    match h !! r with
    | Some members => (Normal members, h)
    | None => (Throw (str "dangling reference"), h)
    end.

(** The object at [r] gets the properties [members]. *)
Definition write (r : ref) (members : list (jsstring * value)) : M unit :=
  fun h => (Normal tt, <[r := members]> h).

(** A new object. *)
Definition alloc (members : list (jsstring * value)) : M ref :=
  fun h => let r := fresh (dom h) in (Normal r, <[r := members]> h).

(** [{ ...receipt }]. *)
Definition spread_object (r : ref) : M ref :=
  do members <- load r; alloc members.

(** [delete obj.key]. *)
Definition delete_property (r : ref) (key : jsstring) : M unit :=
  do members <- load r; write r (delete_prop members key).

(** [obj.key]. *)
Definition read_property (r : ref) (key : jsstring) : M (option value) :=
  do members <- load r; ret (get_prop members key).

(** [canonicalJSON(obj)] for the object at [r]. *)
Definition canonicalJSON_at (r : ref) : M jsstring :=
  do members <- load r; ret (canonicalJSON (JObj members)).

(** [computeReceiptHash(receipt)]. *)
Definition computeReceiptHash (receipt : ref) : M jsstring :=
  do canonical <- spread_object receipt;
  do _ <- delete_property canonical (str "sha256_hash");
  do _ <- delete_property canonical (str "hash");
  do canonicalJson <- canonicalJSON_at canonical;
  ret (sha256_hex canonicalJson).

(** [ReceiptVerification], with the receipt as a reference. *)
Record verification := {
  v_ok : bool;
  v_computed_hash : jsstring;
  v_reported_hash : value;
  v_receipt : option ref;
  v_error : option jsstring
}.

(** [verifyReceipt] from the parsed receipt on. *)
Definition verify_document (receipt : ref) : M verification :=
  try_catch
    (do sha <- read_property receipt (str "sha256_hash");
     do reportedHash <-
       (if truthy sha then ret sha else read_property receipt (str "hash"));
     match reportedHash with
     | Some reported =>
         if truthy reportedHash then
           do computedHash <- computeReceiptHash receipt;
           ret {| v_ok := strict_eq_string computedHash reportedHash;
                  v_computed_hash := computedHash;
                  v_reported_hash := reported;
                  v_receipt := Some receipt;
                  v_error := None |}
         else throw (str "Receipt does not contain sha256_hash field")
     | None => throw (str "Receipt does not contain sha256_hash field")
     end)
    (fun message =>
       ret {| v_ok := false; v_computed_hash := [];
              v_reported_hash := JStr []; v_receipt := None;
              v_error := Some message |}).

(** The result without the reference to the receipt. *)
Definition forget (receipt_value : value) (v : verification)
  : ReceiptVerification :=
  {| ok := v_ok v; computed_hash := v_computed_hash v;
     reported_hash := v_reported_hash v;
     receipt := match v_receipt v with
                | Some _ => Some receipt_value
                | None => None
                end;
     error := v_error v |}.
End Store.

(* ================================================================== *)
(** ** Payment-intent requests of the TypeScript client *)

(** A string is falsy when it is missing or empty. *)
Definition present (s : option jsstring) : bool :=
  match s with
  | Some (_ :: _) => true
  | _ => false
  end.

(** [SolPayX402Config] as a caller passes it.  The type asks for
    [apiBase], [merchantWallet] and [network]; a JavaScript caller can
    leave any of them out, which the constructor checks. *)
Record SolPayX402Config := {
  apiBase : option jsstring;
  merchantWallet : option jsstring;
  network : option jsstring;
  facilitatorId : option jsstring;
  facilitatorUrl : option jsstring;
  apiKey : option jsstring;
  debug : option bool
}.

(** [Required<SolPayX402Config>], the configuration a client holds. *)
Record SolPayX402 := {
  cfg_apiBase : jsstring;
  cfg_merchantWallet : jsstring;
  cfg_network : jsstring;
  cfg_facilitatorId : jsstring;
  cfg_facilitatorUrl : jsstring;
  cfg_apiKey : jsstring;
  cfg_debug : bool
}.

(** A value, or the message of the [Error] thrown. *)
Inductive result (A : Type) :=
| Ok (a : A)
| Err (message : jsstring).
Arguments Ok {A} a.
Arguments Err {A} message.

(** [new SolPayX402(config)]. *)
Definition new_SolPayX402 (config : SolPayX402Config) : result SolPayX402 :=
  if negb (present (apiBase config)) then Err (str "apiBase is required")
  else if negb (present (merchantWallet config))
  then Err (str "merchantWallet is required")
  else if negb (present (network config)) then Err (str "network is required")
  else Ok {|
    cfg_apiBase := default [] (apiBase config);
    cfg_merchantWallet := default [] (merchantWallet config);
    cfg_network := default [] (network config);
    cfg_facilitatorId :=
      default (str "facilitator.payai.network") (facilitatorId config);
    cfg_facilitatorUrl :=
      default (str "https://facilitator.payai.network") (facilitatorUrl config);
    cfg_apiKey := default [] (apiKey config);
    cfg_debug := default false (debug config) |}.

(** [PayParams]. *)
Record PayParams := {
  amount : number;
  asset : jsstring;
  customerEmail : option jsstring;
  metadata : option (list (jsstring * value));
  successUrl : option jsstring;
  cancelUrl : option jsstring
}.

(** An optional string as an optional value. *)
Definition opt_str (s : option jsstring) : option value :=
  match s with
  | Some x => Some (JStr x)
  | None => None
  end.

(** The object [body] of [createPaymentIntent]; a property whose value is
    [undefined] has [None]. *)
Definition createPaymentIntent_body (client : SolPayX402) (params : PayParams)
  : list (jsstring * option value) :=
  [ (str "amount", Some (JNum (amount params)));
    (str "asset", Some (JStr (asset params)));
    (str "merchant_wallet", Some (JStr (cfg_merchantWallet client)));
    (str "customer_email", opt_str (customerEmail params));
    (str "metadata",
       Some (JObj (set_prop
                     (set_prop (default [] (metadata params))
                               (str "sdk") (JStr (str "@solpay/x402-sdk")))
                     (str "sdk_version") (JStr (str "1.0.0")))));
    (str "x402_context",
       Some (JObj [ (str "facilitator_id", JStr (cfg_facilitatorId client));
                    (str "network", JStr (cfg_network client));
                    (str "resource",
                       JStr (cfg_apiBase client
                             ++ str "/api/v1/payment_intents")) ]));
    (str "success_url", opt_str (successUrl params));
    (str "cancel_url", opt_str (cancelUrl params)) ].

(** What [JSON.stringify] keeps of an object: the properties with a
    value. *)
Fixpoint omit_undefined (members : list (jsstring * option value))
  : list (jsstring * value) :=
  match members with
  | [] => []
  | (k, Some v) :: rest => (k, v) :: omit_undefined rest
  | (_, None) :: rest => omit_undefined rest
  end.

(** The request document that [createPaymentIntent] posts. *)
Definition createPaymentIntent_request (client : SolPayX402)
  (params : PayParams) : value :=
  JObj (omit_undefined (createPaymentIntent_body client params)).

(** [doc.outer.inner]. *)
Definition path2 (doc : value) (outer inner : jsstring) : option value :=
  match member doc outer with
  | Some sub => member sub inner
  | None => None
  end.

(** The [body] of the debug script. *)
Definition debug_body (merchantWallet : jsstring) : value :=
  JObj [ (str "amount", JNum (decimal 1 (-1)));
         (str "currency", JStr (str "USDC"));
         (str "merchant_wallet", JStr merchantWallet);
         (str "customer_email", JStr (str "test@example.com"));
         (str "metadata",
            JObj [ (str "test", JBool true);
                   (str "sdk", JStr (str "@solpay/x402-sdk"));
                   (str "sdk_version", JStr (str "1.0.0")) ]);
         (str "x402_context",
            JObj [ (str "facilitator_id",
                      JStr (str "facilitator.payai.network"));
                   (str "network", JStr (str "solana:devnet"));
                   (str "resource",
                      JStr (str "https://www.solpay.cash/api/v1/payment_intents")) ]) ].

(* ================================================================== *)
(** ** Payment-intent requests of the PHP client *)

Module PHP.
(** [empty($s)] for a string that may be unset: unset, the empty string
    and the string of the one digit 0. *)
Definition empty (s : option jsstring) : bool :=
  match s with
  | None => true
  | Some x => jsstring_eqb x [] || jsstring_eqb x (str "0")
  end.

(** The [$config] array of the constructor. *)
Record Config := {
  api_base : option jsstring;
  merchant_wallet : option jsstring;
  network : option jsstring;
  facilitator_id : option jsstring;
  facilitator_url : option jsstring;
  api_key : option jsstring;
  debug : option bool
}.

(** The fields of a [Client]. *)
Record Client := {
  apiBase : jsstring;
  merchantWallet : jsstring;
  client_network : jsstring;
  facilitatorId : option jsstring;
  facilitatorUrl : option jsstring;
  apiKey : option jsstring;
  client_debug : bool
}.

(** [$validNetworks]. *)
Definition validNetworks : list jsstring :=
  [str "mainnet-beta"; str "devnet"; str "testnet"].

(** [in_array($x, $list, true)]. *)
Definition in_array (x : jsstring) (l : list jsstring) : bool :=
  existsb (jsstring_eqb x) l.

(** The text without the slashes it starts with. *)
Fixpoint drop_slashes (l : jsstring) : jsstring :=
  match l with
  | c :: rest => if (c =? 47)%N then drop_slashes rest else l
  | [] => []
  end.

(** [rtrim($s, '/')]. *)
Definition rtrim_slash (s : jsstring) : jsstring :=
  rev (drop_slashes (rev s)).

(** [new Client($config)]. *)
Definition construct (config : Config) : result Client :=
  if empty (api_base config)
  then Err (str "Configuration error: api_base is required")
  else if empty (merchant_wallet config)
  then Err (str "Configuration error: merchant_wallet is required")
  else if empty (network config)
  then Err (str "Configuration error: network is required")
  else if negb (in_array (default [] (network config)) validNetworks)
  then Err (str "Configuration error: network must be one of: "
            ++ join (str ", ") validNetworks)
  else Ok {|
    apiBase := rtrim_slash (default [] (api_base config));
    merchantWallet := default [] (merchant_wallet config);
    client_network := default [] (network config);
    facilitatorId := facilitator_id config;
    facilitatorUrl := facilitator_url config;
    apiKey := api_key config;
    client_debug := default false (debug config) |}.

(** The [$params] array of [pay]. *)
Record Params := {
  amount : option number;
  token : option jsstring;
  reference : option jsstring;
  label : option jsstring;
  message : option jsstring;
  memo : option jsstring;
  metadata : option (list (jsstring * value))
}.

(** [if (!empty($params[key])) { $payload[key] = $params[key]; }]. *)
Definition add_optional (key : jsstring) (s : option jsstring)
  (payload : list (jsstring * value)) : list (jsstring * value) :=
  if empty s then payload
  else set_prop payload key (JStr (default [] s)).

(** [if ($this->field !== null) { $payload[key] = $this->field; }]. *)
Definition add_configured (key : jsstring) (s : option jsstring)
  (payload : list (jsstring * value)) : list (jsstring * value) :=
  match s with
  | Some x => set_prop payload key (JStr x)
  | None => payload
  end.

(** The [$payload] of [createPaymentIntent]. *)
Definition createPaymentIntent_payload (client : Client) (params : Params)
  : list (jsstring * value) :=
  let payload :=
    [ (str "merchant_wallet", JStr (merchantWallet client));
      (str "amount", JNum (default (Num false 0 0) (amount params)));
      (str "token", JStr (default [] (token params)));
      (str "network", JStr (client_network client)) ] in
  let payload := add_optional (str "reference") (reference params) payload in
  let payload := add_optional (str "label") (label params) payload in
  let payload := add_optional (str "message") (message params) payload in
  let payload := add_optional (str "memo") (memo params) payload in
  let payload :=
    match metadata params with
    | Some (m :: ms) => set_prop payload (str "metadata") (JObj (m :: ms))
    | _ => payload
    end in
  let payload :=
    add_configured (str "facilitator_id") (facilitatorId client) payload in
  add_configured (str "facilitator_url") (facilitatorUrl client) payload.

(** [$amount > 0]. *)
Definition positive_amount (a : number) : bool :=
  negb (num_neg a) && negb (num_digits a =? 0)%N.

(** [pay($params)] up to the request: the document posted to
    [/payment-intents], or the message of the exception. *)
Definition pay_request (client : Client) (params : Params) : result value :=
  match amount params with
  | None => Err (str "Invalid parameter: amount must be a positive number")
  | Some a =>
      if negb (positive_amount a)
      then Err (str "Invalid parameter: amount must be a positive number")
      else if empty (token params)
      then Err (str "Invalid parameter: token is required")
      else Ok (JObj (createPaymentIntent_payload client params))
  end.
End PHP.

(* ================================================================== *)
(** ** Vocabulary of the properties, and example documents *)

(** The members of an object, each with its value serialized. *)
Definition render (members : list (jsstring * value)) : list (jsstring * jsstring) :=
  map (fun kv : jsstring * value => let (k, v) := kv in (k, canonicalJSON v))
      members.

(** The text of an object whose values are serialized. *)
Definition object_json (rendered : list (jsstring * jsstring)) : jsstring :=
  str "{"
  ++ join (str ",")
       (map (fun key =>
               pair_string key
                 (match get_prop rendered key with
                  | Some json => json
                  | None => str "undefined"
                  end))
            (sort_keys (keys rendered)))
  ++ str "}".

(** [R'] is [R] with the members of its objects in another order, at any
    depth. *)
Inductive key_reorder : value -> value -> Prop :=
| kr_refl v : key_reorder v v
| kr_trans u v w : key_reorder u v -> key_reorder v w -> key_reorder u w
| kr_perm ms ms' : Permutation ms ms' -> key_reorder (JObj ms) (JObj ms')
| kr_member ms1 k v v' ms2 :
    key_reorder v v' ->
    key_reorder (JObj (ms1 ++ (k, v) :: ms2)) (JObj (ms1 ++ (k, v') :: ms2))
| kr_item xs v v' ys :
    key_reorder v v' ->
    key_reorder (JArr (xs ++ v :: ys)) (JArr (xs ++ v' :: ys)).

(** The type of [network] in [SolPayX402Config]. *)
Inductive Network := SolanaDevnet | SolanaMainnet.

Definition network_name (n : Network) : jsstring :=
  match n with
  | SolanaDevnet => str "solana:devnet"
  | SolanaMainnet => str "solana:mainnet"
  end.

(** A code unit that [JSON.stringify] writes as it is, whatever follows:
    no control character, quote, backslash or surrogate. *)
Definition plain_unit (c : codeunit) : bool :=
  negb (c <? 32)%N && negb (c =? 34)%N && negb (c =? 92)%N
  && negb (is_high_surrogate c) && negb (is_low_surrogate c).

(** Text with ['] standing for the double quote. *)
Definition json_text (s : string) : jsstring :=
  map (fun c => if (c =? 39)%N then 34%N else c) (str s).

(** An integer as a JSON value. *)
Definition num (n : Z) : value := literal n 0.

(** A document with a nested object, and the same with the members of
    both objects in the other order. *)
Definition doc_nested : value :=
  JObj [ (str "a", num 1);
         (str "b", JObj [ (str "x", num 1); (str "y", num 2) ]) ].

Definition doc_nested_reordered : value :=
  JObj [ (str "b", JObj [ (str "y", num 2); (str "x", num 1) ]);
         (str "a", num 1) ].

(** A document without a digest. *)
Definition doc_plain : list (jsstring * value) :=
  [ (str "amount", num 10); (str "merchant", JStr (str "ABC123")) ].

(** The names of the digest property. *)
Definition is_alias (key : jsstring) : bool :=
  jsstring_eqb key (str "sha256_hash") || jsstring_eqb key (str "hash").

(** Some object of the document, at any depth, has a digest property. *)
Fixpoint has_alias (v : value) : bool :=
  match v with
  | JArr items => existsb has_alias items
  | JObj members =>
      existsb (fun kv : jsstring * value =>
                 let (k, w) := kv in is_alias k || has_alias w) members
  | _ => false
  end.

(** A receipt whose settlement has a [hash] of its own. *)
Definition receipt_nested_alias : value :=
  JObj [ (str "amount", num 10);
         (str "settlement", JObj [ (str "hash", JStr (str "stale")) ]);
         (str "sha256_hash", JStr (str "xxx")) ].

(** The example of the receipt documentation. *)
Definition receipt_example : value :=
  JObj [ (str "amount", JNum (decimal 100 (-1)));
         (str "merchant", JStr (str "ABC123"));
         (str "sha256_hash", JStr (str "xxx")) ].

(** An object with one key of three characters: [a], a double quote and
    [b]. *)
Definition doc_quote_key : value := JObj [ (json_text "a'b", num 1) ].

(** An object with the keys U+FF5E and U+1F600, the second one a
    surrogate pair. *)
Definition doc_astral_key : value :=
  JObj [ ([0xFF5E]%N, num 1); ([0xD83D; 0xDE00]%N, num 2) ].

(** A receipt with its correct digest. *)
Definition receipt_settled : value :=
  JObj [ (str "settlement", JObj [ (str "fee", num 1); (str "net", num 9) ]);
         (str "sha256_hash",
            JStr (str "b6afed4dc08d2cb372938648194ab6578b3e4316437b868fa450b222b11102d9")) ].

(** The same receipt with [settlement] changed to an object with one
    property, whose name is the text from [fee] to [net] of the canonical
    form of the original, quotes included. *)
Definition receipt_tampered : value :=
  JObj [ (str "settlement", JObj [ (json_text "fee':1,'net", num 9) ]);
         (str "sha256_hash",
            JStr (str "b6afed4dc08d2cb372938648194ab6578b3e4316437b868fa450b222b11102d9")) ].

(** A store with one receipt, at reference 1. *)
Definition store_example : Store.store :=
  {[ 1%positive :=
       [ (str "amount", num 10);
         (str "hash", JStr (str "old"));
         (str "sha256_hash", JStr (str "xxx")) ] ]}.

(** A configuration, the client made from it, and a payment. *)
Definition config_devnet : SolPayX402Config :=
  {| apiBase := Some (str "https://www.solpay.cash");
     merchantWallet := Some (str "DsAfN2mwcc3EuJ1gFMtwEddNbaNgp64kDzHFmKF62k2z");
     network := Some (str "solana:devnet");
     facilitatorId := None; facilitatorUrl := None; apiKey := None;
     debug := None |}.

(** A configuration that names the network as the PHP port does. *)
Definition config_short_name : SolPayX402Config :=
  {| apiBase := Some (str "https://www.solpay.cash");
     merchantWallet := Some (str "DsAfN2mwcc3EuJ1gFMtwEddNbaNgp64kDzHFmKF62k2z");
     network := Some (str "devnet");
     facilitatorId := None; facilitatorUrl := None; apiKey := None;
     debug := None |}.

Definition client_devnet : SolPayX402 :=
  {| cfg_apiBase := str "https://www.solpay.cash";
     cfg_merchantWallet := str "DsAfN2mwcc3EuJ1gFMtwEddNbaNgp64kDzHFmKF62k2z";
     cfg_network := str "solana:devnet";
     cfg_facilitatorId := str "facilitator.payai.network";
     cfg_facilitatorUrl := str "https://facilitator.payai.network";
     cfg_apiKey := [];
     cfg_debug := false |}.

Definition params_usdc : PayParams :=
  {| amount := decimal 10 0; asset := str "USDC";
     customerEmail := Some (str "customer@example.com");
     metadata := None; successUrl := None; cancelUrl := None |}.

(** The configuration of the PHP demo with network [net], the client for
    [devnet], and a payment. *)
Definition php_config (net : jsstring) : PHP.Config :=
  {| PHP.api_base := Some (str "https://api.solpay.cash");
     PHP.merchant_wallet := Some (str "YOUR_WALLET_ADDRESS");
     PHP.network := Some net;
     PHP.facilitator_id := Some (str "facilitator.payai.network");
     PHP.facilitator_url := None; PHP.api_key := None;
     PHP.debug := Some true |}.

Definition php_client : PHP.Client :=
  {| PHP.apiBase := str "https://api.solpay.cash";
     PHP.merchantWallet := str "YOUR_WALLET_ADDRESS";
     PHP.client_network := str "devnet";
     PHP.facilitatorId := Some (str "facilitator.payai.network");
     PHP.facilitatorUrl := None; PHP.apiKey := None;
     PHP.client_debug := true |}.

Definition php_params : PHP.Params :=
  {| PHP.amount := Some (decimal 10 0); PHP.token := Some (str "SOL");
     PHP.reference := None; PHP.label := None; PHP.message := None;
     PHP.memo := None; PHP.metadata := None |}.

(** A receipt that reports its digest under the legacy name only, and one
    with both names. *)
Definition doc_legacy : list (jsstring * value) :=
  [ (str "amount", num 10);
    (str "hash",
       JStr (str "a8b88b82fe90a16048eb8851fe382405395cd395dafaa7ca9be90ec00f82a72b")) ].

Definition doc_both : list (jsstring * value) :=
  [ (str "amount", num 10);
    (str "sha256_hash",
       JStr (str "a8b88b82fe90a16048eb8851fe382405395cd395dafaa7ca9be90ec00f82a72b")) ].

(* ================================================================== *)
(** ** The calls of the TypeScript client to the service *)

(** The results of a list of steps that run in order: the first error is
    the error of the whole. *)
Fixpoint all_ok {A} (steps : list (result A)) : result (list A) :=
  match steps with
  | [] => Ok []
  | Err message :: _ => Err message
  | Ok a :: rest =>
      match all_ok rest with
      | Ok others => Ok (a :: others)
      | Err message => Err message
      end
  end.

(** [String(v)] and the text of [v] inside a template literal, for a JSON
    value, or the message of the [TypeError] thrown, which is the one of
    V8.  An array is its elements joined by commas, with nothing for
    [null].  An object is [[object Object]], by [Object.prototype.toString],
    unless it has an own property [toString]: what JSON puts there is no
    function, and then neither [toString] nor [valueOf] gives a primitive
    value. *)
Fixpoint to_string (v : value) : result jsstring :=
  match v with
  | JNull => Ok (str "null")
  | JBool true => Ok (str "true")
  | JBool false => Ok (str "false")
  | JNum n => Ok (number_to_string n)
  | JInf false => Ok (str "Infinity")
  | JInf true => Ok (str "-Infinity")
  | JStr s => Ok s
  | JArr items =>
      match all_ok (map (fun x => match x with
                                  | JNull => Ok []
                                  | _ => to_string x
                                  end) items) with
      | Ok texts => Ok (join (str ",") texts)
      | Err message => Err message
      end
  | JObj members =>
      match get_prop members (str "toString") with
      | Some _ => Err (str "Cannot convert object to primitive value")
      | None => Ok (str "[object Object]")
      end
  end.

(** The values [String] has a text for: no object with an own property
    [toString], alone or as an element of arrays. *)
Fixpoint has_string (v : value) : bool :=
  match v with
  | JArr items => forallb has_string items
  | JObj members =>
      match get_prop members (str "toString") with
      | Some _ => false
      | None => true
      end
  | _ => true
  end.

(** The same, with [None] for [undefined]. *)
Definition to_string_opt (v : option value) : result jsstring :=
  match v with
  | Some x => to_string x
  | None => Ok (str "undefined")
  end.

(** [a || b] where [b] is a value. *)
Definition js_or_else (a : option value) (b : value) : value :=
  match a with
  | Some x => if truthy a then x else b
  | None => b
  end.

(** What [fetch] of an endpoint produces: a rejection, or a response with
    its status, its status text and its body. *)
Inductive api_outcome :=
| ApiRejected (message : jsstring)
| ApiResponse (status : N) (statusText : jsstring) (body : json_body).

(** [response.ok]: the status is from 200 to 299. *)
Definition status_ok (status : N) : bool :=
  ((200 <=? status) && (status <=? 299))%N.

(** [await response.json().catch(() => ({ error: 'Unknown error' }))]. *)
Definition error_data (body : json_body) : value :=
  match body with
  | BadJson _ => JObj [ (str "error", JStr (str "Unknown error")) ]
  | Json v => v
  end.

(** The message of the error thrown for a response that is not ok,
    [new Error(errorData.error ||
    `HTTP ${response.status}: ${response.statusText}`)].  Reading [error]
    of [null] throws a [TypeError], and so does [new Error] of an object
    that has no string; the message then is the one of that error. *)
Definition http_error_message (status : N) (statusText : jsstring)
  (body : json_body) : jsstring :=
  match error_data body with
  | JNull => str "Cannot read properties of null (reading 'error')"
  | errorData =>
      match to_string
              (js_or_else (member errorData (str "error"))
                 (JStr (str "HTTP " ++ decimal_digits status ++ str ": "
                        ++ statusText))) with
      | Ok message => message
      | Err message => message
      end
  end.

(** From the awaited [fetch] to the value returned or the error thrown;
    [createPaymentIntent], [confirmPayment] and [getPaymentIntent] have
    the same text for it. *)
Definition api_json (fetched : api_outcome) : result value :=
  match fetched with
  | ApiRejected message => Err message
  | ApiResponse status statusText body =>
      if negb (status_ok status)
      then Err (http_error_message status statusText body)
      else match body with
           | BadJson message => Err message
           | Json v => Ok v
           end
  end.

(** A request as it is given to [fetch]. *)
Record http_request := {
  req_url : jsstring;
  req_method : jsstring;
  req_headers : list (jsstring * jsstring);
  req_body : option value
}.

(** [if (this.config.apiKey) headers['Authorization'] = ...]. *)
Definition with_authorization (client : SolPayX402)
  (headers : list (jsstring * jsstring)) : list (jsstring * jsstring) :=
  match cfg_apiKey client with
  | [] => headers
  | _ :: _ =>
      set_prop headers (str "Authorization")
               (str "Bearer " ++ cfg_apiKey client)
  end.

(** The request of [createPaymentIntent]. *)
Definition createPaymentIntent_call (client : SolPayX402)
  (params : PayParams) : http_request :=
  {| req_url := cfg_apiBase client ++ str "/api/v1/payment_intents";
     req_method := str "POST";
     req_headers :=
       with_authorization client
         [ (str "Content-Type", str "application/json") ];
     req_body := Some (createPaymentIntent_request client params) |}.

(** The request of [confirmPayment]. *)
Definition confirmPayment_call (client : SolPayX402)
  (intentId signature : jsstring) : http_request :=
  {| req_url := cfg_apiBase client ++ str "/api/v1/payment_intents/"
                ++ intentId ++ str "/confirm";
     req_method := str "POST";
     req_headers :=
       with_authorization client
         [ (str "Content-Type", str "application/json") ];
     req_body :=
       Some (JObj [ (str "transaction_signature", JStr signature) ]) |}.

(** The request of [getPaymentIntent]. *)
Definition getPaymentIntent_call (client : SolPayX402)
  (intentId : jsstring) : http_request :=
  {| req_url := cfg_apiBase client ++ str "/api/v1/payment_intents/"
                ++ intentId;
     req_method := str "GET";
     req_headers := with_authorization client [];
     req_body := None |}.

(** The [amount] of a [PayResult]. *)
Record AmountInfo := {
  requested : value;
  total : value;
  fees : value;
  net : value
}.

(** The [receipt] of a [PayResult]. *)
Record ReceiptInfo := {
  receipt_url : option value;
  receipt_hash : option value;
  receipt_memo : option value;
  receipt_signature : option value
}.

(** [PayResult]; a field that may be [undefined] is optional. *)
Record PayResult := {
  pr_intentId : option value;
  pr_paymentUrl : value;
  pr_status : option value;
  pr_amount : AmountInfo;
  pr_receipt : option ReceiptInfo;
  pr_settlement : option value;
  pr_x402 : option value
}.

(** [intent.receipt ? { url: ..., hash: ..., ... } : undefined]. *)
Definition receipt_info (intent : value) : option ReceiptInfo :=
  match member intent (str "receipt") with
  | Some r =>
      if truthy (Some r) then
        Some {| receipt_url := member r (str "url");
                receipt_hash := member r (str "sha256_hash");
                receipt_memo := member r (str "memo");
                receipt_signature := member r (str "transaction_signature") |}
      else None
  | None => None
  end.

(** [intent.payment_url || `${this.config.apiBase}/checkout/${intent.id}`]:
    the template literal is evaluated only for a falsy [payment_url], and
    throws where [intent.id] has no string. *)
Definition payment_url (client : SolPayX402) (intent : value)
  : result value :=
  if truthy (member intent (str "payment_url"))
  then Ok (default JNull (member intent (str "payment_url")))
  else
    match to_string_opt (member intent (str "id")) with
    | Ok id => Ok (JStr (cfg_apiBase client ++ str "/checkout/" ++ id))
    | Err message => Err message
    end.

(** The zero of [|| 0]. *)
Definition zero : value := JNum (Num false 0 0).

(** [pay(params)], as a function of what the fetch of
    [createPaymentIntent] produces.  Reading [id] of [null] throws a
    [TypeError], with the message of V8, and so does the payment URL of
    an [id] that has no string; the [catch] block throws the error on
    ([handleError] returns an [Error] as it is). *)
Definition pay (client : SolPayX402) (params : PayParams)
  (fetched : api_outcome) : result PayResult :=
  match api_json fetched with
  | Err message => Err message
  | Ok JNull => Err (str "Cannot read properties of null (reading 'id')")
  | Ok intent =>
      match payment_url client intent with
      | Err message => Err message
      | Ok paymentUrl =>
          Ok {| pr_intentId := member intent (str "id");
                pr_paymentUrl := paymentUrl;
                pr_status := member intent (str "status");
                pr_amount :=
                  {| requested := JNum (amount params);
                     total :=
                       js_or_else (member intent (str "amount_required"))
                                  (JNum (amount params));
                     fees :=
                       js_or_else (member intent (str "fees_total")) zero;
                     net :=
                       js_or_else (member intent (str "merchant_receives"))
                                  (JNum (amount params)) |};
                pr_receipt := receipt_info intent;
                pr_settlement := member intent (str "settlement");
                pr_x402 := member intent (str "x402_context") |}
      end
  end.

(** [confirmPayment(intentId, signature)], as a function of what its
    fetch produces. *)
Definition confirmPayment (client : SolPayX402)
  (fetched : api_outcome) : result PayResult :=
  match api_json fetched with
  | Err message => Err message
  | Ok JNull => Err (str "Cannot read properties of null (reading 'id')")
  | Ok intent =>
      match payment_url client intent with
      | Err message => Err message
      | Ok paymentUrl =>
          Ok {| pr_intentId := member intent (str "id");
                pr_paymentUrl := paymentUrl;
                pr_status := member intent (str "status");
                pr_amount :=
                  {| requested :=
                       js_or_else (member intent (str "amount_requested"))
                                  zero;
                     total :=
                       js_or_else (member intent (str "amount_required"))
                                  zero;
                     fees :=
                       js_or_else (member intent (str "fees_total")) zero;
                     net :=
                       js_or_else (member intent (str "merchant_receives"))
                                  zero |};
                pr_receipt := receipt_info intent;
                pr_settlement := member intent (str "settlement");
                pr_x402 := member intent (str "x402_context") |}
      end
  end.

(** [getPaymentIntent(intentId)], as a function of what its fetch
    produces. *)
Definition getPaymentIntent (fetched : api_outcome) : result value :=
  api_json fetched.

(** [createClient(config)]. *)
Definition createClient (config : SolPayX402Config) : result SolPayX402 :=
  new_SolPayX402 config.

(* ================================================================== *)
(** ** The verification of webhook signatures *)

Module Hmac.
(** The digest as 32 bytes. *)
Definition digest_bytes (msg : list N) : list N :=
  flat_map (Sha256.be_bytes 4) (Sha256.digest_words msg).

(** The key as one block of 64 bytes: a longer key is hashed first. *)
Definition block_key (key : list N) : list N :=
  let k := if (64 <? length key)%nat then digest_bytes key else key in
  k ++ repeat 0%N (64 - length k).

(** HMAC-SHA256 (RFC 2104). *)
Definition hmac_sha256 (key msg : list N) : list N :=
  let k := block_key key in
  digest_bytes (map (N.lxor 0x5c) k
                ++ digest_bytes (map (N.lxor 0x36) k ++ msg)).
End Hmac.

(** [digest('hex')] of bytes. *)
Definition hex_encode (bytes : list N) : jsstring :=
  flat_map (hex_fixed 2) bytes.

(** The value of a byte that is a hexadecimal digit, of either case. *)
Definition unhex_byte (b : N) : option N :=
  if ((48 <=? b) && (b <=? 57))%N then Some (b - 48)%N
  else if ((97 <=? b) && (b <=? 102))%N then Some (b - 87)%N
  else if ((65 <=? b) && (b <=? 70))%N then Some (b - 55)%N
  else None.

(** The value of a character as the decoder of Node reads it: of a code
    unit it looks at the low byte only, so that U+0131 counts as the
    digit [1]. *)
Definition unhex (c : codeunit) : option N :=
  unhex_byte (N.land c 0xFF).

(** [Buffer.from(s, 'hex')]: pairs of digits up to the first pair that is
    not two hexadecimal digits; a last single character is dropped. *)
Fixpoint hex_decode (s : jsstring) : list N :=
  match s with
  | a :: b :: rest =>
      match unhex a, unhex b with
      | Some x, Some y => (16 * x + y)%N :: hex_decode rest
      | _, _ => []
      end
  | _ => []
  end.

(** [crypto.createHmac('sha256', secret).update(payload).digest('hex')]. *)
Definition hmac_hex (secret payload : jsstring) : jsstring :=
  hex_encode (Hmac.hmac_sha256 (utf8_encode secret) (utf8_encode payload)).

(** [crypto.timingSafeEqual(a, b)]: a [RangeError] for buffers of
    different lengths. *)
Definition timingSafeEqual (a b : list N) : result bool :=
  if negb (length a =? length b)%nat
  then Err (str "Input buffers must have the same byte length")
  else Ok (bool_decide (a = b)).

(** [verifyWebhookSignature(payload, signature, secret)]. *)
Definition verifyWebhookSignature (payload signature secret : jsstring)
  : result bool :=
  let expectedSignature := hmac_hex secret payload in
  timingSafeEqual (hex_decode signature) (hex_decode expectedSignature).

(* ================================================================== *)
(** ** The other requests of the PHP client *)

Module PHPRequests.
(** The address [request] calls: [$this->apiBase . $endpoint]. *)
Definition url (client : PHP.Client) (endpoint : jsstring) : jsstring :=
  PHP.apiBase client ++ endpoint.

(** [confirmPayment($intentId, $signature)] up to the request: the
    endpoint and the payload, or the message of the exception. *)
Definition confirmPayment_request (intentId signature : jsstring)
  : result (jsstring * value) :=
  if PHP.empty (Some intentId)
  then Err (str "Invalid parameter: intentId is required")
  else if PHP.empty (Some signature)
  then Err (str "Invalid parameter: signature is required")
  else Ok (str "/payment-intents/" ++ intentId ++ str "/confirm",
           JObj [ (str "signature", JStr signature) ]).

(** [getPaymentIntent($intentId)] up to the request: the endpoint, or the
    message of the exception. *)
Definition getPaymentIntent_request (intentId : jsstring) : result jsstring :=
  if PHP.empty (Some intentId)
  then Err (str "Invalid parameter: intentId is required")
  else Ok (str "/payment-intents/" ++ intentId).

(** The headers of [request]. *)
Definition headers (client : PHP.Client) : list jsstring :=
  [ str "Content-Type: application/json"; str "Accept: application/json" ]
  ++ match PHP.apiKey client with
     | Some key => [ str "Authorization: Bearer " ++ key ]
     | None => []
     end.
End PHPRequests.

(* ================================================================== *)
(** ** Documents with the same canonical text *)

(** A key without a double quote. *)
Definition quote_free (key : jsstring) : bool :=
  forallb (fun c => negb (c =? 34)%N) key.

(** No key of an object of the document, at any depth, has a double
    quote. *)
Fixpoint keys_quote_free (v : value) : bool :=
  match v with
  | JArr items => forallb keys_quote_free items
  | JObj members =>
      forallb (fun kv : jsstring * value =>
                 let (k, w) := kv in quote_free k && keys_quote_free w)
              members
  | _ => true
  end.

(** A value that is written [null]: [null] itself and the infinite
    Numbers. *)
Definition writes_null (v : value) : bool :=
  match v with
  | JNull | JInf _ => true
  | _ => false
  end.

(** Two documents that differ at most in the order of the members of
    their objects, in Numbers of the same text ([0] and [-0]), and in
    which of [null], [Infinity] and [-Infinity] stands at a place. *)
Inductive same_doc : value -> value -> Prop :=
| sd_null a b :
    writes_null a = true -> writes_null b = true -> same_doc a b
| sd_bool b : same_doc (JBool b) (JBool b)
| sd_num n m :
    number_to_string n = number_to_string m -> same_doc (JNum n) (JNum m)
| sd_str s : same_doc (JStr s) (JStr s)
| sd_arr items items' :
    Forall2 same_doc items items' -> same_doc (JArr items) (JArr items')
| sd_obj ms ms' :
    Permutation (keys ms) (keys ms') ->
    (forall key v v',
       get_prop ms key = Some v -> get_prop ms' key = Some v' ->
       same_doc v v') ->
    same_doc (JObj ms) (JObj ms').

(** The character a two-character escape stands for. *)
Definition unescape (e : codeunit) : option codeunit :=
  if (e =? 98)%N then Some 8%N
  else if (e =? 116)%N then Some 9%N
  else if (e =? 110)%N then Some 10%N
  else if (e =? 102)%N then Some 12%N
  else if (e =? 114)%N then Some 13%N
  else if (e =? 34)%N then Some 34%N
  else if (e =? 92)%N then Some 92%N
  else None.

(** [c] put in front of what was read. *)
Definition push (c : codeunit) (read : option (jsstring * jsstring))
  : option (jsstring * jsstring) :=
  match read with
  | Some (s, rest) => Some (c :: s, rest)
  | None => None
  end.

(** A reader of string literals, from after the opening quote: the string
    up to the closing quote and the text after it.  It is the inverse of
    [quote_body] that shows which string a text was written from. *)
Fixpoint read_string (text : jsstring) : option (jsstring * jsstring) :=
  match text with
  | [] => None
  | c :: rest =>
      if (c =? 34)%N then Some ([], rest)
      else if (c =? 92)%N then
        match rest with
        | e :: rest1 =>
            if (e =? 117)%N then
              match rest1 with
              | h1 :: h2 :: h3 :: h4 :: rest2 =>
                  match unhex h1, unhex h2, unhex h3, unhex h4 with
                  | Some x1, Some x2, Some x3, Some x4 =>
                      push (((x1 * 16 + x2) * 16 + x3) * 16 + x4)%N
                           (read_string rest2)
                  | _, _, _, _ => None
                  end
              | _ => None
              end
            else
              match unescape e with
              | Some x => push x (read_string rest1)
              | None => None
              end
        | [] => None
        end
      else push c (read_string rest)
  end.

(** The kinds of values, and the kind a text of the serializer starts
    with. *)
Inductive kind := KNull | KBool | KNum | KStr | KArr | KObj.

Definition kind_of (v : value) : kind :=
  match v with
  | JNull | JInf _ => KNull
  | JBool _ => KBool
  | JNum _ => KNum
  | JStr _ => KStr
  | JArr _ => KArr
  | JObj _ => KObj
  end.

Definition is_digit (c : codeunit) : bool :=
  ((48 <=? c) && (c <=? 57))%N.

Definition kind_of_unit (c : codeunit) : option kind :=
  if (c =? 110)%N then Some KNull
  else if ((c =? 116) || (c =? 102))%N then Some KBool
  else if (is_digit c || (c =? 45))%N then Some KNum
  else if (c =? 34)%N then Some KStr
  else if (c =? 91)%N then Some KArr
  else if (c =? 123)%N then Some KObj
  else None.

(** The characters of the text of a Number. *)
Definition is_number_unit (c : codeunit) : bool :=
  is_digit c || (c =? 45)%N || (c =? 46)%N || (c =? 101)%N || (c =? 43)%N.

(** The characters after a value inside a text: a comma, a closing
    bracket or a closing brace. *)
Definition is_delimiter (c : codeunit) : bool :=
  ((c =? 44) || (c =? 93) || (c =? 125))%N.

(** A text that is empty or starts outside of [P]. *)
Definition stops (P : codeunit -> bool) (text : jsstring) : Prop :=
  match text with
  | [] => True
  | c :: _ => P c = false
  end.

(** A text that is empty or starts with a delimiter. *)
Definition delimited (text : jsstring) : Prop :=
  match text with
  | [] => True
  | c :: _ => is_delimiter c = true
  end.

(* ================================================================== *)
(** ** Numbers as the engine holds them *)

(** The integers of [Number::toString] for a Number: the digits of a
    Number that is not zero do not end in [0], and the point of zero is
    at [0]. *)
Definition proper (x : number) : bool :=
  if (num_digits x =? 0)%N then (num_point x =? 0)%Z
  else negb (num_digits x mod 10 =? 0)%N.

(** The text of a Number that is not zero, without its sign. *)
Definition number_body (x : number) : jsstring :=
  let ds := decimal_digits (num_digits x) in
  let k := Z.of_nat (length ds) in
  let n := num_point x in
  if ((k <=? n) && (n <=? 21))%Z then
    ds ++ repeat 48%N (Z.to_nat (n - k))
  else if ((0 <? n) && (n <=? 21))%Z then
    firstn (Z.to_nat n) ds ++ str "." ++ skipn (Z.to_nat n) ds
  else if ((-6 <? n) && (n <=? 0))%Z then
    str "0." ++ repeat 48%N (Z.to_nat (- n)) ++ ds
  else
    let e := (n - 1)%Z in
    let exponent :=
      str "e" ++ (if (e <? 0)%Z then str "-" else str "+")
              ++ decimal_digits (Z.to_N (Z.abs e)) in
    match ds with
    | [] => []
    | [d] => d :: exponent
    | d :: more => d :: str "." ++ more ++ exponent
    end.

Definition is_zero_unit (c : codeunit) : bool := (c =? 48)%N.

(* ================================================================== *)
(** * Properties *)

(** ** The hash primitive *)

(** The test vectors of FIPS 180-4 for the empty message and for the
    message abc. *)
Example sha256_empty :
  sha256_hex [] =
  str "e3b0c44298fc1c149afbf4c8996fb92427ae41e4649b934ca495991b7852b855".
Proof. vm_compute. reflexivity. Qed.

Example sha256_abc :
  sha256_hex (str "abc") =
  str "ba7816bf8f01cfea414140de5dae2223b00361a396177a9cb410ff61f20015ad".
Proof. vm_compute. reflexivity. Qed.

Lemma hex_fixed_length width x : length (hex_fixed width x) = width.
Proof.
  revert x. induction width as [|w IH]; intros x; simpl; [reflexivity|].
  rewrite List.length_app, IH. simpl. lia.
Qed.

Lemma compress_length h blk : length h = 8%nat ->
  length (Sha256.compress h blk) = 8%nat.
Proof.
  intros Hh. unfold Sha256.compress.
  rewrite List.length_map, List.length_combine, Hh. reflexivity.
Qed.

Lemma digest_words_length msg : length (Sha256.digest_words msg) = 8%nat.
Proof.
  unfold Sha256.digest_words.
  generalize (Sha256.chunks (length (Sha256.pad msg)) 64 (Sha256.pad msg)).
  assert (H : length Sha256.H0 = 8%nat) by reflexivity.
  revert H. generalize Sha256.H0.
  intros h Hh blocks. revert h Hh.
  induction blocks as [|b bs IH]; intros h Hh; simpl; [exact Hh|].
  apply IH, compress_length, Hh.
Qed.

Lemma hex_words_length ws :
  length (flat_map (hex_fixed 8) ws) = (8 * length ws)%nat.
Proof.
  induction ws as [|w ws IH]; [reflexivity|].
  change (flat_map (hex_fixed 8) (w :: ws))
    with (hex_fixed 8 w ++ flat_map (hex_fixed 8) ws).
  rewrite List.length_app, hex_fixed_length, IH. simpl. lia.
Qed.

(** A digest is 64 characters long. *)
Lemma sha256_hex_length s : length (sha256_hex s) = 64%nat.
Proof.
  unfold sha256_hex, Sha256.hexdigest.
  rewrite hex_words_length, digest_words_length. reflexivity.
Qed.

Lemma sha256_hex_truthy s : truthy (Some (JStr (sha256_hex s))) = true.
Proof.
  pose proof (sha256_hex_length s) as H.
  simpl. destruct (sha256_hex s); [discriminate|reflexivity].
Qed.

(** ** Properties of objects *)

Lemma jsstring_eqb_eq a b : jsstring_eqb a b = true <-> a = b.
Proof. unfold jsstring_eqb. apply bool_decide_eq_true. Qed.

Lemma jsstring_eqb_neq a b : jsstring_eqb a b = false <-> a <> b.
Proof. unfold jsstring_eqb. apply bool_decide_eq_false. Qed.

Lemma jsstring_eqb_refl a : jsstring_eqb a a = true.
Proof. apply jsstring_eqb_eq. reflexivity. Qed.

Section Members.
Context {A : Type}.
Implicit Types (members : list (jsstring * A)) (key : jsstring).

Lemma get_prop_None members key :
  get_prop members key = None <-> ~ In key (keys members).
Proof.
  induction members as [|[k v] rest IH]; simpl; [tauto|].
  destruct (jsstring_eqb k key) eqn:E.
  - apply jsstring_eqb_eq in E. split; [discriminate|tauto].
  - apply jsstring_eqb_neq in E. rewrite IH. tauto.
Qed.

Lemma delete_prop_absent members key :
  get_prop members key = None -> delete_prop members key = members.
Proof.
  induction members as [|[k v] rest IH]; simpl; [reflexivity|].
  destruct (jsstring_eqb k key); [discriminate|].
  intros H. rewrite IH; [reflexivity|exact H].
Qed.

Lemma get_prop_delete_same members key :
  get_prop (delete_prop members key) key = None.
Proof.
  induction members as [|[k v] rest IH]; simpl; [reflexivity|].
  destruct (jsstring_eqb k key) eqn:E; [exact IH|].
  simpl. rewrite E. exact IH.
Qed.

Lemma get_prop_delete_other members key key' :
  key <> key' ->
  get_prop (delete_prop members key) key' = get_prop members key'.
Proof.
  intros Hne. induction members as [|[k v] rest IH]; simpl; [reflexivity|].
  destruct (jsstring_eqb k key) eqn:E.
  - apply jsstring_eqb_eq in E. subst k.
    apply jsstring_eqb_neq in Hne. rewrite Hne. exact IH.
  - simpl. rewrite IH. reflexivity.
Qed.

Lemma delete_prop_set_same members key (v : A) :
  delete_prop (set_prop members key v) key = delete_prop members key.
Proof.
  induction members as [|[k w] rest IH]; simpl.
  - rewrite jsstring_eqb_refl. reflexivity.
  - destruct (jsstring_eqb k key) eqn:E; simpl; rewrite E.
    + reflexivity.
    + rewrite IH. reflexivity.
Qed.

Lemma get_prop_set_same members key (v : A) :
  get_prop (set_prop members key v) key = Some v.
Proof.
  induction members as [|[k w] rest IH]; simpl.
  - rewrite jsstring_eqb_refl. reflexivity.
  - destruct (jsstring_eqb k key) eqn:E; simpl; rewrite E;
      [reflexivity|exact IH].
Qed.

Lemma get_prop_set_other members key key' (v : A) :
  key <> key' ->
  get_prop (set_prop members key v) key' = get_prop members key'.
Proof.
  intros Hne. apply jsstring_eqb_neq in Hne.
  induction members as [|[k w] rest IH]; simpl.
  - rewrite Hne. reflexivity.
  - destruct (jsstring_eqb k key) eqn:E; simpl.
    + apply jsstring_eqb_eq in E. subst k. rewrite Hne. reflexivity.
    + rewrite IH. reflexivity.
Qed.
End Members.

(** ** Induction on documents *)

Lemma value_nested_ind (P : value -> Prop) :
  P JNull -> (forall b, P (JBool b)) -> (forall n, P (JNum n)) ->
  (forall s, P (JStr s)) ->
  (forall items, Forall P items -> P (JArr items)) ->
  (forall members, Forall (fun kv => P (snd kv)) members ->
                   P (JObj members)) ->
  (forall negative, P (JInf negative)) ->
  forall v, P v.
Proof.
  intros Hnull Hbool Hnum Hstr Harr Hobj Hinf. fix IH 1.
  intros [|b|n|s|items|members|neg].
  - exact Hnull.
  - apply Hbool.
  - apply Hnum.
  - apply Hstr.
  - apply Harr. induction items as [|x l IHl]; constructor;
      [apply IH|exact IHl].
  - apply Hobj. induction members as [|[k v] l IHl]; constructor;
      [apply IH|exact IHl].
  - apply Hinf.
Qed.

(** ** The order of keys *)

Lemma key_ltb_asym a b : key_ltb a b = true -> key_ltb b a = false.
Proof.
  revert b. induction a as [|x a IH]; intros [|y b]; simpl;
    try discriminate; try reflexivity.
  destruct (N.ltb_spec x y), (N.ltb_spec y x);
    try lia; try discriminate; try reflexivity.
  apply IH.
Qed.

Lemma key_le_antisym a b : key_le a b -> key_le b a -> a = b.
Proof.
  unfold key_le. revert b.
  induction a as [|x a IH]; intros [|y b]; simpl;
    try discriminate; try reflexivity.
  destruct (N.ltb_spec x y), (N.ltb_spec y x);
    try lia; try discriminate.
  intros H1 H2. assert (x = y) by lia. subst y.
  f_equal. apply IH; assumption.
Qed.

Lemma key_le_trans a b c : key_le a b -> key_le b c -> key_le a c.
Proof.
  unfold key_le. revert a b.
  induction c as [|z c IH]; intros [|x a] [|y b]; simpl;
    try discriminate; try reflexivity.
  destruct (N.ltb_spec y x), (N.ltb_spec x y), (N.ltb_spec z y),
    (N.ltb_spec y z), (N.ltb_spec z x), (N.ltb_spec x z);
    try lia; try discriminate; try reflexivity.
  apply IH.
Qed.

#[local] Instance key_le_transitive : Transitive key_le.
Proof. intros a b c. apply key_le_trans. Qed.

#[local] Instance key_le_antisymm : AntiSymm (=) key_le.
Proof. intros a b. apply key_le_antisym. Qed.

Lemma insert_key_perm k l : Permutation (insert_key k l) (k :: l).
Proof.
  induction l as [|x l IH]; simpl; [reflexivity|].
  destruct (key_ltb k x); [reflexivity|].
  rewrite IH. apply perm_swap.
Qed.

Lemma sort_keys_perm l : Permutation (sort_keys l) l.
Proof.
  induction l as [|x l IH]; simpl; [reflexivity|].
  rewrite insert_key_perm, IH. reflexivity.
Qed.

Lemma insert_key_hd k x l :
  HdRel key_le x l -> key_le x k -> HdRel key_le x (insert_key k l).
Proof.
  intros Hhd Hxk. destruct l as [|y l]; simpl; [constructor; exact Hxk|].
  destruct (key_ltb k y); constructor; [exact Hxk|].
  inversion Hhd; assumption.
Qed.

Lemma insert_key_sorted k l :
  Sorted key_le l -> Sorted key_le (insert_key k l).
Proof.
  induction 1 as [|x l Hs IH Hhd]; simpl; [repeat constructor|].
  destruct (key_ltb k x) eqn:E.
  - constructor; [constructor; assumption|].
    constructor. apply key_ltb_asym, E.
  - constructor; [exact IH|]. apply insert_key_hd; [exact Hhd|exact E].
Qed.

(** The keys come out in ascending order of their code units. *)
Lemma sort_keys_sorted l : Sorted key_le (sort_keys l).
Proof.
  induction l as [|x l IH]; simpl; [constructor|].
  apply insert_key_sorted, IH.
Qed.

(** The order in which the keys go in does not matter. *)
Lemma sort_keys_order l l' : Permutation l l' -> sort_keys l = sort_keys l'.
Proof.
  intros H. apply (Sorted_unique key_le); try apply sort_keys_sorted.
  rewrite !sort_keys_perm. exact H.
Qed.

Lemma get_prop_perm {A} (ms ms' : list (jsstring * A)) key :
  Permutation ms ms' -> NoDup (keys ms) ->
  get_prop ms key = get_prop ms' key.
Proof.
  unfold keys. induction 1 as [|[k v] l l' Hp IH|[k1 v1] [k2 v2] l|l l' l'' H1 IH1 H2 IH2];
    intros Hnd; simpl in *.
  - reflexivity.
  - inversion Hnd; subst. rewrite IH by assumption. reflexivity.
  - destruct (jsstring_eqb k1 key) eqn:E1, (jsstring_eqb k2 key) eqn:E2;
      try reflexivity.
    apply jsstring_eqb_eq in E1, E2. subst.
    inversion Hnd as [|? ? Hnot _]; subst. exfalso. apply Hnot. constructor.
  - rewrite IH1 by assumption. apply IH2.
    rewrite <- (Permutation_map fst H1). exact Hnd.
Qed.

(** ** The serializer, equation by equation *)

Lemma keys_render members : keys (render members) = keys members.
Proof.
  unfold keys, render. rewrite List.map_map.
  apply List.map_ext. intros [k v]. reflexivity.
Qed.

Lemma canonicalJSON_render members :
  canonicalJSON (JObj members) = object_json (render members).
Proof.
  unfold object_json. rewrite keys_render. reflexivity.
Qed.

Lemma get_prop_render members key :
  get_prop (render members) key
  = option_map canonicalJSON (get_prop members key).
Proof.
  induction members as [|[k v] rest IH]; simpl; [reflexivity|].
  destruct (jsstring_eqb k key); [reflexivity|exact IH].
Qed.

(** The object case as the source has it: the keys sorted, and for each
    key the quoted key, a colon and [canonicalJSON(obj[key])]. *)
Lemma canonicalJSON_object members :
  canonicalJSON (JObj members)
  = str "{"
    ++ join (str ",")
         (map (fun key =>
                 pair_string key
                   (match get_prop members key with
                    | Some v => canonicalJSON v
                    | None => str "undefined"
                    end))
              (sort_keys (keys members)))
    ++ str "}".
Proof.
  rewrite canonicalJSON_render. unfold object_json.
  rewrite keys_render. do 3 f_equal.
  apply List.map_ext. intros key. rewrite get_prop_render.
  destruct (get_prop members key); reflexivity.
Qed.

(** The array case: the elements in their order. *)
Lemma canonicalJSON_array items :
  canonicalJSON (JArr items)
  = str "[" ++ join (str ",") (map canonicalJSON items) ++ str "]".
Proof. reflexivity. Qed.

Lemma object_json_perm r r' :
  Permutation r r' -> NoDup (keys r) -> object_json r = object_json r'.
Proof.
  intros Hp Hnd. unfold object_json.
  rewrite (sort_keys_order (keys r) (keys r'))
    by (apply Permutation_map; exact Hp).
  do 3 f_equal. apply List.map_ext. intros key.
  rewrite (get_prop_perm r r' key Hp Hnd). reflexivity.
Qed.

(** ** Independence of the order of keys *)

Lemma key_reorder_sound R R' :
  key_reorder R R' -> wf_value R ->
  canonicalJSON R = canonicalJSON R' /\ wf_value R'.
Proof.
  induction 1 as [v|u v w H1 IH1 H2 IH2|ms ms' Hp|ms1 k v v' ms2 H IH
                  |xs v v' ys H IH]; intros Hwf.
  - split; [reflexivity|exact Hwf].
  - destruct (IH1 Hwf) as [E1 Hv]. destruct (IH2 Hv) as [E2 Hw].
    split; [congruence|exact Hw].
  - inversion Hwf as [| | | | |? Hnd Hall|]; subst. split.
    + rewrite !canonicalJSON_render. apply object_json_perm.
      * unfold render. apply Permutation_map. exact Hp.
      * rewrite keys_render. exact Hnd.
    + constructor.
      * rewrite <- (Permutation_map fst Hp). exact Hnd.
      * rewrite <- Hp. exact Hall.
  - inversion Hwf as [| | | | |? Hnd Hall|]; subst.
    apply Forall_app in Hall as [Hall1 Hall2].
    apply Forall_cons in Hall2 as [Hv Hall2].
    destruct (IH Hv) as [E Hv']. split.
    + rewrite !canonicalJSON_render. unfold render.
      rewrite !List.map_app. simpl. rewrite E. reflexivity.
    + constructor.
      * rewrite List.map_app in *. exact Hnd.
      * apply Forall_app. split; [exact Hall1|].
        constructor; [exact Hv'|exact Hall2].
  - inversion Hwf as [| | | |? Hall| |]; subst.
    apply Forall_app in Hall as [Hall1 Hall2].
    apply Forall_cons in Hall2 as [Hv Hall2].
    destruct (IH Hv) as [E Hv']. split.
    + rewrite !canonicalJSON_array, !List.map_app. simpl. rewrite E.
      reflexivity.
    + constructor. apply Forall_app. split; [exact Hall1|].
      constructor; [exact Hv'|exact Hall2].
Qed.

(** C2: a document and the same document with the members of its objects
    in another order, at the top level and below, have the same canonical
    string and hence the same digest. *)
Theorem canonicalJSON_key_order_independent (R R' : value) :
  wf_value R -> key_reorder R R' ->
  canonicalJSON R = canonicalJSON R' /\ digest R = digest R'.
Proof.
  intros Hwf Hre. destruct (key_reorder_sound R R' Hre Hwf) as [E _].
  split; [exact E|]. unfold digest. rewrite E. reflexivity.
Qed.

Ltac nodup_keys := apply (bool_decide_unpack _); vm_compute; exact I.

Ltac wf_tac :=
  repeat first
    [ apply wf_null | apply wf_bool | apply wf_num | apply wf_str
    | apply wf_arr | apply wf_obj; [nodup_keys|]
    | apply Forall_nil_2 | apply Forall_cons_2; cbn [snd] ].

Lemma doc_nested_wf : wf_value doc_nested.
Proof. unfold doc_nested, num. wf_tac. Qed.

Lemma doc_nested_reorder : key_reorder doc_nested doc_nested_reordered.
Proof.
  eapply kr_trans; [|apply kr_perm, perm_swap].
  apply (kr_member [(str "a", num 1)] (str "b") _ _ []).
  apply kr_perm, perm_swap.
Qed.

Lemma canonicalJSON_key_order_independent_witness :
  canonicalJSON doc_nested = canonicalJSON doc_nested_reordered
  /\ digest doc_nested = digest doc_nested_reordered.
Proof.
  apply canonicalJSON_key_order_independent;
    [exact doc_nested_wf|exact doc_nested_reorder].
Defined.

(** The second scenario of the specification, evaluated. *)
Example canonical_a_b :
  canonicalJSON (JObj [(str "a", num 1); (str "b", num 2)])
    = json_text "{'a':1,'b':2}"
  /\ canonicalJSON (JObj [(str "b", num 2); (str "a", num 1)])
    = json_text "{'a':1,'b':2}".
Proof. split; vm_compute; reflexivity. Qed.

(** Arrays keep their order. *)
Example canonical_items :
  canonicalJSON (JObj [(str "items", JArr [num 3; num 1; num 2])])
    = json_text "{'items':[3,1,2]}".
Proof. vm_compute. reflexivity. Qed.

(** ** The verifier *)

Arguments str : simpl never.
Arguments sha256_hex : simpl never.
Arguments canonicalJSON : simpl never.

Lemma sha256_hash_neq_hash : str "sha256_hash" <> str "hash".
Proof. vm_compute. discriminate. Qed.

(** Without digest properties the copy that is serialized is the
    document. *)
Lemma canonical_receipt_plain members :
  get_prop members (str "sha256_hash") = None ->
  get_prop members (str "hash") = None ->
  canonical_receipt (JObj members) = JObj members.
Proof.
  intros Hs Hh. unfold canonical_receipt. simpl.
  rewrite (delete_prop_absent members _ Hs).
  rewrite (delete_prop_absent members _ Hh). reflexivity.
Qed.

(** The value of [sha256_hash] is not part of what is serialized. *)
Lemma canonical_receipt_set members v :
  canonical_receipt (JObj (set_prop members (str "sha256_hash") v))
  = canonical_receipt (JObj members).
Proof.
  unfold canonical_receipt. simpl. rewrite delete_prop_set_same. reflexivity.
Qed.

(** The two ways through [verifyReceipt] for an object. *)
Lemma verify_document_reported members reported :
  js_or (get_prop members (str "sha256_hash"))
        (get_prop members (str "hash")) = Some reported ->
  truthy (Some reported) = true ->
  verify_document (JObj members)
  = {| ok := strict_eq_string (computeReceiptHash (JObj members))
                              (Some reported);
       computed_hash := computeReceiptHash (JObj members);
       reported_hash := reported;
       receipt := Some (JObj members);
       error := None |}.
Proof.
  intros Hr Ht. unfold verify_document. cbn [member].
  rewrite Hr, Ht. reflexivity.
Qed.

Lemma verify_document_unreported members :
  truthy (js_or (get_prop members (str "sha256_hash"))
                (get_prop members (str "hash"))) = false ->
  verify_document (JObj members)
  = failure (str "Receipt does not contain sha256_hash field").
Proof.
  intros Ht. unfold verify_document. cbn [member].
  destruct (js_or _ _); [rewrite Ht|]; reflexivity.
Qed.

(** [verifyReceipt] on a receipt that was fetched and parsed is
    [verify_document]; a failure of the transport gives the error
    result. *)
Lemma verifyReceipt_fetched statusText doc :
  verifyReceipt (Response true statusText (Json doc)) = verify_document doc.
Proof. reflexivity. Qed.

Lemma verifyReceipt_not_fetched statusText body :
  verifyReceipt (Response false statusText body)
  = failure (str "Failed to fetch receipt: " ++ statusText).
Proof. reflexivity. Qed.

(** C1: for a document without digest properties, the document with its
    digest stored under [sha256_hash] verifies: [ok] is true, and the
    computed hash is that digest. *)
Theorem round_trip (members : list (jsstring * value)) :
  get_prop members (str "sha256_hash") = None ->
  get_prop members (str "hash") = None ->
  let D := JObj members in
  let D' := JObj (set_prop members (str "sha256_hash") (JStr (digest D))) in
  ok (verify_document D') = true
  /\ computed_hash (verify_document D') = digest D
  /\ error (verify_document D') = None.
Proof.
  intros Hs Hh D D'.
  assert (Ht : truthy (Some (JStr (digest D))) = true)
    by apply sha256_hex_truthy.
  assert (Hc : computeReceiptHash D' = digest D).
  { unfold computeReceiptHash, D'.
    rewrite canonical_receipt_set, (canonical_receipt_plain members Hs Hh).
    reflexivity. }
  unfold D' in *.
  rewrite (verify_document_reported _ (JStr (digest D))); [|
    rewrite get_prop_set_same; unfold js_or; rewrite Ht; reflexivity
    | exact Ht].
  cbn [ok computed_hash error]. rewrite Hc.
  cbn [strict_eq_string]. rewrite jsstring_eqb_refl. auto.
Qed.

Lemma round_trip_witness :
  ok (verify_document
        (JObj (set_prop doc_plain (str "sha256_hash")
                        (JStr (digest (JObj doc_plain)))))) = true.
Proof.
  apply (round_trip doc_plain); vm_compute; reflexivity.
Defined.

(** C3, as the code has it: setting [sha256_hash] to one value or to
    another of the same truthiness leaves the computed hash the same.  A
    falsy value counts as no digest at all. *)
Theorem computed_hash_ignores_digest_value
  (members : list (jsstring * value)) (v1 v2 : value) :
  truthy (Some v1) = truthy (Some v2) ->
  computed_hash
    (verify_document (JObj (set_prop members (str "sha256_hash") v1)))
  = computed_hash
      (verify_document (JObj (set_prop members (str "sha256_hash") v2))).
Proof.
  intros Ht. unfold verify_document. simpl member.
  rewrite !get_prop_set_same.
  rewrite !(get_prop_set_other members _ _ _ sha256_hash_neq_hash).
  unfold js_or, computeReceiptHash. rewrite !canonical_receipt_set.
  rewrite <- Ht. destruct (truthy (Some v1)) eqn:E1.
  - rewrite E1, <- Ht. reflexivity.
  - destruct (get_prop members (str "hash")) as [h|]; [|reflexivity].
    destruct (truthy (Some h)); reflexivity.
Qed.

Lemma computed_hash_ignores_digest_value_witness :
  computed_hash
    (verify_document
       (JObj (set_prop doc_plain (str "sha256_hash") (JStr (str "xxx")))))
  = computed_hash
      (verify_document
         (JObj (set_prop doc_plain (str "sha256_hash") (JStr (str "yyy"))))).
Proof.
  apply (computed_hash_ignores_digest_value doc_plain). reflexivity.
Defined.

(** C3 as stated fails: with the empty string for [sha256_hash] the
    computed hash is empty, with another string it is the digest. *)
Lemma computed_hash_depends_on_digest_value :
  computed_hash
    (verify_document (JObj (set_prop doc_plain (str "sha256_hash") (JStr []))))
  <> computed_hash
       (verify_document
          (JObj (set_prop doc_plain (str "sha256_hash") (JStr (str "xxx"))))).
Proof. vm_compute. discriminate. Qed.

(** The manual verification compares the same hash with the value of
    [sha256_hash], whatever that value is. *)
Lemma manual_verifyReceipt_set members v :
  Manual.verifyReceipt (JObj (set_prop members (str "sha256_hash") v))
  = Some (strict_eq_string (computeReceiptHash (JObj members)) (Some v)).
Proof.
  unfold Manual.verifyReceipt. cbn [member spread].
  rewrite get_prop_set_same, delete_prop_set_same. reflexivity.
Qed.

(** On a receipt that reports a string under [sha256_hash], the manual
    verification and the client agree. *)
Lemma manual_verifyReceipt_agrees members reported :
  get_prop members (str "sha256_hash") = Some (JStr reported) ->
  reported <> [] ->
  Manual.verifyReceipt (JObj members)
  = Some (ok (verify_document (JObj members))).
Proof.
  intros Hs Hne.
  assert (Ht : truthy (Some (JStr reported)) = true).
  { simpl. apply jsstring_eqb_neq in Hne. rewrite Hne. reflexivity. }
  rewrite (verify_document_reported _ (JStr reported));
    [|rewrite Hs; unfold js_or; rewrite Ht; reflexivity|exact Ht].
  unfold Manual.verifyReceipt. cbn [member spread ok]. rewrite Hs.
  reflexivity.
Qed.

(** C6, as the code has it: a receipt object with neither [sha256_hash]
    nor [hash] gives a result, not an exception, with [ok] false, both
    hashes empty, and the error text [Receipt does not contain sha256_hash
    field]. *)
Theorem missing_digest_field (members : list (jsstring * value)) :
  get_prop members (str "sha256_hash") = None ->
  get_prop members (str "hash") = None ->
  verify_document (JObj members)
  = {| ok := false; computed_hash := []; reported_hash := JStr [];
       receipt := None;
       error := Some (str "Receipt does not contain sha256_hash field") |}.
Proof.
  intros Hs Hh. unfold verify_document. simpl member.
  rewrite Hs, Hh. reflexivity.
Qed.

Lemma missing_digest_field_witness :
  ok (verify_document (JObj doc_plain)) = false.
Proof.
  rewrite (missing_digest_field doc_plain); reflexivity.
Defined.

(** C6 as stated fails: the error text is another one. *)
Lemma missing_digest_field_message :
  error (verify_document (JObj doc_plain))
  <> Some (str "missing digest field").
Proof. vm_compute. discriminate. Qed.

(** ** What the digest covers *)

(** C7 as stated fails: a digest property of a nested object is still
    there in what is serialized and hashed. *)
Lemma nested_alias_is_hashed :
  has_alias (canonical_receipt receipt_nested_alias) = true
  /\ canonicalJSON (canonical_receipt receipt_nested_alias)
     = json_text "{'amount':10,'settlement':{'hash':'stale'}}".
Proof. split; vm_compute; reflexivity. Qed.

(** C7, as the code has it: the object that is serialized and hashed has
    neither [sha256_hash] nor [hash] among its own properties, and every
    other property of the receipt with its value, nested objects
    included, as it is. *)
Theorem top_level_aliases_removed (doc : value) :
  member (canonical_receipt doc) (str "sha256_hash") = None
  /\ member (canonical_receipt doc) (str "hash") = None
  /\ forall key, is_alias key = false ->
       member (canonical_receipt doc) key = get_prop (spread doc) key.
Proof.
  unfold canonical_receipt. cbn [member]. repeat split.
  - rewrite get_prop_delete_other by (symmetry; exact sha256_hash_neq_hash).
    apply get_prop_delete_same.
  - apply get_prop_delete_same.
  - intros key Hk. unfold is_alias in Hk.
    apply orb_false_elim in Hk as [H1 H2].
    apply jsstring_eqb_neq in H1, H2.
    rewrite !get_prop_delete_other by congruence. reflexivity.
Qed.

Lemma top_level_aliases_removed_witness :
  member (canonical_receipt receipt_nested_alias) (str "hash") = None.
Proof.
  exact (proj1 (proj2 (top_level_aliases_removed receipt_nested_alias))).
Defined.

(** ** Numbers *)

(** The literals [10.0] and [10] denote one Number. *)
Lemma literal_10_0 : decimal 100 (-1) = decimal 10 0.
Proof. reflexivity. Qed.

(** C4 as stated fails: the canonical form of the example is not the
    text with [10.0], and the hash is not the one of that text. *)
Lemma canonical_example_not_10_0 :
  canonicalJSON (canonical_receipt receipt_example)
    <> json_text "{'amount':10.0,'merchant':'ABC123'}"
  /\ computeReceiptHash receipt_example
     <> sha256_hex (json_text "{'amount':10.0,'merchant':'ABC123'}").
Proof. split; vm_compute; discriminate. Qed.

(** C4, as the code has it: without its digest property the example
    serializes to the text with [10], the Number that [10.0] denotes
    written by [JSON.stringify], and the digest is the SHA-256 of the
    UTF-8 bytes of that text. *)
Theorem canonical_example_amount :
  canonical_receipt receipt_example
    = JObj [ (str "amount", JNum (decimal 10 0));
             (str "merchant", JStr (str "ABC123")) ]
  /\ canonicalJSON (canonical_receipt receipt_example)
     = json_text "{'amount':10,'merchant':'ABC123'}"
  /\ computeReceiptHash receipt_example
     = Sha256.hexdigest
         (utf8_encode (json_text "{'amount':10,'merchant':'ABC123'}"))
  /\ computeReceiptHash receipt_example
     = str "a13162003cd44a14a418eafd04d7acd4e7d048ec070716d2dc91d6606c121a9b".
Proof. repeat split; vm_compute; reflexivity. Qed.

(** Numbers that are not integers, as the receipts have them. *)
Example canonical_settlement :
  canonicalJSON
    (JObj [ (str "merchant_received", JNum (decimal 97 (-1)));
            (str "treasury_fee", JNum (decimal 2 (-1)));
            (str "facilitator_fee", JNum (decimal 1 (-1))) ])
  = json_text
      "{'facilitator_fee':0.1,'merchant_received':9.7,'treasury_fee':0.2}".
Proof. vm_compute. reflexivity. Qed.

(** ** Keys in the output *)

(** At a key with a double quote the key is written as it is, where
    [JSON.stringify] writes a backslash before the quote. *)
Lemma key_not_escaped :
  canonicalJSON doc_quote_key = json_text "{'a'b':1}"
  /\ quote_json_string (json_text "a'b") = json_text "'a\'b'"
  /\ canonicalJSON doc_quote_key <> json_text "{'a\'b':1}".
Proof. repeat split; vm_compute; (reflexivity || discriminate). Qed.

(** A key of plain characters is one that [JSON.stringify] writes as
    it is. *)
Lemma plain_key_raw key :
  forallb plain_unit key = true -> quote_body key = key.
Proof.
  intros Hp. induction key as [|c key IH]; [reflexivity|].
  cbn [forallb] in Hp. apply andb_prop in Hp as [Hc Hp].
  unfold plain_unit in Hc.
  apply andb_prop in Hc as [Hc Hlow]. apply andb_prop in Hc as [Hc Hhigh].
  apply andb_prop in Hc as [Hc Hbs]. apply andb_prop in Hc as [Hctl Hq].
  apply negb_true_iff in Hlow, Hhigh, Hbs, Hctl, Hq.
  cbn [quote_body]. rewrite Hhigh, Hlow.
  unfold escape_unit. rewrite Hq, Hbs, Hctl.
  apply N.ltb_ge in Hctl.
  destruct (N.eqb_spec c 8); [lia|]. destruct (N.eqb_spec c 9); [lia|].
  destruct (N.eqb_spec c 10); [lia|]. destruct (N.eqb_spec c 12); [lia|].
  destruct (N.eqb_spec c 13); [lia|].
  cbn [app]. rewrite (IH Hp). reflexivity.
Qed.

(** A key that [JSON.stringify] writes as it is: there the member is the
    escaped key, a colon and the value. *)
Lemma raw_key_escaped key value_json :
  quote_body key = key ->
  pair_string key value_json
  = quote_json_string key ++ 58%N :: value_json.
Proof.
  intros Hq. unfold pair_string, quote_json_string.
  rewrite Hq. cbn [app]. rewrite <- List.app_assoc. reflexivity.
Qed.

(** Every key that is sorted is a key of the object. *)
Lemma sorted_key_defined (members : list (jsstring * value)) key :
  In key (sort_keys (keys members)) ->
  exists v, get_prop members key = Some v.
Proof.
  intros Hin.
  destruct (get_prop members key) as [v|] eqn:E; [eauto|].
  apply get_prop_None in E. exfalso. apply E.
  apply list_elem_of_In. rewrite <- (sort_keys_perm (keys members)).
  apply list_elem_of_In. exact Hin.
Qed.

(** C5 as stated fails: the order of the keys is the one of UTF-16 code
    units, not of code points.  The key U+1F600, a surrogate pair, comes
    before the key U+FF5E. *)
Lemma keys_sorted_by_code_unit :
  canonicalJSON doc_astral_key
  = json_text "{'" ++ [0xD83D; 0xDE00]%N ++ json_text "':2,'"
    ++ [0xFF5E]%N ++ json_text "':1}"
  /\ (0xFF5E < pair_code_point 0xD83D 0xDE00)%N.
Proof. split; vm_compute; reflexivity. Qed.

(** C5, as the code has it, for an object with keys that
    [JSON.stringify] writes as they are (no double quote, backslash,
    control character or lone surrogate in a key): the object is
    serialized as its keys in ascending order of their UTF-16 code units,
    each as the JSON-string-escaped key, a colon and the serialized value
    of that key, the members joined by commas and put in braces.  Every
    key of plain characters is such a key, and so is a key with surrogate
    pairs. *)
Theorem canonical_object_members (members : list (jsstring * value)) :
  (forall key, In key (keys members) -> quote_body key = key) ->
  canonicalJSON (JObj members)
  = str "{"
    ++ join (str ",")
         (map (fun key =>
                 quote_json_string key
                 ++ 58%N
                 :: match get_prop members key with
                    | Some v => canonicalJSON v
                    | None => str "undefined"
                    end)
              (sort_keys (keys members)))
    ++ str "}"
  /\ Sorted key_le (sort_keys (keys members))
  /\ Permutation (sort_keys (keys members)) (keys members)
  /\ (forall key, In key (sort_keys (keys members)) ->
        exists v, get_prop members key = Some v)
  /\ (forall key, forallb plain_unit key = true -> quote_body key = key).
Proof.
  intros Hraw. split.
  - rewrite canonicalJSON_object.
    apply (f_equal (fun l => str "{" ++ join (str ",") l ++ str "}")).
    apply List.map_ext_in. intros key Hk. apply raw_key_escaped, Hraw.
    apply list_elem_of_In. rewrite <- (sort_keys_perm (keys members)).
    apply list_elem_of_In. exact Hk.
  - split; [apply sort_keys_sorted|].
    split; [apply sort_keys_perm|].
    split; [apply sorted_key_defined|apply plain_key_raw].
Qed.

Lemma canonical_object_members_witness :
  canonicalJSON doc_astral_key
  = str "{"
    ++ join (str ",")
         [ quote_json_string [0xD83D; 0xDE00]%N ++ 58%N :: str "2";
           quote_json_string [0xFF5E]%N ++ 58%N :: str "1" ]
    ++ str "}".
Proof.
  apply (canonical_object_members
           [ ([0xFF5E]%N, num 1); ([0xD83D; 0xDE00]%N, num 2) ]).
  intros key [<-|[<-|[]]]; reflexivity.
Defined.

(** ** Tampering *)

(** C8 at a receipt with a correct digest and a change of its one other
    property: both serialize to the same text, and the changed receipt
    still verifies. *)
Theorem tampered_receipt_verifies :
  ok (verify_document receipt_settled) = true
  /\ member receipt_tampered (str "settlement")
     <> member receipt_settled (str "settlement")
  /\ member receipt_tampered (str "sha256_hash")
     = member receipt_settled (str "sha256_hash")
  /\ canonicalJSON (canonical_receipt receipt_tampered)
     = canonicalJSON (canonical_receipt receipt_settled)
  /\ ok (verify_document receipt_tampered) = true
  /\ computed_hash (verify_document receipt_tampered)
     = str "b6afed4dc08d2cb372938648194ab6578b3e4316437b868fa450b222b11102d9"
  /\ reported_hash (verify_document receipt_tampered)
     = JStr (str "b6afed4dc08d2cb372938648194ab6578b3e4316437b868fa450b222b11102d9").
Proof. repeat split; vm_compute; (reflexivity || discriminate). Qed.

(** Where the texts differ and the hashes of the texts differ, a change
    is seen: the verdict is the comparison of the two hashes. *)
Lemma tamper_detected members reported :
  get_prop members (str "sha256_hash") = Some (JStr reported) ->
  reported <> [] ->
  computeReceiptHash (JObj members) <> reported ->
  ok (verify_document (JObj members)) = false.
Proof.
  intros Hs Hne Hc.
  assert (Ht : truthy (Some (JStr reported)) = true).
  { simpl. apply jsstring_eqb_neq in Hne. rewrite Hne. reflexivity. }
  rewrite (verify_document_reported _ (JStr reported));
    [|rewrite Hs; unfold js_or; rewrite Ht; reflexivity|exact Ht].
  cbn [ok strict_eq_string]. apply jsstring_eqb_neq. exact Hc.
Qed.

(** ** The receipt after verification *)

Module StoreFacts.
Lemma load_allocated (h : Store.store) r members :
  h !! r = Some members -> Store.load r h = (Store.Normal members, h).
Proof. intros H. unfold Store.load. rewrite H. reflexivity. Qed.

Lemma read_property_allocated (h : Store.store) r members key :
  h !! r = Some members ->
  Store.read_property r key h
  = (Store.Normal (get_prop members key), h).
Proof.
  intros H. unfold Store.read_property, Store.bind.
  rewrite (load_allocated h r members H). reflexivity.
Qed.

Lemma delete_property_allocated (h : Store.store) r members key :
  h !! r = Some members ->
  Store.delete_property r key h
  = (Store.Normal tt, <[r := delete_prop members key]> h).
Proof.
  intros H. unfold Store.delete_property, Store.bind.
  rewrite (load_allocated h r members H). reflexivity.
Qed.

(** [computeReceiptHash] returns the hash of the pure function and
    writes to one place only: the copy, a new object. *)
Lemma computeReceiptHash_run (h : Store.store) r members :
  h !! r = Some members ->
  Store.computeReceiptHash r h
  = (Store.Normal (computeReceiptHash (JObj members)),
     <[fresh (dom h) :=
         delete_prop (delete_prop members (str "sha256_hash")) (str "hash")]> h).
Proof.
  intros H.
  unfold Store.computeReceiptHash, Store.spread_object, Store.bind at 1 2.
  rewrite (load_allocated h r members H). unfold Store.alloc.
  set (c := fresh (dom h)).
  unfold Store.bind at 1.
  rewrite (delete_property_allocated _ c members)
    by apply lookup_insert_eq.
  rewrite insert_insert_eq. unfold Store.bind at 1.
  rewrite (delete_property_allocated _ c
             (delete_prop members (str "sha256_hash")))
    by apply lookup_insert_eq.
  rewrite insert_insert_eq.
  unfold Store.bind, Store.canonicalJSON_at, Store.bind.
  rewrite (load_allocated _ c
             (delete_prop (delete_prop members (str "sha256_hash"))
                          (str "hash")))
    by apply lookup_insert_eq.
  reflexivity.
Qed.

(** What is in the store before is in the store after. *)
Lemma insert_fresh_frame (h : Store.store) members r' :
  r' ∈ dom h -> <[fresh (dom h) := members]> h !! r' = h !! r'.
Proof.
  intros Hin. apply lookup_insert_ne. intros E. subst r'.
  exact (is_fresh (dom h) Hin).
Qed.
End StoreFacts.

(** What the copy is for: [delete] on the receipt itself would take the
    property away from it. *)
Example delete_on_receipt :
  snd (Store.delete_property 1%positive (str "hash") store_example)
    !! 1%positive
  = Some [ (str "amount", num 10); (str "sha256_hash", JStr (str "xxx")) ].
Proof. reflexivity. Qed.

(** C10: verification of the receipt at [r] returns a result, the one of
    the pure function, and leaves every object of the store as it was: the
    receipt still has all its properties, [sha256_hash] and [hash]
    included, with their values. *)
Theorem verify_leaves_receipt
  (h : Store.store) (r : Store.ref) (members : list (jsstring * value)) :
  h !! r = Some members ->
  exists v h',
    Store.verify_document r h = (Store.Normal v, h')
    /\ h' !! r = Some members
    /\ (forall r', r' ∈ dom h -> h' !! r' = h !! r')
    /\ Store.forget (JObj members) v = verify_document (JObj members).
Proof.
  intros H.
  assert (Hr : r ∈ dom h) by (apply elem_of_dom; eauto).
  unfold Store.verify_document, Store.try_catch, Store.bind at 1.
  rewrite (StoreFacts.read_property_allocated h r members _ H).
  unfold Store.bind at 1.
  assert (Hread :
    (if truthy (get_prop members (str "sha256_hash"))
     then Store.ret (get_prop members (str "sha256_hash"))
     else Store.read_property r (str "hash")) h
    = (Store.Normal (js_or (get_prop members (str "sha256_hash"))
                           (get_prop members (str "hash"))), h)).
  { unfold js_or. destruct (truthy (get_prop members (str "sha256_hash")));
      [reflexivity|].
    apply (StoreFacts.read_property_allocated h r members _ H). }
  rewrite Hread.
  destruct (js_or (get_prop members (str "sha256_hash"))
                  (get_prop members (str "hash"))) as [reported|] eqn:Ej.
  - destruct (truthy (Some reported)) eqn:Et.
    + unfold Store.bind.
      rewrite (StoreFacts.computeReceiptHash_run h r members H).
      eexists _, _. split; [reflexivity|]. repeat split.
      * rewrite StoreFacts.insert_fresh_frame by exact Hr. exact H.
      * intros r' Hr'. apply StoreFacts.insert_fresh_frame, Hr'.
      * rewrite (verify_document_reported members reported Ej Et).
        reflexivity.
    + eexists _, _. split; [reflexivity|]. repeat split; [exact H|].
      rewrite verify_document_unreported by (rewrite Ej; exact Et).
      reflexivity.
  - eexists _, _. split; [reflexivity|]. repeat split; [exact H|].
    rewrite verify_document_unreported by (rewrite Ej; reflexivity).
    reflexivity.
Qed.

Lemma verify_leaves_receipt_witness :
  exists v h',
    Store.verify_document 1%positive store_example = (Store.Normal v, h')
    /\ h' !! 1%positive
       = Some [ (str "amount", num 10);
                (str "hash", JStr (str "old"));
                (str "sha256_hash", JStr (str "xxx")) ].
Proof.
  destruct (verify_leaves_receipt store_example 1%positive _ eq_refl)
    as (v & h' & Hrun & Hsame & _).
  exists v, h'. split; [exact Hrun|exact Hsame].
Defined.

(** ** The network in payment-intent requests *)

(** Every request of a client that the constructor accepted has the
    network of the configuration, a string that is not empty, at
    [x402_context.network]. *)
Lemma request_has_network
  (config : SolPayX402Config) (client : SolPayX402) (params : PayParams) :
  new_SolPayX402 config = Ok client ->
  path2 (createPaymentIntent_request client params)
        (str "x402_context") (str "network")
    = Some (JStr (cfg_network client))
  /\ cfg_network client <> []
  /\ network config = Some (cfg_network client).
Proof.
  intros Hnew. split.
  - unfold createPaymentIntent_request, createPaymentIntent_body.
    destruct (customerEmail params), (successUrl params), (cancelUrl params);
      reflexivity.
  - unfold new_SolPayX402 in Hnew.
    destruct (present (apiBase config)); [|discriminate].
    destruct (present (merchantWallet config)); [|discriminate].
    destruct (network config) as [[|c net]|] eqn:En; try discriminate.
    cbn in Hnew. injection Hnew as <-. cbn. split; [discriminate|reflexivity].
Qed.

(** Without a network there is no client, hence no request. *)
Lemma no_client_without_network (config : SolPayX402Config) :
  present (network config) = false ->
  new_SolPayX402 config = Err (str "apiBase is required")
  \/ new_SolPayX402 config = Err (str "merchantWallet is required")
  \/ new_SolPayX402 config = Err (str "network is required").
Proof.
  intros Hn. unfold new_SolPayX402. rewrite Hn.
  destruct (present (apiBase config)), (present (merchantWallet config));
    cbn; auto.
Qed.

(** The debug script posts the network [solana:devnet]. *)
Lemma debug_body_network (wallet : jsstring) :
  path2 (debug_body wallet) (str "x402_context") (str "network")
  = Some (JStr (str "solana:devnet")).
Proof. reflexivity. Qed.

(** C9 as stated fails: the constructor checks that there is a network,
    not which one.  A configuration with the network [devnet], the name
    of the PHP port, is accepted, and the request has [devnet] at
    [x402_context.network], which is neither [solana:devnet] nor
    [solana:mainnet]. *)
Lemma request_network_unchecked :
  exists client,
    new_SolPayX402 config_short_name = Ok client
    /\ path2 (createPaymentIntent_request client params_usdc)
             (str "x402_context") (str "network")
       = Some (JStr (str "devnet"))
    /\ forall n : Network, str "devnet" <> network_name n.
Proof.
  eexists. split; [reflexivity|]. split; [reflexivity|].
  intros [|]; discriminate.
Qed.

(** C9, as the code has it: every payment-intent request that a client
    builds has, at [x402_context.network], the network its configuration
    names, a string that is not empty and is sent as it is, so that no
    request is without a network.  The request of the debug script has
    [solana:devnet] there. *)
Theorem request_network_populated
  (config : SolPayX402Config) (client : SolPayX402) (params : PayParams) :
  new_SolPayX402 config = Ok client ->
  let sent :=
    path2 (createPaymentIntent_request client params)
          (str "x402_context") (str "network") in
  (exists net,
      network config = Some net /\ net <> [] /\ sent = Some (JStr net))
  /\ (forall wallet,
        path2 (debug_body wallet) (str "x402_context") (str "network")
        = Some (JStr (str "solana:devnet"))).
Proof.
  intros Hnew sent.
  destruct (request_has_network config client params Hnew) as (Hp & Hne & Hc).
  fold sent in Hp. split.
  - exists (cfg_network client). auto.
  - intros wallet. apply debug_body_network.
Qed.

Lemma request_network_populated_witness :
  exists net,
    network config_devnet = Some net /\ net <> []
    /\ path2 (createPaymentIntent_request client_devnet params_usdc)
             (str "x402_context") (str "network") = Some (JStr net).
Proof.
  exact (proj1 (request_network_populated config_devnet client_devnet
                  params_usdc eq_refl)).
Defined.

(** The request of the example, in full. *)
Example request_devnet :
  createPaymentIntent_request client_devnet params_usdc
  = JObj [ (str "amount", JNum (decimal 10 0));
           (str "asset", JStr (str "USDC"));
           (str "merchant_wallet",
              JStr (str "DsAfN2mwcc3EuJ1gFMtwEddNbaNgp64kDzHFmKF62k2z"));
           (str "customer_email", JStr (str "customer@example.com"));
           (str "metadata",
              JObj [ (str "sdk", JStr (str "@solpay/x402-sdk"));
                     (str "sdk_version", JStr (str "1.0.0")) ]);
           (str "x402_context",
              JObj [ (str "facilitator_id",
                        JStr (str "facilitator.payai.network"));
                     (str "network", JStr (str "solana:devnet"));
                     (str "resource",
                        JStr (str "https://www.solpay.cash/api/v1/payment_intents")) ]) ].
Proof. vm_compute. reflexivity. Qed.

(** *** The PHP port

    The PHP client has a request format of its own: the network is the
    property [network] of the request itself, and its names are
    [mainnet-beta], [devnet] and [testnet]. *)

Module PHPFacts.
Lemma get_add_optional key s payload key' :
  key <> key' ->
  get_prop (PHP.add_optional key s payload) key' = get_prop payload key'.
Proof.
  intros Hne. unfold PHP.add_optional.
  destruct (PHP.empty s); [reflexivity|].
  apply get_prop_set_other, Hne.
Qed.

Lemma get_add_configured key s payload key' :
  key <> key' ->
  get_prop (PHP.add_configured key s payload) key' = get_prop payload key'.
Proof.
  intros Hne. unfold PHP.add_configured.
  destruct s; [|reflexivity].
  apply get_prop_set_other, Hne.
Qed.

(** A property that [createPaymentIntent] neither sets at the start nor
    adds later. *)
Lemma payload_get client params key :
  ~ In key [ str "reference"; str "label"; str "message"; str "memo";
             str "metadata"; str "facilitator_id"; str "facilitator_url" ] ->
  get_prop (PHP.createPaymentIntent_payload client params) key
  = get_prop
      [ (str "merchant_wallet", JStr (PHP.merchantWallet client));
        (str "amount",
           JNum (default (Num false 0 0) (PHP.amount params)));
        (str "token", JStr (default [] (PHP.token params)));
        (str "network", JStr (PHP.client_network client)) ] key.
Proof.
  intros Hk. unfold PHP.createPaymentIntent_payload.
  assert (Hne : forall k,
    In k [ str "reference"; str "label"; str "message"; str "memo";
           str "metadata"; str "facilitator_id"; str "facilitator_url" ] ->
    k <> key) by (intros k Hin ->; exact (Hk Hin)).
  rewrite !get_add_configured by (apply Hne; simpl; auto 10).
  destruct (PHP.metadata params) as [[|m ms]|];
    rewrite ?get_prop_set_other by (apply Hne; simpl; auto 10);
    rewrite !get_add_optional by (apply Hne; simpl; auto 10);
    reflexivity.
Qed.

Lemma construct_network config client :
  PHP.construct config = Ok client ->
  In (PHP.client_network client) PHP.validNetworks.
Proof.
  unfold PHP.construct. intros H.
  destruct (PHP.empty (PHP.api_base config)); [discriminate|].
  destruct (PHP.empty (PHP.merchant_wallet config)); [discriminate|].
  destruct (PHP.empty (PHP.network config)); [discriminate|].
  destruct (PHP.in_array _ _) eqn:Ein; [|discriminate].
  cbn in H. injection H as <-. cbn.
  unfold PHP.in_array in Ein. apply existsb_exists in Ein as (x & Hx & Ex).
  apply jsstring_eqb_eq in Ex. subst x. exact Hx.
Qed.
End PHPFacts.

(** Every request of the PHP client has the network of the client as
    its property [network], one of the three names. *)
Lemma php_request_network
  (config : PHP.Config) (client : PHP.Client) (params : PHP.Params)
  (doc : value) :
  PHP.construct config = Ok client ->
  PHP.pay_request client params = Ok doc ->
  member doc (str "network") = Some (JStr (PHP.client_network client))
  /\ In (PHP.client_network client) PHP.validNetworks.
Proof.
  intros Hc Hp. unfold PHP.pay_request in Hp.
  destruct (PHP.amount params) as [a|] eqn:Ea; [|discriminate].
  destruct (negb (PHP.positive_amount a)); [discriminate|].
  destruct (PHP.empty (PHP.token params)); [discriminate|].
  injection Hp as <-. cbn [member].
  rewrite !PHPFacts.payload_get
    by (vm_compute; intuition discriminate).
  split; [reflexivity|]. apply (PHPFacts.construct_network config), Hc.
Qed.

(** A request of the PHP client, in full. *)
Example php_request_devnet :
  PHP.construct (php_config (str "devnet")) = Ok php_client
  /\ PHP.pay_request php_client php_params
     = Ok (JObj [ (str "merchant_wallet", JStr (str "YOUR_WALLET_ADDRESS"));
                  (str "amount", JNum (decimal 10 0));
                  (str "token", JStr (str "SOL"));
                  (str "network", JStr (str "devnet"));
                  (str "facilitator_id",
                     JStr (str "facilitator.payai.network")) ]).
Proof. split; vm_compute; reflexivity. Qed.

(* ================================================================== *)
(** * Further properties of the verifier *)

Lemma delete_prop_set_other {A} (members : list (jsstring * A)) key key' v :
  key <> key' ->
  delete_prop (set_prop members key v) key'
  = set_prop (delete_prop members key') key v.
Proof.
  intros Hne. induction members as [|[k w] rest IH]; simpl.
  - apply jsstring_eqb_neq in Hne. rewrite Hne. reflexivity.
  - destruct (jsstring_eqb k key) eqn:E1.
    + apply jsstring_eqb_eq in E1. subst k. simpl.
      apply jsstring_eqb_neq in Hne. rewrite Hne. simpl.
      rewrite jsstring_eqb_refl. reflexivity.
    + simpl. destruct (jsstring_eqb k key') eqn:E2; [exact IH|].
      simpl. rewrite E1, IH. reflexivity.
Qed.

(** The value of [hash] is not part of what is serialized either. *)
Lemma canonical_receipt_set_hash members v :
  canonical_receipt (JObj (set_prop members (str "hash") v))
  = canonical_receipt (JObj members).
Proof.
  unfold canonical_receipt. cbn [spread].
  rewrite delete_prop_set_other
    by (intros E; apply sha256_hash_neq_hash; symmetry; exact E).
  rewrite delete_prop_set_same. reflexivity.
Qed.

Lemma truthy_digest doc : truthy (Some (JStr (digest doc))) = true.
Proof. apply sha256_hex_truthy. Qed.

Lemma legacy_verifies (members : list (jsstring * value)) (v : value) :
  get_prop members (str "sha256_hash") = None ->
  get_prop members (str "hash") = None ->
  truthy (Some v) = false ->
  let d := JStr (digest (JObj members)) in
  ok (verify_document (JObj (set_prop members (str "hash") d))) = true
  /\ ok (verify_document
           (JObj (set_prop (set_prop members (str "sha256_hash") v)
                           (str "hash") d))) = true.
Proof.
  intros Hs Hh Hv d.
  assert (Ht : truthy (Some d) = true) by apply truthy_digest.
  assert (Hne : str "hash" <> str "sha256_hash")
    by (intros E; apply sha256_hash_neq_hash; symmetry; exact E).
  split.
  - rewrite (verify_document_reported _ d).
    + cbn [ok]. unfold computeReceiptHash.
      rewrite canonical_receipt_set_hash,
        (canonical_receipt_plain members Hs Hh).
      unfold d. cbn [strict_eq_string]. apply jsstring_eqb_refl.
    + rewrite get_prop_set_other by exact Hne. rewrite Hs.
      rewrite get_prop_set_same. reflexivity.
    + exact Ht.
  - rewrite (verify_document_reported _ d).
    + cbn [ok]. unfold computeReceiptHash.
      rewrite canonical_receipt_set_hash, canonical_receipt_set,
        (canonical_receipt_plain members Hs Hh).
      unfold d. cbn [strict_eq_string]. apply jsstring_eqb_refl.
    + rewrite get_prop_set_other by exact Hne.
      rewrite !get_prop_set_same. unfold js_or. rewrite Hv. reflexivity.
    + exact Ht.
Qed.

(** The legacy name: a document without digest properties verifies with
    its digest under [hash], also when [sha256_hash] is there with a
    falsy value. *)
Theorem legacy_round_trip (members : list (jsstring * value)) (v : value) :
  get_prop members (str "sha256_hash") = None ->
  get_prop members (str "hash") = None ->
  truthy (Some v) = false ->
  let d := JStr (digest (JObj members)) in
  ok (verify_document (JObj (set_prop members (str "hash") d))) = true
  /\ ok (verify_document
           (JObj (set_prop (set_prop members (str "sha256_hash") v)
                           (str "hash") d))) = true.
Proof. exact (legacy_verifies members v). Qed.

Lemma legacy_round_trip_witness :
  ok (verify_document
        (JObj (set_prop doc_plain (str "hash")
                        (JStr (digest (JObj doc_plain)))))) = true.
Proof.
  apply (legacy_round_trip doc_plain JNull); reflexivity.
Defined.

(** A truthy [sha256_hash] decides alone: the verdict and both hashes of
    the result are the same whatever is stored under [hash]. *)
Theorem sha256_hash_takes_precedence
  (members : list (jsstring * value)) (reported v : value) :
  get_prop members (str "sha256_hash") = Some reported ->
  truthy (Some reported) = true ->
  let r := verify_document (JObj members) in
  let r' := verify_document (JObj (set_prop members (str "hash") v)) in
  ok r' = ok r
  /\ computed_hash r' = computed_hash r
  /\ reported_hash r' = reported_hash r
  /\ reported_hash r = reported.
Proof.
  intros Hs Ht r r'. unfold r, r'.
  assert (Hne : str "hash" <> str "sha256_hash")
    by (intros E; apply sha256_hash_neq_hash; symmetry; exact E).
  rewrite (verify_document_reported members reported);
    [|rewrite Hs; unfold js_or; rewrite Ht; reflexivity|exact Ht].
  rewrite (verify_document_reported _ reported);
    [|rewrite get_prop_set_other by exact Hne; rewrite Hs; unfold js_or;
      rewrite Ht; reflexivity|exact Ht].
  cbn [ok computed_hash reported_hash]. unfold computeReceiptHash.
  rewrite canonical_receipt_set_hash. auto.
Qed.

Lemma sha256_hash_takes_precedence_witness :
  ok (verify_document (JObj (set_prop doc_both (str "hash") (JStr (str "stale")))))
  = ok (verify_document (JObj doc_both)).
Proof.
  apply (sha256_hash_takes_precedence doc_both _ (JStr (str "stale")) eq_refl).
  reflexivity.
Defined.

Lemma verifyReceipt_shape (fetched : fetch_outcome) :
  let r := verifyReceipt fetched in
  (exists message,
      r = {| ok := false; computed_hash := []; reported_hash := JStr [];
             receipt := None; error := Some message |})
  \/ (error r = None
      /\ length (computed_hash r) = 64%nat
      /\ truthy (Some (reported_hash r)) = true
      /\ (ok r = true <-> reported_hash r = JStr (computed_hash r))
      /\ exists statusText members,
           fetched = Response true statusText (Json (JObj members))
           /\ receipt r = Some (JObj members)
           /\ computed_hash r = computeReceiptHash (JObj members)
           /\ js_or (get_prop members (str "sha256_hash"))
                    (get_prop members (str "hash"))
              = Some (reported_hash r)).
Proof.
  intros r. unfold r.
  destruct fetched as [message|[|] statusText [message|doc]];
    try (left; eexists; reflexivity).
  cbn [verifyReceipt].
  destruct doc as [|b|n|s|items|members|neg];
    try (left; eexists; reflexivity).
  destruct (js_or (get_prop members (str "sha256_hash"))
                  (get_prop members (str "hash"))) as [reported|] eqn:Ej.
  - destruct (truthy (Some reported)) eqn:Et.
    + right. rewrite (verify_document_reported members reported Ej Et).
      cbn [error computed_hash reported_hash ok receipt].
      split; [reflexivity|]. split; [apply sha256_hex_length|].
      split; [exact Et|]. split.
      * unfold strict_eq_string.
        destruct reported as [| | |t| | |];
          try (split; discriminate).
        rewrite jsstring_eqb_eq. split; [intros ->; reflexivity|].
        intros E. injection E as ->. reflexivity.
      * exists statusText, members. auto.
    + left. eexists. apply verify_document_unreported.
      rewrite Ej. exact Et.
  - left. eexists. apply verify_document_unreported. rewrite Ej. reflexivity.
Qed.

(** The result has one of two shapes: the error result, or a result with
    the receipt and a computed hash of 64 characters, where [ok] says
    whether the reported value is that very string. *)
Theorem verifyReceipt_result_shape (fetched : fetch_outcome) :
  let r := verifyReceipt fetched in
  (exists message,
      r = {| ok := false; computed_hash := []; reported_hash := JStr [];
             receipt := None; error := Some message |})
  \/ (error r = None
      /\ length (computed_hash r) = 64%nat
      /\ truthy (Some (reported_hash r)) = true
      /\ (ok r = true <-> reported_hash r = JStr (computed_hash r))
      /\ exists statusText members,
           fetched = Response true statusText (Json (JObj members))
           /\ receipt r = Some (JObj members)
           /\ computed_hash r = computeReceiptHash (JObj members)
           /\ js_or (get_prop members (str "sha256_hash"))
                    (get_prop members (str "hash"))
              = Some (reported_hash r)).
Proof. exact (verifyReceipt_shape fetched). Qed.

(** [ok] is true only for a receipt that was fetched, is an object, and
    reports, under [sha256_hash] or else under [hash], the string that is
    the SHA-256 of its canonical form without those two properties. *)
Theorem verifyReceipt_ok_sound (fetched : fetch_outcome) :
  ok (verifyReceipt fetched) = true ->
  exists statusText members,
    fetched = Response true statusText (Json (JObj members))
    /\ js_or (get_prop members (str "sha256_hash"))
             (get_prop members (str "hash"))
       = Some (JStr (sha256_hex (canonicalJSON
                 (JObj (delete_prop (delete_prop members (str "sha256_hash"))
                                    (str "hash")))))).
Proof.
  intros Hok.
  destruct (verifyReceipt_shape fetched)
    as [[message Hr]|(_ & _ & _ & Hdec & st & members & Hf & _ & Hc & Hj)].
  - rewrite Hr in Hok. discriminate.
  - exists st, members. split; [exact Hf|].
    apply Hdec in Hok. rewrite Hj, Hok, Hc. reflexivity.
Qed.

Lemma verifyReceipt_ok_sound_witness :
  exists statusText members,
    Response true (str "OK") (Json (JObj doc_both))
    = Response true statusText (Json (JObj members)).
Proof.
  destruct (verifyReceipt_ok_sound
              (Response true (str "OK") (Json (JObj doc_both))))
    as (st & ms & Hf & _).
  - vm_compute. reflexivity.
  - exists st, ms. exact Hf.
Defined.

(** A document that is not an object never verifies: the result is the
    error result. *)
Theorem verify_document_not_object (doc : value) :
  (forall members, doc <> JObj members) ->
  exists message, verify_document doc = failure message.
Proof.
  intros Hno. destruct doc as [|b|n|s|items|members|neg];
    try (eexists; reflexivity).
  exfalso. exact (Hno members eq_refl).
Qed.

Lemma verify_document_not_object_witness :
  exists message,
    verify_document (JArr [JObj doc_both]) = failure message.
Proof.
  apply verify_document_not_object. intros members. discriminate.
Defined.

(** The manual verification reads [sha256_hash] only: a receipt that
    reports its digest under [hash] alone fails it, and verifies with the
    client. *)
Theorem manual_ignores_legacy_name (members : list (jsstring * value)) :
  get_prop members (str "sha256_hash") = None ->
  get_prop members (str "hash") = None ->
  let doc :=
    JObj (set_prop members (str "hash") (JStr (digest (JObj members)))) in
  Manual.verifyReceipt doc = Some false
  /\ ok (verify_document doc) = true.
Proof.
  intros Hs Hh doc. split.
  - unfold doc, Manual.verifyReceipt. cbn [member].
    rewrite get_prop_set_other
      by (intros E; apply sha256_hash_neq_hash; symmetry; exact E).
    rewrite Hs. reflexivity.
  - apply (legacy_verifies members JNull Hs Hh eq_refl).
Qed.

Lemma manual_ignores_legacy_name_witness :
  Manual.verifyReceipt
    (JObj (set_prop doc_plain (str "hash") (JStr (digest (JObj doc_plain)))))
  = Some false.
Proof.
  apply (manual_ignores_legacy_name doc_plain); reflexivity.
Defined.

Lemma manual_verifyReceipt_agrees_witness :
  Manual.verifyReceipt (JObj doc_both)
  = Some (ok (verify_document (JObj doc_both))).
Proof.
  apply (manual_verifyReceipt_agrees doc_both
           (str "a8b88b82fe90a16048eb8851fe382405395cd395dafaa7ca9be90ec00f82a72b"));
    [reflexivity|discriminate].
Defined.

(* ================================================================== *)
(** * The calls of the client *)

(** The constructor makes a client exactly from a configuration with an
    API base, a merchant wallet and a network that are not empty; the
    client has these three as given and, for what the configuration
    leaves out, the defaults. *)
Theorem new_SolPayX402_accepts
  (config : SolPayX402Config) (client : SolPayX402) :
  new_SolPayX402 config = Ok client
  <-> (apiBase config = Some (cfg_apiBase client)
       /\ cfg_apiBase client <> []
       /\ merchantWallet config = Some (cfg_merchantWallet client)
       /\ cfg_merchantWallet client <> []
       /\ network config = Some (cfg_network client)
       /\ cfg_network client <> []
       /\ cfg_facilitatorId client
          = default (str "facilitator.payai.network") (facilitatorId config)
       /\ cfg_facilitatorUrl client
          = default (str "https://facilitator.payai.network")
                    (facilitatorUrl config)
       /\ cfg_apiKey client = default [] (apiKey config)
       /\ cfg_debug client = default false (debug config)).
Proof.
  unfold new_SolPayX402. split.
  - destruct (apiBase config) as [[|c1 a]|]; cbn; try discriminate.
    destruct (merchantWallet config) as [[|c2 m]|]; cbn; try discriminate.
    destruct (network config) as [[|c3 n]|]; cbn; try discriminate.
    intros E. injection E as <-. cbn.
    repeat split; discriminate.
  - intros (Ha & Ha' & Hm & Hm' & Hn & Hn' & Hf & Hu & Hk & Hd).
    rewrite Ha, Hm, Hn.
    destruct (cfg_apiBase client) eqn:E1; [contradiction|].
    destruct (cfg_merchantWallet client) eqn:E2; [contradiction|].
    destruct (cfg_network client) eqn:E3; [contradiction|].
    cbn. rewrite <- Hf, <- Hu, <- Hk, <- Hd, <- E1, <- E2, <- E3.
    destruct client; reflexivity.
Qed.

(** The configuration that is refused, and with which message: the first
    of the three that is missing or empty. *)
Theorem new_SolPayX402_refuses (config : SolPayX402Config) :
  present (apiBase config) && present (merchantWallet config)
  && present (network config) = false ->
  new_SolPayX402 config
  = Err (if negb (present (apiBase config)) then str "apiBase is required"
         else if negb (present (merchantWallet config))
              then str "merchantWallet is required"
              else str "network is required").
Proof.
  unfold new_SolPayX402.
  destruct (present (apiBase config)), (present (merchantWallet config)),
    (present (network config)); cbn; intros H; try discriminate; reflexivity.
Qed.

Lemma new_SolPayX402_refuses_witness :
  new_SolPayX402
    {| apiBase := Some (str "https://www.solpay.cash");
       merchantWallet := Some [];
       network := None;
       facilitatorId := None; facilitatorUrl := None; apiKey := None;
       debug := None |}
  = Err (str "merchantWallet is required").
Proof.
  apply (new_SolPayX402_refuses
           {| apiBase := Some (str "https://www.solpay.cash");
              merchantWallet := Some [];
              network := None;
              facilitatorId := None; facilitatorUrl := None; apiKey := None;
              debug := None |}).
  reflexivity.
Defined.

Lemma new_SolPayX402_accepts_witness :
  new_SolPayX402 config_devnet = Ok client_devnet.
Proof.
  apply (new_SolPayX402_accepts config_devnet client_devnet).
  repeat split; discriminate.
Defined.

(** The metadata of every request names the SDK and its version, whatever
    the caller puts under these two keys, and has every other property of
    the caller with its value. *)
Theorem request_metadata_tags (client : SolPayX402) (params : PayParams) :
  exists md,
    member (createPaymentIntent_request client params) (str "metadata")
    = Some (JObj md)
    /\ get_prop md (str "sdk") = Some (JStr (str "@solpay/x402-sdk"))
    /\ get_prop md (str "sdk_version") = Some (JStr (str "1.0.0"))
    /\ forall key,
         key <> str "sdk" -> key <> str "sdk_version" ->
         get_prop md key = get_prop (default [] (metadata params)) key.
Proof.
  eexists. split.
  - unfold createPaymentIntent_request, createPaymentIntent_body.
    destruct (customerEmail params), (successUrl params), (cancelUrl params);
      reflexivity.
  - split; [|split].
    + rewrite get_prop_set_other by (vm_compute; discriminate).
      apply get_prop_set_same.
    + apply get_prop_set_same.
    + intros key H1 H2.
      rewrite !get_prop_set_other by (intros E; symmetry in E; contradiction).
      reflexivity.
Qed.

(** A request has the properties [customer_email], [success_url] and
    [cancel_url] exactly when the caller gives them. *)
Theorem request_optional_properties (client : SolPayX402) (params : PayParams) :
  let doc := createPaymentIntent_request client params in
  member doc (str "customer_email") = opt_str (customerEmail params)
  /\ member doc (str "success_url") = opt_str (successUrl params)
  /\ member doc (str "cancel_url") = opt_str (cancelUrl params)
  /\ member doc (str "amount") = Some (JNum (amount params))
  /\ member doc (str "asset") = Some (JStr (asset params))
  /\ member doc (str "merchant_wallet")
     = Some (JStr (cfg_merchantWallet client)).
Proof.
  unfold createPaymentIntent_request, createPaymentIntent_body.
  destruct (customerEmail params), (successUrl params), (cancelUrl params);
    repeat split; reflexivity.
Qed.

(** The resource named in the request is the address it is posted to. *)
Lemma request_resource (client : SolPayX402) (params : PayParams) :
  path2 (createPaymentIntent_request client params)
        (str "x402_context") (str "resource")
  = Some (JStr (req_url (createPaymentIntent_call client params))).
Proof.
  unfold createPaymentIntent_request, createPaymentIntent_body.
  destruct (customerEmail params), (successUrl params), (cancelUrl params);
    reflexivity.
Qed.

(** The three calls send the API key as a bearer token when the client
    has one, and no [Authorization] header when it has none. *)
Theorem authorization_header
  (client : SolPayX402) (params : PayParams) (intentId signature : jsstring) :
  let expected :=
    match cfg_apiKey client with
    | [] => None
    | _ :: _ => Some (str "Bearer " ++ cfg_apiKey client)
    end in
  get_prop (req_headers (createPaymentIntent_call client params))
           (str "Authorization") = expected
  /\ get_prop (req_headers (confirmPayment_call client intentId signature))
              (str "Authorization") = expected
  /\ get_prop (req_headers (getPaymentIntent_call client intentId))
              (str "Authorization") = expected.
Proof.
  cbn [createPaymentIntent_call confirmPayment_call getPaymentIntent_call
       req_headers].
  unfold with_authorization.
  destruct (cfg_apiKey client) as [|c key]; repeat split; reflexivity.
Qed.

(** A call returns the parsed body exactly for a response with a status
    from 200 to 299 and a body that is JSON. *)
Theorem api_json_returns (fetched : api_outcome) (v : value) :
  api_json fetched = Ok v
  <-> exists status statusText,
        fetched = ApiResponse status statusText (Json v)
        /\ (200 <= status <= 299)%N.
Proof.
  unfold api_json, status_ok. split.
  - destruct fetched as [m|status statusText body]; [discriminate|].
    destruct (N.leb_spec 200 status), (N.leb_spec status 299);
      cbn; try discriminate.
    destruct body as [m|w]; [discriminate|].
    intros E. injection E as ->. exists status, statusText.
    split; [reflexivity|lia].
  - intros (status & statusText & -> & H1 & H2).
    destruct (N.leb_spec 200 status), (N.leb_spec status 299);
      try lia. reflexivity.
Qed.

(** The message for a response that is not ok: the [error] of the body
    when the body is an object with a string there that is not empty; the
    status line when the body is an object without a truthy [error]; and
    [Unknown error], whatever the status, when the body is not JSON. *)
Theorem api_json_error (status : N) (statusText : jsstring) :
  status_ok status = false ->
  (forall message,
      api_json (ApiResponse status statusText (BadJson message))
      = Err (str "Unknown error"))
  /\ (forall members e,
        get_prop members (str "error") = Some (JStr e) -> e <> [] ->
        api_json (ApiResponse status statusText (Json (JObj members)))
        = Err e)
  /\ (forall members,
        truthy (get_prop members (str "error")) = false ->
        api_json (ApiResponse status statusText (Json (JObj members)))
        = Err (str "HTTP " ++ decimal_digits status ++ str ": "
               ++ statusText)).
Proof.
  intros Hs. unfold api_json. rewrite Hs. cbn [negb].
  split; [reflexivity|]. split.
  - intros members e He Hne. unfold http_error_message. cbn [error_data member].
    rewrite He. unfold js_or_else.
    assert (Ht : truthy (Some (JStr e)) = true).
    { cbn. apply jsstring_eqb_neq in Hne. rewrite Hne. reflexivity. }
    rewrite Ht. reflexivity.
  - intros members Ht. unfold http_error_message. cbn [error_data member].
    unfold js_or_else. destruct (get_prop members (str "error"));
      [rewrite Ht|]; reflexivity.
Qed.

Lemma api_json_error_witness :
  api_json (ApiResponse 404 (str "Not Found") (Json (JObj [])))
  = Err (str "HTTP 404: Not Found").
Proof.
  apply (api_json_error 404 (str "Not Found") eq_refl). reflexivity.
Defined.

Lemma all_ok_map_Ok {A B} (f : A -> result B) (l : list A) :
  (exists ys, all_ok (map f l) = Ok ys)
  <-> Forall (fun x => exists y, f x = Ok y) l.
Proof.
  induction l as [|x l IH]; cbn [map all_ok].
  - split; [constructor|eauto].
  - split.
    + intros (ys & H). destruct (f x) as [y|m] eqn:Ex; [|discriminate H].
      destruct (all_ok (map f l)) as [others|m] eqn:El; [|discriminate H].
      constructor; [eauto|]. apply IH. eauto.
    + intros H. apply Forall_cons in H as [(y & ->) Hl].
      apply IH in Hl as (others & ->). eauto.
Qed.

(** [String] has a text exactly for the values without an object that
    has an own property [toString], alone or as an element of arrays;
    for the others it throws. *)
Lemma to_string_ok v : has_string v = true <-> exists t, to_string v = Ok t.
Proof.
  induction v as [|[|]|n|s|items IH|members IH|[|]] using value_nested_ind;
    try (split; [intros _; eexists; reflexivity|reflexivity]).
  - cbn [has_string to_string]. rewrite forallb_forall.
    rewrite List.Forall_forall in IH. split.
    + intros H.
      destruct (proj2 (all_ok_map_Ok
                  (fun x => match x with
                            | JNull => Ok []
                            | _ => to_string x
                            end) items)) as (ys & ->); [|eauto].
      apply List.Forall_forall. intros x Hx.
      destruct x; try (apply (IH _ Hx), H, Hx); eauto.
    + intros (t & H).
      destruct (all_ok _) as [ys|m] eqn:E; [|discriminate H].
      assert (Hall := proj1 (all_ok_map_Ok _ items) (ex_intro _ ys E)).
      rewrite List.Forall_forall in Hall. intros x Hx.
      specialize (Hall x Hx). destruct x; try reflexivity;
        apply (IH _ Hx); exact Hall.
  - cbn [has_string to_string].
    destruct (get_prop members (str "toString")); split;
      try discriminate; eauto.
    intros (t & H). discriminate H.
Qed.

(** What [pay] returns it made from a response with a status from 200 to
    299, a JSON body other than [null] and a payment URL. *)
Lemma pay_inv (client : SolPayX402) (params : PayParams)
  (fetched : api_outcome) (r : PayResult) :
  pay client params fetched = Ok r ->
  exists status statusText intent url,
    fetched = ApiResponse status statusText (Json intent)
    /\ (200 <= status <= 299)%N
    /\ intent <> JNull
    /\ payment_url client intent = Ok url
    /\ pr_paymentUrl r = url
    /\ pr_receipt r = receipt_info intent.
Proof.
  unfold pay. intros Hr.
  destruct (api_json fetched) as [intent|m] eqn:Ej; [|discriminate].
  apply api_json_returns in Ej as (status & statusText & -> & Hs).
  assert (Hn : intent <> JNull) by (intros ->; discriminate Hr).
  destruct (payment_url client intent) as [url|m] eqn:Eu;
    [|destruct intent; discriminate Hr].
  exists status, statusText, intent, url.
  repeat split; try lia; try assumption;
    destruct intent; try contradiction; injection Hr as <-; reflexivity.
Qed.

Lemma payment_url_ok (client : SolPayX402) (intent : value) :
  (exists url, payment_url client intent = Ok url)
  <-> (truthy (member intent (str "payment_url")) = true
       \/ member intent (str "id") = None
       \/ exists id, member intent (str "id") = Some id
                     /\ has_string id = true).
Proof.
  unfold payment_url.
  destruct (truthy (member intent (str "payment_url"))) eqn:Et.
  - split; [auto|eauto].
  - destruct (member intent (str "id")) as [id|] eqn:Ei; cbn [to_string_opt].
    + split.
      * intros (url & H). right. right. exists id. split; [reflexivity|].
        apply to_string_ok. destruct (to_string id); [eauto|discriminate H].
      * intros [H|[H|(id' & H & Hs)]]; try discriminate.
        injection H as <-. apply to_string_ok in Hs as (t & ->). eauto.
    + split; [auto|eauto].
Qed.

(** [pay] returns a result exactly when the service answers with a status
    from 200 to 299 and a JSON body other than [null], and the payment
    URL has a text: the answer has a truthy [payment_url], or no [id], or
    an [id] that [String] has a text for.  In every other case it
    throws. *)
Theorem pay_returns (client : SolPayX402) (params : PayParams)
  (fetched : api_outcome) :
  (exists r, pay client params fetched = Ok r)
  <-> exists status statusText intent,
        fetched = ApiResponse status statusText (Json intent)
        /\ (200 <= status <= 299)%N
        /\ intent <> JNull
        /\ (truthy (member intent (str "payment_url")) = true
            \/ member intent (str "id") = None
            \/ exists id, member intent (str "id") = Some id
                          /\ has_string id = true).
Proof.
  split.
  - intros (r & Hr).
    destruct (pay_inv _ _ _ _ Hr)
      as (status & statusText & intent & url & Hf & Hs & Hn & Hu & _).
    exists status, statusText, intent. repeat split; try assumption; try lia.
    apply (payment_url_ok client). eauto.
  - intros (status & statusText & intent & -> & Hs & Hn & Hu).
    apply (payment_url_ok client) in Hu as (url & Hu).
    assert (Ej : api_json (ApiResponse status statusText (Json intent))
                 = Ok intent)
      by (apply api_json_returns; eauto).
    unfold pay. rewrite Ej, Hu.
    destruct intent; try contradiction; eexists; reflexivity.
Qed.

(** An answer whose [id] is an object with an own property [toString]
    makes [pay] throw, although the status is 200. *)
Lemma pay_id_without_string :
  pay client_devnet params_usdc
      (ApiResponse 200 (str "OK")
         (Json (JObj [ (str "id", JObj [ (str "toString", num 1) ]) ])))
  = Err (str "Cannot convert object to primitive value").
Proof. vm_compute. reflexivity. Qed.

Lemma checkout_url_truthy (base id : jsstring) :
  truthy (Some (JStr (base ++ str "/checkout/" ++ id))) = true.
Proof.
  cbn. destruct (base ++ str "/checkout/" ++ id) eqn:E; [|reflexivity].
  apply app_eq_nil in E as [_ E]. discriminate.
Qed.

(** The payment URL of a result is never empty or missing: it is the
    [payment_url] of the answer when that is truthy, and otherwise the
    checkout address made from the API base and the [id] of the answer,
    which ends in [undefined] when the answer has no [id]. *)
Theorem pay_payment_url (client : SolPayX402) (params : PayParams)
  (fetched : api_outcome) (r : PayResult) :
  pay client params fetched = Ok r ->
  exists status statusText intent,
    fetched = ApiResponse status statusText (Json intent)
    /\ truthy (Some (pr_paymentUrl r)) = true
    /\ (truthy (member intent (str "payment_url")) = true ->
        member intent (str "payment_url") = Some (pr_paymentUrl r))
    /\ (truthy (member intent (str "payment_url")) = false ->
        exists id,
          to_string_opt (member intent (str "id")) = Ok id
          /\ pr_paymentUrl r
             = JStr (cfg_apiBase client ++ str "/checkout/" ++ id))
    /\ (truthy (member intent (str "payment_url")) = false ->
        member intent (str "id") = None ->
        pr_paymentUrl r
        = JStr (cfg_apiBase client ++ str "/checkout/undefined")).
Proof.
  intros Hr.
  destruct (pay_inv _ _ _ _ Hr)
    as (status & statusText & intent & url & Hf & Hs & Hn & Hu & Hp & _).
  exists status, statusText, intent. split; [exact Hf|].
  rewrite Hp. unfold payment_url in Hu.
  destruct (truthy (member intent (str "payment_url"))) eqn:Et.
  - injection Hu as <-.
    destruct (member intent (str "payment_url")) as [x|];
      [|discriminate Et].
    cbn [default]. unfold id. repeat split; try discriminate; auto.
  - destruct (to_string_opt (member intent (str "id"))) as [id|m] eqn:Ei;
      [|discriminate Hu].
    injection Hu as <-. split; [apply checkout_url_truthy|].
    split; [discriminate|]. split; [eauto|].
    intros _ Hid. rewrite Hid in Ei. injection Ei as <-. reflexivity.
Qed.

(** The example answer of a service that names nothing. *)
Lemma pay_payment_url_witness :
  exists r,
    pay client_devnet params_usdc
        (ApiResponse 200 (str "OK") (Json (JObj []))) = Ok r
    /\ pr_paymentUrl r
       = JStr (str "https://www.solpay.cash/checkout/undefined").
Proof.
  eexists. split; [reflexivity|].
  destruct (pay_payment_url client_devnet params_usdc
              (ApiResponse 200 (str "OK") (Json (JObj []))) _ eq_refl)
    as (status & statusText & intent & Hf & _ & _ & _ & Hu).
  injection Hf as <- <- <-.
  exact (Hu eq_refl eq_refl).
Defined.

(** Amounts that the answer leaves out, or gives as zero, are replaced
    in a result: in [pay] the total and the net by the amount asked for
    and the fees by zero, in [confirmPayment] all four by zero.  There is
    a result when the payment URL has a text. *)
Theorem amounts_fall_back (client : SolPayX402) (params : PayParams)
  (status : N) (statusText : jsstring) (members : list (jsstring * value))
  (url : value) :
  (200 <= status <= 299)%N ->
  payment_url client (JObj members) = Ok url ->
  truthy (get_prop members (str "amount_requested")) = false ->
  truthy (get_prop members (str "amount_required")) = false ->
  truthy (get_prop members (str "fees_total")) = false ->
  truthy (get_prop members (str "merchant_receives")) = false ->
  let fetched := ApiResponse status statusText (Json (JObj members)) in
  (exists r, pay client params fetched = Ok r
             /\ pr_amount r
                = {| requested := JNum (amount params);
                     total := JNum (amount params);
                     fees := zero;
                     net := JNum (amount params) |})
  /\ (exists r, confirmPayment client fetched = Ok r
                /\ pr_amount r
                   = {| requested := zero; total := zero;
                        fees := zero; net := zero |}).
Proof.
  intros Hs Hu H1 H2 H3 H4 fetched.
  assert (Ej : api_json fetched = Ok (JObj members))
    by (apply api_json_returns; eauto).
  assert (Hor : forall key b,
             truthy (get_prop members key) = false ->
             js_or_else (get_prop members key) b = b).
  { intros key b Hf. unfold js_or_else.
    destruct (get_prop members key); [rewrite Hf|]; reflexivity. }
  split; eexists;
    (split; [unfold pay, confirmPayment; rewrite Ej, Hu; reflexivity|]);
    cbn [pr_amount member]; rewrite ?Hor by assumption; reflexivity.
Qed.

Lemma amounts_fall_back_witness :
  exists r,
    pay client_devnet params_usdc
        (ApiResponse 201 (str "Created")
           (Json (JObj [ (str "id", JStr (str "pi_1"));
                         (str "merchant_receives", num 0) ]))) = Ok r
    /\ net (pr_amount r) = JNum (decimal 10 0).
Proof.
  destruct (amounts_fall_back client_devnet params_usdc 201 (str "Created")
              [ (str "id", JStr (str "pi_1"));
                (str "merchant_receives", num 0) ]
              (JStr (str "https://www.solpay.cash/checkout/pi_1")))
    as [(r & Hr & Ha) _]; try reflexivity; [lia|].
  exists r. split; [exact Hr|]. rewrite Ha. reflexivity.
Defined.

(** The receipt of a result has, as its hash, the [sha256_hash] of the
    receipt of the answer; a receipt that names its digest [hash] has no
    hash in the result. *)
Theorem pay_receipt_hash (client : SolPayX402) (params : PayParams)
  (fetched : api_outcome) (r : PayResult) :
  pay client params fetched = Ok r ->
  exists status statusText intent,
    fetched = ApiResponse status statusText (Json intent)
    /\ (truthy (member intent (str "receipt")) = false ->
        pr_receipt r = None)
    /\ (forall rm,
          member intent (str "receipt") = Some (JObj rm) ->
          exists info,
            pr_receipt r = Some info
            /\ receipt_hash info = get_prop rm (str "sha256_hash")).
Proof.
  intros Hr.
  destruct (pay_inv _ _ _ _ Hr)
    as (status & statusText & intent & url & Hf & Hs & Hn & _ & _ & Hu).
  exists status, statusText, intent. split; [exact Hf|].
  rewrite Hu. unfold receipt_info. split.
  - intros Hf'. destruct (member intent (str "receipt")); [rewrite Hf'|];
      reflexivity.
  - intros rm Hm. rewrite Hm. cbn. eexists. split; reflexivity.
Qed.

Lemma pay_receipt_hash_witness :
  exists r info,
    pay client_devnet params_usdc
        (ApiResponse 200 (str "OK")
           (Json (JObj [ (str "receipt", JObj doc_legacy) ]))) = Ok r
    /\ pr_receipt r = Some info
    /\ receipt_hash info = None.
Proof.
  eexists.
  destruct (pay_receipt_hash client_devnet params_usdc
              (ApiResponse 200 (str "OK")
                 (Json (JObj [ (str "receipt", JObj doc_legacy) ]))) _ eq_refl)
    as (status & statusText & intent & Hf & _ & Hm).
  injection Hf as <- <- <-.
  destruct (Hm doc_legacy eq_refl) as (info & Hi & Hh).
  exists info. split; [reflexivity|]. split; [exact Hi|exact Hh].
Defined.

(* ================================================================== *)
(** * Webhook signatures *)

Lemma be_bytes_length n x : length (Sha256.be_bytes n x) = n.
Proof.
  revert x. induction n as [|n IH]; intros x; [reflexivity|].
  cbn [Sha256.be_bytes]. rewrite List.length_app, IH. simpl. lia.
Qed.

Lemma be_bytes_small n x : Forall (fun b => (b < 256)%N) (Sha256.be_bytes n x).
Proof.
  revert x. induction n as [|n IH]; intros x; [constructor|].
  cbn [Sha256.be_bytes]. apply Forall_app. split; [apply IH|].
  constructor; [|constructor].
  change 255%N with (N.ones 8). rewrite N.land_ones.
  apply N.mod_lt. discriminate.
Qed.

Lemma digest_bytes_small msg :
  Forall (fun b => (b < 256)%N) (Hmac.digest_bytes msg).
Proof.
  unfold Hmac.digest_bytes.
  induction (Sha256.digest_words msg) as [|w ws IH]; [constructor|].
  change (flat_map (Sha256.be_bytes 4) (w :: ws))
    with (Sha256.be_bytes 4 w ++ flat_map (Sha256.be_bytes 4) ws).
  apply Forall_app. split; [apply be_bytes_small|exact IH].
Qed.

Lemma digest_bytes_length msg : length (Hmac.digest_bytes msg) = 32%nat.
Proof.
  unfold Hmac.digest_bytes.
  pose proof (digest_words_length msg) as H.
  revert H. generalize (Sha256.digest_words msg) as ws.
  assert (G : forall ws : list N,
             length (flat_map (Sha256.be_bytes 4) ws) = (4 * length ws)%nat).
  { induction ws as [|w ws IH]; [reflexivity|].
    change (flat_map (Sha256.be_bytes 4) (w :: ws))
      with (Sha256.be_bytes 4 w ++ flat_map (Sha256.be_bytes 4) ws).
    rewrite List.length_app, be_bytes_length, IH. simpl. lia. }
  intros ws H. rewrite G, H. reflexivity.
Qed.

Lemma unhex_hex_digit d : (d < 16)%N -> unhex (hex_digit d) = Some d.
Proof.
  intros Hd. unfold unhex.
  assert (Hlow : N.land (hex_digit d) 0xFF = hex_digit d).
  { change 0xFF%N with (N.ones 8). rewrite N.land_ones.
    apply N.mod_small. unfold hex_digit.
    destruct (N.ltb_spec d 10); change (2 ^ 8)%N with 256%N; lia. }
  rewrite Hlow. unfold hex_digit, unhex_byte.
  destruct (N.ltb_spec d 10).
  - replace ((48 <=? 48 + d) && (48 + d <=? 57))%N with true.
    + f_equal. lia.
    + symmetry. apply andb_true_intro. split; apply N.leb_le; lia.
  - replace ((48 <=? 87 + d) && (87 + d <=? 57))%N with false.
    + replace ((97 <=? 87 + d) && (87 + d <=? 102))%N with true.
      * f_equal. lia.
      * symmetry. apply andb_true_intro. split; apply N.leb_le; lia.
    + symmetry. apply andb_false_intro2. apply N.leb_gt. lia.
Qed.

Lemma hex_fixed_2 b :
  hex_fixed 2 b
  = [hex_digit (N.land (N.shiftr b 4) 15); hex_digit (N.land b 15)].
Proof. reflexivity. Qed.

Lemma nibbles b :
  (b < 256)%N ->
  (N.land (N.shiftr b 4) 15 < 16
   /\ N.land b 15 < 16
   /\ 16 * N.land (N.shiftr b 4) 15 + N.land b 15 = b)%N.
Proof.
  intros Hb. change 15%N with (N.ones 4). rewrite !N.land_ones.
  rewrite N.shiftr_div_pow2. change (2 ^ 4)%N with 16%N.
  assert (b / 16 < 16)%N by (apply N.Div0.div_lt_upper_bound; lia).
  rewrite (N.mod_small (b / 16) 16) by assumption.
  split; [assumption|]. split; [apply N.mod_lt; discriminate|].
  symmetry. apply N.div_mod. discriminate.
Qed.

(** Decoding goes through what was encoded and on into the rest. *)
Lemma hex_decode_encode bytes rest :
  Forall (fun b => (b < 256)%N) bytes ->
  hex_decode (hex_encode bytes ++ rest) = bytes ++ hex_decode rest.
Proof.
  induction 1 as [|b bytes Hb Hall IH]; [reflexivity|].
  unfold hex_encode.
  change (flat_map (hex_fixed 2) (b :: bytes))
    with (hex_fixed 2 b ++ hex_encode bytes).
  rewrite hex_fixed_2. cbn [app hex_decode].
  destruct (nibbles b Hb) as (H1 & H2 & H3).
  rewrite (unhex_hex_digit _ H1), (unhex_hex_digit _ H2), H3, IH.
  reflexivity.
Qed.

Lemma hmac_small key msg :
  Forall (fun b => (b < 256)%N) (Hmac.hmac_sha256 key msg).
Proof. apply digest_bytes_small. Qed.

Lemma hmac_length key msg : length (Hmac.hmac_sha256 key msg) = 32%nat.
Proof. apply digest_bytes_length. Qed.

Lemma expected_signature_bytes secret payload :
  hex_decode (hmac_hex secret payload)
  = Hmac.hmac_sha256 (utf8_encode secret) (utf8_encode payload).
Proof.
  unfold hmac_hex.
  pose proof (hex_decode_encode
                (Hmac.hmac_sha256 (utf8_encode secret) (utf8_encode payload))
                [] (hmac_small _ _)) as H.
  rewrite !List.app_nil_r in H. exact H.
Qed.

(** What the verification does with a signature: it decodes the pairs of
    hexadecimal digits the signature starts with; with 32 bytes decoded
    it says whether they are the HMAC-SHA256 of the payload under the
    secret, and with any other number it throws. *)
Theorem verifyWebhookSignature_result (payload signature secret : jsstring) :
  verifyWebhookSignature payload signature secret
  = if (length (hex_decode signature) =? 32)%nat
    then Ok (bool_decide
               (hex_decode signature
                = Hmac.hmac_sha256 (utf8_encode secret) (utf8_encode payload)))
    else Err (str "Input buffers must have the same byte length").
Proof.
  unfold verifyWebhookSignature, timingSafeEqual.
  rewrite expected_signature_bytes, hmac_length.
  destruct (length (hex_decode signature) =? 32)%nat; reflexivity.
Qed.

(** The signature that the sender computes is accepted. *)
Theorem webhook_signature_accepted (payload secret : jsstring) :
  verifyWebhookSignature payload (hmac_hex secret payload) secret = Ok true.
Proof.
  rewrite verifyWebhookSignature_result, expected_signature_bytes, hmac_length.
  cbn. f_equal. apply bool_decide_eq_true. reflexivity.
Qed.

(** Of a character after the signature the decoder reads the low byte:
    the right signature followed by two U+0131, each read as the digit
    [1], has 33 bytes, and the verification throws. *)
Lemma webhook_signature_low_byte :
  hex_decode [0x131; 0x131]%N = [0x11]%N
  /\ verifyWebhookSignature (str "{}")
       (hmac_hex (str "secret") (str "{}") ++ [0x131; 0x131]%N)
       (str "secret")
     = Err (str "Input buffers must have the same byte length").
Proof. split; vm_compute; reflexivity. Qed.

(** A signature that does not start with 64 hexadecimal digits, the empty
    one included, makes the verification throw; it does not return
    false. *)
Theorem webhook_signature_short (payload signature secret : jsstring) :
  (length signature < 64)%nat ->
  verifyWebhookSignature payload signature secret
  = Err (str "Input buffers must have the same byte length").
Proof.
  intros Hlen. rewrite verifyWebhookSignature_result.
  assert (G : forall s : jsstring, (2 * length (hex_decode s) <= length s)%nat).
  { fix IH 1. intros [|a [|b rest]]; cbn [hex_decode length]; try lia.
    destruct (unhex a), (unhex b); cbn [length]; try lia.
    specialize (IH rest). lia. }
  specialize (G signature).
  destruct (Nat.eqb_spec (length (hex_decode signature)) 32); [lia|reflexivity].
Qed.

Lemma webhook_signature_short_witness :
  verifyWebhookSignature (str "{}") [] (str "secret")
  = Err (str "Input buffers must have the same byte length").
Proof.
  apply webhook_signature_short. cbn. lia.
Defined.

(** Characters after the 64 digits are not looked at when they start with
    something that the decoder does not read as a pair of hexadecimal
    digits (it reads the low byte of each character): the right
    signature followed by such text is accepted. *)
Theorem webhook_signature_trailing (payload secret junk : jsstring) :
  hex_decode junk = [] ->
  verifyWebhookSignature payload (hmac_hex secret payload ++ junk) secret
  = Ok true.
Proof.
  intros Hj. rewrite verifyWebhookSignature_result.
  unfold hmac_hex.
  rewrite (hex_decode_encode _ junk (hmac_small _ _)).
  rewrite Hj, List.app_nil_r, hmac_length.
  cbn. f_equal. apply bool_decide_eq_true. reflexivity.
Qed.

Lemma webhook_signature_trailing_witness :
  verifyWebhookSignature (str "{}")
    (hmac_hex (str "secret") (str "{}") ++ str "; anything") (str "secret")
  = Ok true.
Proof.
  apply webhook_signature_trailing. reflexivity.
Defined.

(* ================================================================== *)
(** * The PHP client *)

Lemma drop_slashes_head l :
  match PHP.drop_slashes l with
  | [] => True
  | c :: _ => c <> 47%N
  end.
Proof.
  induction l as [|c l IH]; cbn; [exact I|].
  destruct (N.eqb_spec c 47); [exact IH|assumption].
Qed.

Lemma rtrim_slash_last s : last (PHP.rtrim_slash s) <> Some 47%N.
Proof.
  unfold PHP.rtrim_slash.
  pose proof (drop_slashes_head (rev s)) as H.
  destruct (PHP.drop_slashes (rev s)) as [|c l]; [discriminate|].
  cbn [rev]. rewrite last_snoc. intros E. injection E as ->. contradiction.
Qed.

Lemma rtrim_slash_keeps s c :
  c <> 47%N -> PHP.rtrim_slash (s ++ [c]) = s ++ [c].
Proof.
  intros Hc. unfold PHP.rtrim_slash. rewrite rev_unit. cbn.
  destruct (N.eqb_spec c 47); [contradiction|].
  cbn [rev]. rewrite rev_involutive. reflexivity.
Qed.

(** The constructor accepts a configuration exactly when API base and
    merchant wallet are neither missing, empty nor the text of the digit
    zero, and the network is one of [mainnet-beta], [devnet] and
    [testnet]. *)
Theorem php_construct_accepts (config : PHP.Config) :
  (exists client, PHP.construct config = Ok client)
  <-> (PHP.empty (PHP.api_base config) = false
       /\ PHP.empty (PHP.merchant_wallet config) = false
       /\ exists net, PHP.network config = Some net
                      /\ In net PHP.validNetworks).
Proof.
  unfold PHP.construct. split.
  - intros (client & H).
    destruct (PHP.empty (PHP.api_base config)); [discriminate|].
    destruct (PHP.empty (PHP.merchant_wallet config)); [discriminate|].
    destruct (PHP.network config) as [net|] eqn:En; [|discriminate].
    destruct (PHP.empty (Some net)); [discriminate|].
    cbn [default] in H. unfold id in H.
    destruct (PHP.in_array net PHP.validNetworks) eqn:Ein;
      [|cbn [negb] in H; discriminate].
    repeat split. exists net. split; [reflexivity|].
    unfold PHP.in_array in Ein. apply existsb_exists in Ein as (x & Hx & Ex).
    apply jsstring_eqb_eq in Ex. subst x. exact Hx.
  - intros (Ha & Hm & net & Hn & Hin). rewrite Ha, Hm, Hn.
    assert (He : PHP.empty (Some net) = false).
    { cbn in Hin. destruct Hin as [<-|[<-|[<-|[]]]]; reflexivity. }
    rewrite He. cbn [default]. unfold id.
    assert (Hi : PHP.in_array net PHP.validNetworks = true).
    { unfold PHP.in_array. apply existsb_exists. exists net.
      split; [exact Hin|apply jsstring_eqb_refl]. }
    rewrite Hi. eexists. reflexivity.
Qed.

(** The API base of a client is the one of its configuration without the
    slashes at its end: it never ends in a slash, and every request goes
    to it followed by the endpoint. *)
Theorem php_base_without_slash (config : PHP.Config) (client : PHP.Client) :
  PHP.construct config = Ok client ->
  last (PHP.apiBase client) <> Some 47%N
  /\ PHP.apiBase client = PHP.rtrim_slash (default [] (PHP.api_base config))
  /\ forall endpoint,
       PHPRequests.url client endpoint
       = PHP.rtrim_slash (default [] (PHP.api_base config)) ++ endpoint.
Proof.
  unfold PHP.construct. intros H.
  destruct (PHP.empty (PHP.api_base config)); [discriminate|].
  destruct (PHP.empty (PHP.merchant_wallet config)); [discriminate|].
  destruct (PHP.empty (PHP.network config)); [discriminate|].
  destruct (negb (PHP.in_array _ _)); [discriminate|].
  injection H as <-. unfold PHPRequests.url. cbn.
  split; [apply rtrim_slash_last|]. split; reflexivity.
Qed.

Lemma php_base_without_slash_witness :
  last (PHP.apiBase php_client) <> Some 47%N.
Proof.
  apply (php_base_without_slash (php_config (str "devnet")) php_client).
  reflexivity.
Defined.

Lemma php_request_network_witness :
  member (JObj (PHP.createPaymentIntent_payload php_client php_params))
         (str "network") = Some (JStr (str "devnet")).
Proof.
  apply (php_request_network (php_config (str "devnet")) php_client php_params
           (JObj (PHP.createPaymentIntent_payload php_client php_params)));
    reflexivity.
Defined.

(** [pay] sends a request exactly for an amount above zero and a token
    that is neither missing, empty nor the text of the digit zero. *)
Theorem php_pay_accepts (client : PHP.Client) (params : PHP.Params) :
  (exists doc, PHP.pay_request client params = Ok doc)
  <-> ((exists a, PHP.amount params = Some a
                  /\ num_neg a = false /\ num_digits a <> 0%N)
       /\ PHP.empty (PHP.token params) = false).
Proof.
  unfold PHP.pay_request, PHP.positive_amount. split.
  - intros (doc & H).
    destruct (PHP.amount params) as [a|]; [|discriminate].
    destruct (num_neg a) eqn:En; [discriminate|].
    destruct (N.eqb_spec (num_digits a) 0); [discriminate|].
    cbn in H. destruct (PHP.empty (PHP.token params)); [discriminate|].
    split; [|reflexivity]. exists a. auto.
  - intros ((a & Ha & Hn & Hd) & Ht). rewrite Ha, Hn, Ht.
    destruct (N.eqb_spec (num_digits a) 0); [contradiction|].
    cbn. eexists. reflexivity.
Qed.

Lemma get_add_optional_same key s payload :
  get_prop (PHP.add_optional key s payload) key
  = if PHP.empty s then get_prop payload key else opt_str s.
Proof.
  unfold PHP.add_optional. destruct (PHP.empty s) eqn:E; [reflexivity|].
  rewrite get_prop_set_same. destruct s; [reflexivity|discriminate].
Qed.

(** The optional texts of a payment are in the request exactly when they
    are not empty, each under its own name, and the facilitator
    identifier exactly when the client is configured with one. *)
Theorem php_payload_optional (client : PHP.Client) (params : PHP.Params) :
  let payload := PHP.createPaymentIntent_payload client params in
  let given (s : option jsstring) :=
    if PHP.empty s then None else opt_str s in
  get_prop payload (str "reference") = given (PHP.reference params)
  /\ get_prop payload (str "label") = given (PHP.label params)
  /\ get_prop payload (str "message") = given (PHP.message params)
  /\ get_prop payload (str "memo") = given (PHP.memo params)
  /\ get_prop payload (str "facilitator_id") = opt_str (PHP.facilitatorId client)
  /\ get_prop payload (str "facilitator_url")
     = opt_str (PHP.facilitatorUrl client).
Proof.
  cbv zeta. unfold PHP.createPaymentIntent_payload.
  assert (Hmeta : forall (p : list (jsstring * value)) key,
    key <> str "metadata" ->
    get_prop (match PHP.metadata params with
              | Some (m :: ms) => set_prop p (str "metadata") (JObj (m :: ms))
              | _ => p
              end) key = get_prop p key).
  { intros p key Hk. destruct (PHP.metadata params) as [[|m ms]|];
      try reflexivity.
    apply get_prop_set_other. intros E. symmetry in E. contradiction. }
  assert (Hconf : forall key s p,
    get_prop (PHP.add_configured key s p) key
    = match s with Some _ => opt_str s | None => get_prop p key end).
  { intros key s p. unfold PHP.add_configured. destruct s; [|reflexivity].
    apply get_prop_set_same. }
  repeat split.
  - rewrite !PHPFacts.get_add_configured by (vm_compute; discriminate).
    rewrite Hmeta by (vm_compute; discriminate).
    rewrite !PHPFacts.get_add_optional by (vm_compute; discriminate).
    rewrite get_add_optional_same. destruct (PHP.empty _);
      rewrite ?PHPFacts.get_add_optional by (vm_compute; discriminate);
      reflexivity.
  - rewrite !PHPFacts.get_add_configured by (vm_compute; discriminate).
    rewrite Hmeta by (vm_compute; discriminate).
    rewrite !PHPFacts.get_add_optional by (vm_compute; discriminate).
    rewrite get_add_optional_same. destruct (PHP.empty _);
      rewrite ?PHPFacts.get_add_optional by (vm_compute; discriminate);
      reflexivity.
  - rewrite !PHPFacts.get_add_configured by (vm_compute; discriminate).
    rewrite Hmeta by (vm_compute; discriminate).
    rewrite !PHPFacts.get_add_optional by (vm_compute; discriminate).
    rewrite get_add_optional_same. destruct (PHP.empty _);
      rewrite ?PHPFacts.get_add_optional by (vm_compute; discriminate);
      reflexivity.
  - rewrite !PHPFacts.get_add_configured by (vm_compute; discriminate).
    rewrite Hmeta by (vm_compute; discriminate).
    rewrite get_add_optional_same. destruct (PHP.empty _);
      rewrite ?PHPFacts.get_add_optional by (vm_compute; discriminate);
      reflexivity.
  - rewrite PHPFacts.get_add_configured by (vm_compute; discriminate).
    rewrite Hconf. destruct (PHP.facilitatorId client); [reflexivity|].
    rewrite Hmeta by (vm_compute; discriminate).
    rewrite !PHPFacts.get_add_optional by (vm_compute; discriminate).
    reflexivity.
  - rewrite Hconf. destruct (PHP.facilitatorUrl client); [reflexivity|].
    rewrite PHPFacts.get_add_configured by (vm_compute; discriminate).
    rewrite Hmeta by (vm_compute; discriminate).
    rewrite !PHPFacts.get_add_optional by (vm_compute; discriminate).
    reflexivity.
Qed.

(** [confirmPayment] sends a request exactly when neither the intent
    identifier nor the signature is empty or the text of the digit zero;
    the request then goes to the address of the intent followed by
    [/confirm] and carries the signature. *)
Theorem php_confirm_accepts (intentId signature : jsstring) :
  (PHP.empty (Some intentId) = false /\ PHP.empty (Some signature) = false ->
   PHPRequests.confirmPayment_request intentId signature
   = Ok (str "/payment-intents/" ++ intentId ++ str "/confirm",
         JObj [ (str "signature", JStr signature) ])
   /\ PHPRequests.getPaymentIntent_request intentId
      = Ok (str "/payment-intents/" ++ intentId))
  /\ (PHP.empty (Some intentId) = true ->
      PHPRequests.confirmPayment_request intentId signature
      = Err (str "Invalid parameter: intentId is required")
      /\ PHPRequests.getPaymentIntent_request intentId
         = Err (str "Invalid parameter: intentId is required"))
  /\ (PHP.empty (Some intentId) = false ->
      PHP.empty (Some signature) = true ->
      PHPRequests.confirmPayment_request intentId signature
      = Err (str "Invalid parameter: signature is required")).
Proof.
  unfold PHPRequests.confirmPayment_request, PHPRequests.getPaymentIntent_request.
  split; [|split].
  - intros [-> ->]. split; reflexivity.
  - intros ->. split; reflexivity.
  - intros -> ->. reflexivity.
Qed.

Lemma php_confirm_accepts_witness :
  PHPRequests.confirmPayment_request (str "0") (str "5xYz")
  = Err (str "Invalid parameter: intentId is required").
Proof.
  apply (php_confirm_accepts (str "0") (str "5xYz")). reflexivity.
Defined.

(* ================================================================== *)
(** * Documents with the same canonical text *)

(** ** Strings *)

Lemma hex_fixed_4 c :
  (c < 65536)%N ->
  exists x1 x2 x3 x4,
    hex_fixed 4 c = [hex_digit x1; hex_digit x2; hex_digit x3; hex_digit x4]
    /\ (x1 < 16 /\ x2 < 16 /\ x3 < 16 /\ x4 < 16)%N
    /\ (((x1 * 16 + x2) * 16 + x3) * 16 + x4 = c)%N.
Proof.
  intros Hc.
  exists (N.land (N.shiftr (N.shiftr (N.shiftr c 4) 4) 4) 15),
         (N.land (N.shiftr (N.shiftr c 4) 4) 15),
         (N.land (N.shiftr c 4) 15), (N.land c 15).
  split; [reflexivity|].
  change 15%N with (N.ones 4). rewrite !N.land_ones.
  rewrite !N.shiftr_div_pow2. change (2 ^ 4)%N with 16%N.
  pose proof (N.div_mod c 16). pose proof (N.mod_lt c 16).
  pose proof (N.div_mod (c / 16) 16). pose proof (N.mod_lt (c / 16) 16).
  pose proof (N.div_mod (c / 16 / 16) 16).
  pose proof (N.mod_lt (c / 16 / 16) 16).
  pose proof (N.div_mod (c / 16 / 16 / 16) 16).
  pose proof (N.mod_lt (c / 16 / 16 / 16) 16).
  assert (c / 16 / 16 / 16 / 16 = 0)%N.
  { rewrite !N.Div0.div_div. apply N.div_small. exact Hc. }
  lia.
Qed.

Lemma read_raw c text :
  c <> 34%N -> c <> 92%N ->
  read_string (c :: text) = push c (read_string text).
Proof.
  intros H1 H2. cbn [read_string].
  destruct (N.eqb_spec c 34); [contradiction|].
  destruct (N.eqb_spec c 92); [contradiction|]. reflexivity.
Qed.

Lemma read_u h1 h2 h3 h4 text :
  read_string (str "\u" ++ [h1; h2; h3; h4] ++ text)
  = match unhex h1, unhex h2, unhex h3, unhex h4 with
    | Some x1, Some x2, Some x3, Some x4 =>
        push (((x1 * 16 + x2) * 16 + x3) * 16 + x4)%N (read_string text)
    | _, _, _, _ => None
    end.
Proof. reflexivity. Qed.

Lemma read_unicode c text :
  (c < 65536)%N ->
  read_string (unicode_escape c ++ text) = push c (read_string text).
Proof.
  intros Hc. unfold unicode_escape.
  destruct (hex_fixed_4 c Hc)
    as (x1 & x2 & x3 & x4 & -> & (H1 & H2 & H3 & H4) & E).
  rewrite <- List.app_assoc, read_u.
  rewrite !unhex_hex_digit by assumption. rewrite E. reflexivity.
Qed.

Lemma read_escape_unit c text :
  is_high_surrogate c = false -> is_low_surrogate c = false ->
  read_string (escape_unit c ++ text) = push c (read_string text).
Proof.
  intros Hh Hl. unfold escape_unit.
  destruct (N.eqb_spec c 8); [subst; reflexivity|].
  destruct (N.eqb_spec c 9); [subst; reflexivity|].
  destruct (N.eqb_spec c 10); [subst; reflexivity|].
  destruct (N.eqb_spec c 12); [subst; reflexivity|].
  destruct (N.eqb_spec c 13); [subst; reflexivity|].
  destruct (N.eqb_spec c 34); [subst; reflexivity|].
  destruct (N.eqb_spec c 92); [subst; reflexivity|].
  destruct (N.ltb_spec c 32).
  - apply read_unicode. lia.
  - apply read_raw; assumption.
Qed.

Lemma surrogate_raw c :
  (is_high_surrogate c || is_low_surrogate c) = true ->
  c <> 34%N /\ c <> 92%N /\ (c < 65536)%N.
Proof.
  unfold is_high_surrogate, is_low_surrogate. intros H.
  apply orb_true_iff in H as [H|H]; apply andb_true_iff in H as [H1 H2];
    apply N.leb_le in H1, H2; lia.
Qed.

(** Reading what [quote_body] wrote gives the string back, and the text
    after the closing quote. *)
Lemma read_quote_body s rest :
  read_string (quote_body s ++ 34%N :: rest) = Some (s, rest).
Proof.
  remember (length s) as n eqn:Hn.
  revert s Hn. induction n as [n IH] using lt_wf_ind. intros s Hn.
  destruct s as [|c s]; [reflexivity|].
  cbn [quote_body].
  assert (IHs : read_string (quote_body s ++ 34%N :: rest) = Some (s, rest)).
  { apply (IH (length s)); [subst n; cbn; lia|reflexivity]. }
  destruct (is_high_surrogate c) eqn:Hh.
  - destruct (surrogate_raw c) as (H1 & H2 & H3); [rewrite Hh; reflexivity|].
    destruct s as [|d s].
    + rewrite read_unicode by exact H3. reflexivity.
    + destruct (is_low_surrogate d) eqn:Hd.
      * destruct (surrogate_raw d) as (H4 & H5 & _);
          [rewrite Hd; apply orb_true_r|].
        cbn [List.app]. rewrite read_raw by assumption.
        rewrite read_raw by assumption.
        rewrite (IH (length s)); [reflexivity|subst n; cbn; lia|reflexivity].
      * rewrite <- List.app_assoc, read_unicode by exact H3.
        rewrite IHs. reflexivity.
  - destruct (is_low_surrogate c) eqn:Hl.
    + destruct (surrogate_raw c) as (_ & _ & H3);
        [rewrite Hl; apply orb_true_r|].
      rewrite <- List.app_assoc, read_unicode by exact H3.
      rewrite IHs. reflexivity.
    + rewrite <- List.app_assoc, read_escape_unit by assumption.
      rewrite IHs. reflexivity.
Qed.

(** A string literal of [JSON.stringify] ends where its string ends:
    two literals, each followed by any text, that give the same text are
    literals of the same string. *)
Lemma quote_json_string_prefix s t r1 r2 :
  quote_json_string s ++ r1 = quote_json_string t ++ r2 ->
  s = t /\ r1 = r2.
Proof.
  unfold quote_json_string. cbn [List.app]. intros E.
  injection E as E. rewrite <- !List.app_assoc in E. cbn [List.app] in E.
  apply (f_equal read_string) in E. rewrite !read_quote_body in E.
  injection E as -> ->. split; reflexivity.
Qed.

(** ** Numbers *)

Lemma uint_digits_small u : Forall (fun d => (d <= 9)%N) (uint_digits u).
Proof. induction u; cbn; constructor; (lia || assumption). Qed.

Lemma uint_digits_nil u : uint_digits u = [] -> u = Decimal.Nil.
Proof. destruct u; [reflexivity|discriminate..]. Qed.

Lemma decimal_digits_digit x :
  Forall (fun c => is_digit c = true) (decimal_digits x).
Proof.
  unfold decimal_digits. apply List.Forall_map.
  eapply List.Forall_impl; [|apply uint_digits_small].
  intros d Hd. cbn beta in *. unfold is_digit.
  apply andb_true_intro. split; apply N.leb_le; lia.
Qed.

Lemma decimal_digits_nonempty x :
  x <> 0%N -> exists d more, decimal_digits x = d :: more.
Proof.
  intros Hx. destruct (decimal_digits x) as [|d more] eqn:E; [|eauto].
  exfalso. unfold decimal_digits in E. apply map_eq_nil in E.
  apply uint_digits_nil in E. destruct x as [|p]; [contradiction|].
  exact (DecimalPos.Unsigned.to_uint_nonnil p E).
Qed.

Lemma digit_number_unit c : is_digit c = true -> is_number_unit c = true.
Proof. intros H. unfold is_number_unit. rewrite H. reflexivity. Qed.

Lemma Forall_number_digits l :
  Forall (fun c => is_digit c = true) l ->
  Forall (fun c => is_number_unit c = true) l.
Proof. apply List.Forall_impl. intros c. apply digit_number_unit. Qed.

Lemma Forall_repeat_zero n :
  Forall (fun c => is_number_unit c = true) (repeat 48%N n).
Proof. induction n; cbn; constructor; [reflexivity|assumption]. Qed.

(** The text of a Number has digits, a sign, a point and the letter e,
    and nothing else. *)
Lemma number_units x :
  Forall (fun c => is_number_unit c = true) (number_to_string x).
Proof.
  unfold number_to_string.
  destruct (num_digits x =? 0)%N; [repeat constructor|].
  pose proof (Forall_number_digits _ (decimal_digits_digit (num_digits x)))
    as Hds.
  set (ds := decimal_digits (num_digits x)) in *.
  apply Forall_app. split; [destruct (num_neg x); repeat constructor|].
  destruct (_ && _)%bool.
  { apply Forall_app. split; [exact Hds|apply Forall_repeat_zero]. }
  destruct (_ && _)%bool.
  { apply Forall_app. split; [apply Forall_take, Hds|].
    constructor; [reflexivity|apply Forall_drop, Hds]. }
  destruct (_ && _)%bool.
  { constructor; [reflexivity|]. constructor; [reflexivity|].
    apply Forall_app. split; [apply Forall_repeat_zero|exact Hds]. }
  assert (He : Forall (fun c => is_number_unit c = true)
    (str "e" ++ (if (num_point x - 1 <? 0)%Z then str "-" else str "+")
     ++ decimal_digits (Z.to_N (Z.abs (num_point x - 1))))).
  { constructor; [reflexivity|]. apply Forall_app. split.
    - destruct (_ <? _)%Z; repeat constructor.
    - apply Forall_number_digits, decimal_digits_digit. }
  destruct ds as [|d [|d' more]]; [constructor| |].
  - apply Forall_cons in Hds as [Hd _]. constructor; assumption.
  - apply Forall_cons in Hds as [Hd Hmore]. constructor; [exact Hd|].
    constructor; [reflexivity|]. apply Forall_app. split; assumption.
Qed.

(** The text of a Number starts with a digit or with the minus sign. *)
Lemma number_head x :
  exists c rest,
    number_to_string x = c :: rest /\ (is_digit c || (c =? 45)%N) = true.
Proof.
  unfold number_to_string.
  destruct (N.eqb_spec (num_digits x) 0) as [|Hx];
    [eexists _, _; split; reflexivity|].
  destruct (num_neg x); [eexists _, _; split; reflexivity|].
  cbn [List.app].
  destruct (decimal_digits_nonempty _ Hx) as (d & more & E).
  pose proof (decimal_digits_digit (num_digits x)) as Hds.
  rewrite E in *. apply Forall_cons in Hds as [Hd _].
  assert (Hd' : (is_digit d || (d =? 45)%N) = true) by (rewrite Hd; reflexivity).
  destruct (_ && _)%bool; [eexists _, _; split; [reflexivity|exact Hd']|].
  destruct ((0 <? _)%Z && _)%bool eqn:E2.
  { apply andb_true_iff in E2 as [E2 _]. apply Z.ltb_lt in E2.
    destruct (Z.to_nat (num_point x)) as [|k] eqn:Ek; [lia|].
    eexists _, _; split; [reflexivity|exact Hd']. }
  clear E2. destruct (_ && _)%bool; [eexists _, _; split; reflexivity|].
  destruct more; eexists _, _; (split; [reflexivity|exact Hd']).
Qed.

(** ** Texts that end where their value ends *)

Lemma class_prefix (P : codeunit -> bool) l1 l2 r1 r2 :
  Forall (fun c => P c = true) l1 -> Forall (fun c => P c = true) l2 ->
  stops P r1 -> stops P r2 ->
  l1 ++ r1 = l2 ++ r2 -> l1 = l2 /\ r1 = r2.
Proof.
  intros H1. revert l2. induction H1 as [|c l1 Hc H1 IH]; intros l2 H2 S1 S2 E.
  - destruct H2 as [|d l2 Hd H2]; [split; [reflexivity|exact E]|].
    cbn in E. subst r1. cbn in S1. congruence.
  - destruct H2 as [|d l2 Hd H2].
    + cbn in E. subst r2. cbn in S2. congruence.
    + cbn in E. injection E as -> E.
      destruct (IH l2 H2 S1 S2 E) as [-> ->]. split; reflexivity.
Qed.

Lemma delimited_stops_number text :
  delimited text -> stops is_number_unit text.
Proof.
  destruct text as [|c text]; [trivial|]. cbn. unfold is_delimiter.
  intros H. apply orb_true_iff in H as [H|H];
    [apply orb_true_iff in H as [H|H]|]; apply N.eqb_eq in H; subst c;
    reflexivity.
Qed.

Lemma kind_not_delimiter c k :
  kind_of_unit c = Some k -> is_delimiter c = false.
Proof.
  intros Hk. destruct (is_delimiter c) eqn:H; [|reflexivity].
  unfold is_delimiter in H. apply orb_true_iff in H as [H|H];
    [apply orb_true_iff in H as [H|H]|]; apply N.eqb_eq in H; subst c;
    discriminate.
Qed.

Lemma digit_kind c :
  (is_digit c || (c =? 45)%N) = true -> kind_of_unit c = Some KNum.
Proof.
  intros H. unfold kind_of_unit. rewrite H.
  assert (Hc : (48 <= c <= 57 \/ c = 45)%N).
  { apply orb_true_iff in H as [H|H].
    - apply andb_true_iff in H as [H1 H2]. apply N.leb_le in H1, H2. lia.
    - apply N.eqb_eq in H. lia. }
  destruct (N.eqb_spec c 110); [lia|].
  destruct (N.eqb_spec c 116); [lia|].
  destruct (N.eqb_spec c 102); [lia|]. reflexivity.
Qed.

Lemma array_text items r :
  canonicalJSON (JArr items) ++ r
  = 91%N :: join (str ",") (map canonicalJSON items) ++ 93%N :: r.
Proof.
  rewrite canonicalJSON_array, <- !List.app_assoc. reflexivity.
Qed.

Lemma object_text members r :
  canonicalJSON (JObj members) ++ r
  = 123%N
    :: join (str ",")
         (map (fun key =>
                 pair_string key
                   (match get_prop members key with
                    | Some v => canonicalJSON v
                    | None => str "undefined"
                    end))
              (sort_keys (keys members)))
    ++ 125%N :: r.
Proof.
  rewrite canonicalJSON_object, <- !List.app_assoc. reflexivity.
Qed.

(** The first character of a text tells the kind of its value. *)
Lemma canonicalJSON_head v :
  exists c rest,
    canonicalJSON v = c :: rest /\ kind_of_unit c = Some (kind_of v).
Proof.
  destruct v as [|[|]|n|s|items|members|neg].
  - eexists _, _; split; reflexivity.
  - eexists _, _; split; reflexivity.
  - eexists _, _; split; reflexivity.
  - destruct (number_head n) as (c & rest & E & Hc).
    exists c, rest. split; [exact E|apply digit_kind, Hc].
  - eexists _, _; split; reflexivity.
  - pose proof (array_text items []) as E. rewrite List.app_nil_r in E.
    rewrite E. eexists _, _; split; reflexivity.
  - pose proof (object_text members []) as E. rewrite List.app_nil_r in E.
    rewrite E. eexists _, _; split; reflexivity.
  - eexists _, _; split; reflexivity.
Qed.

Lemma same_kind a b r1 r2 :
  canonicalJSON a ++ r1 = canonicalJSON b ++ r2 -> kind_of a = kind_of b.
Proof.
  destruct (canonicalJSON_head a) as (c & ra & -> & Ha).
  destruct (canonicalJSON_head b) as (d & rb & -> & Hb).
  cbn. intros E. injection E as -> _. congruence.
Qed.

(** ** Joined texts *)

Lemma join_cons sep p rest :
  join sep (p :: rest) = p ++ concat (map (fun q => sep ++ q) rest).
Proof.
  revert p. induction rest as [|q rest IH]; intros p.
  - cbn. rewrite List.app_nil_r. reflexivity.
  - change (join sep (p :: q :: rest)) with (p ++ sep ++ join sep (q :: rest)).
    rewrite IH. cbn. rewrite <- List.app_assoc. reflexivity.
Qed.

Lemma join_comma {A} (f : A -> jsstring) x l :
  join (str ",") (map f (x :: l))
  = f x ++ concat (map (fun y => 44%N :: f y) l).
Proof.
  cbn [map]. rewrite join_cons, List.map_map. reflexivity.
Qed.

Lemma Forall2_In_l {A B} (R : A -> B -> Prop) l l' x :
  Forall2 R l l' -> In x l -> exists y, In y l' /\ R x y.
Proof.
  induction 1 as [|a b l l' Hab H IH]; intros Hin; [destruct Hin|].
  destruct Hin as [->|Hin]; [exists b; split; [left; reflexivity|exact Hab]|].
  destruct (IH Hin) as (y & Hy & Hxy). exists y. split; [right|]; assumption.
Qed.

Lemma Forall2_same {A} (R : A -> A -> Prop) l l' :
  (forall x y, R x y -> x = y) -> Forall2 R l l' -> l = l'.
Proof.
  intros HR. induction 1 as [|a b l l' Hab H IH]; [reflexivity|].
  rewrite (HR a b Hab), IH. reflexivity.
Qed.

Section Joined.
Context {A B : Type} (f : A -> jsstring) (g : B -> jsstring).
Context (R : A -> B -> Prop) (close : codeunit).
Hypothesis close_delimiter : is_delimiter close = true.
Hypothesis close_not_comma : close <> 44%N.

Lemma tail_delimited {C} (h : C -> jsstring) (l : list C) r :
  delimited (concat (map (fun x => 44%N :: h x) l) ++ close :: r).
Proof. destruct l; cbn; [exact close_delimiter|reflexivity]. Qed.

Lemma joined_tail l l' r1 r2 :
  (forall x y t1 t2, In x l -> In y l' -> delimited t1 -> delimited t2 ->
     f x ++ t1 = g y ++ t2 -> R x y /\ t1 = t2) ->
  concat (map (fun x => 44%N :: f x) l) ++ close :: r1
  = concat (map (fun y => 44%N :: g y) l') ++ close :: r2 ->
  Forall2 R l l' /\ r1 = r2.
Proof.
  revert l'. induction l as [|x l IH]; intros [|y l'] H E; cbn in E.
  - injection E as ->. split; [constructor|reflexivity].
  - injection E as E _. contradiction.
  - injection E as E _. symmetry in E. contradiction.
  - injection E as E. rewrite <- !List.app_assoc in E.
    destruct (H x y _ _ (or_introl eq_refl) (or_introl eq_refl)
                (tail_delimited f l r1) (tail_delimited g l' r2) E)
      as [Hxy E'].
    destruct (IH l') as [Hl Hr]; [|exact E'|].
    + intros x' y' t1 t2 Hx Hy. apply H; right; assumption.
    + split; [constructor; assumption|exact Hr].
Qed.

(** Two joined lists of texts, each closed and followed by any text, that
    give the same text have the same number of elements, and their
    elements are the same one by one. *)
Lemma joined l l' r1 r2 :
  (forall x y t1 t2, In x l -> In y l' -> delimited t1 -> delimited t2 ->
     f x ++ t1 = g y ++ t2 -> R x y /\ t1 = t2) ->
  (forall x, In x l -> exists c rest,
     f x = c :: rest /\ is_delimiter c = false) ->
  (forall y, In y l' -> exists c rest,
     g y = c :: rest /\ is_delimiter c = false) ->
  join (str ",") (map f l) ++ close :: r1
  = join (str ",") (map g l') ++ close :: r2 ->
  Forall2 R l l' /\ r1 = r2.
Proof.
  intros H Hf Hg E. destruct l as [|x l], l' as [|y l'].
  - cbn in E. injection E as ->. split; [constructor|reflexivity].
  - exfalso. rewrite join_comma in E.
    destruct (Hg y (or_introl eq_refl)) as (c & rest & Ey & Hc).
    rewrite Ey in E. cbn in E. injection E as E _. subst c. congruence.
  - exfalso. rewrite join_comma in E.
    destruct (Hf x (or_introl eq_refl)) as (c & rest & Ex & Hc).
    rewrite Ex in E. cbn in E. injection E as E _. subst c. congruence.
  - rewrite !join_comma, <- !List.app_assoc in E.
    destruct (H x y _ _ (or_introl eq_refl) (or_introl eq_refl)
                (tail_delimited f l r1) (tail_delimited g l' r2) E)
      as [Hxy E'].
    destruct (joined_tail l l' r1 r2) as [Hl Hr]; [|exact E'|].
    + intros x' y' t1 t2 Hx Hy. apply H; right; assumption.
    + split; [constructor; assumption|exact Hr].
Qed.
End Joined.

Lemma get_prop_In {A} (members : list (jsstring * A)) key v :
  get_prop members key = Some v -> In (key, v) members.
Proof.
  induction members as [|[k w] rest IH]; cbn; [discriminate|].
  destruct (jsstring_eqb k key) eqn:E.
  - apply jsstring_eqb_eq in E. subst k. intros [= ->]. left. reflexivity.
  - intros H. right. apply IH, H.
Qed.

Lemma get_prop_key {A} (members : list (jsstring * A)) key v :
  get_prop members key = Some v -> In key (keys members).
Proof.
  intros H. apply get_prop_In in H.
  apply (in_map fst) in H. exact H.
Qed.

Lemma In_sort_keys key l : In key (sort_keys l) <-> In key l.
Proof.
  rewrite <- !list_elem_of_In. rewrite (sort_keys_perm l). reflexivity.
Qed.

Lemma member_quote_free members key v :
  keys_quote_free (JObj members) = true -> In (key, v) members ->
  quote_free key = true /\ keys_quote_free v = true.
Proof.
  cbn [keys_quote_free]. intros H Hin.
  rewrite forallb_forall in H. apply (H _) in Hin.
  apply andb_true_iff in Hin. exact Hin.
Qed.

Lemma quote_free_Forall key :
  quote_free key = true ->
  Forall (fun c => negb (c =? 34)%N = true) key.
Proof.
  unfold quote_free. rewrite forallb_forall. intros H.
  apply List.Forall_forall. exact H.
Qed.

(** ** The text determines the document *)

(** A text of the serializer ends where its document ends: two
    documents, each followed by a delimiter or by nothing, that give the
    same text are the same document up to the order of keys. *)
Lemma canonicalJSON_prefix a :
  forall b r1 r2,
    keys_quote_free a = true -> keys_quote_free b = true ->
    delimited r1 -> delimited r2 ->
    canonicalJSON a ++ r1 = canonicalJSON b ++ r2 ->
    same_doc a b /\ r1 = r2.
Proof.
  induction a as [|b|n|s|items IH|members IH|neg] using value_nested_ind;
    intros b' r1 r2 Ha Hb D1 D2 E;
    pose proof (same_kind _ _ _ _ E) as K;
    destruct b' as [|b0|m|t|items'|members'|neg']; try discriminate K;
    clear K.
  - apply app_inv_head in E. split; [apply sd_null; reflexivity|exact E].
  - apply app_inv_head in E. split; [apply sd_null; reflexivity|exact E].
  - destruct b, b0; try (cbn in E; discriminate E);
      apply app_inv_head in E; (split; [apply sd_bool|exact E]).
  - cbn [canonicalJSON] in E.
    destruct (class_prefix is_number_unit _ _ _ _
                (number_units n) (number_units m)
                (delimited_stops_number _ D1) (delimited_stops_number _ D2) E)
      as [En Er].
    split; [apply sd_num; exact En|exact Er].
  - cbn [canonicalJSON] in E.
    destruct (quote_json_string_prefix _ _ _ _ E) as [-> Er].
    split; [apply sd_str|exact Er].
  - rewrite !array_text in E. injection E as E.
    cbn [keys_quote_free] in Ha, Hb. rewrite forallb_forall in Ha, Hb.
    rewrite List.Forall_forall in IH.
    destruct (joined canonicalJSON canonicalJSON same_doc 93%N
                eq_refl ltac:(discriminate) items items' r1 r2) as [Hl Hr].
    + intros x y t1 t2 Hx Hy. apply (IH x Hx); [apply Ha, Hx|apply Hb, Hy].
    + intros x _. destruct (canonicalJSON_head x) as (c & rest & Ex & Hc).
      exists c, rest. split; [exact Ex|exact (kind_not_delimiter _ _ Hc)].
    + intros y _. destruct (canonicalJSON_head y) as (c & rest & Ey & Hc).
      exists c, rest. split; [exact Ey|exact (kind_not_delimiter _ _ Hc)].
    + exact E.
    + split; [apply sd_arr; exact Hl|exact Hr].
  - rewrite !object_text in E. injection E as E.
    rewrite List.Forall_forall in IH.
    pose (text_of := fun (ms : list (jsstring * value)) key =>
            pair_string key
              (match get_prop ms key with
               | Some v => canonicalJSON v
               | None => str "undefined"
               end)).
    destruct (joined (text_of members) (text_of members')
                (fun key key' =>
                   key = key'
                   /\ forall v v', get_prop members key = Some v ->
                                   get_prop members' key' = Some v' ->
                                   same_doc v v')
                125%N eq_refl ltac:(discriminate)
                (sort_keys (keys members)) (sort_keys (keys members')) r1 r2)
      as [Hl Hr]; [| | |exact E|].
    + intros key key' t1 t2 Hk Hk' T1 T2 Et. unfold text_of in Et.
      destruct (sorted_key_defined _ _ Hk) as (v & Hv).
      destruct (sorted_key_defined _ _ Hk') as (v' & Hv').
      rewrite Hv, Hv' in Et.
      destruct (member_quote_free _ _ _ Ha (get_prop_In _ _ _ Hv))
        as [Qk Qv].
      destruct (member_quote_free _ _ _ Hb (get_prop_In _ _ _ Hv'))
        as [Qk' Qv'].
      unfold pair_string in Et. cbn [List.app] in Et.
      rewrite <- !List.app_assoc in Et. cbn [List.app] in Et.
      injection Et as Et.
      destruct (class_prefix (fun c => negb (c =? 34)%N) key key'
                  (34%N :: 58%N :: canonicalJSON v ++ t1)
                  (34%N :: 58%N :: canonicalJSON v' ++ t2)
                  (quote_free_Forall _ Qk) (quote_free_Forall _ Qk')
                  eq_refl eq_refl Et) as [-> Et'].
      injection Et' as Et'.
      destruct (IH _ (get_prop_In _ _ _ Hv) v' t1 t2 Qv Qv' T1 T2 Et')
        as [Hs Ht].
      split; [|exact Ht]. split; [reflexivity|].
      intros w w' Hw Hw'. rewrite Hv in Hw. rewrite Hv' in Hw'.
      injection Hw as <-. injection Hw' as <-. exact Hs.
    + intros key _. eexists _, _. split; reflexivity.
    + intros key _. eexists _, _. split; reflexivity.
    + assert (Hsame : sort_keys (keys members) = sort_keys (keys members')).
      { apply (Forall2_same _ _ _ (fun x y H => proj1 H) Hl). }
      split; [|exact Hr]. apply sd_obj.
      * rewrite <- (sort_keys_perm (keys members)), Hsame.
        apply sort_keys_perm.
      * intros key v v' Hv Hv'.
        assert (Hk : In key (sort_keys (keys members))).
        { apply In_sort_keys. exact (get_prop_key _ _ _ Hv). }
        destruct (Forall2_In_l _ _ _ _ Hl Hk) as (key' & _ & <- & Hvv).
        exact (Hvv v v' Hv Hv').
  - apply app_inv_head in E. split; [apply sd_null; reflexivity|exact E].
  - apply app_inv_head in E. split; [apply sd_null; reflexivity|exact E].
Qed.

Lemma same_doc_text a : forall b, same_doc a b -> canonicalJSON a = canonicalJSON b.
Proof.
  induction a as [|b|n|s|items IH|members IH|neg] using value_nested_ind;
    intros b' Hs;
    inversion Hs as [? ? Hwa Hwb| |? m En| |? items' Hl|? members' Hp Hm];
    subst; try discriminate Hwa; try reflexivity;
    try (destruct b'; try discriminate Hwb; reflexivity).
  - exact En.
  - rewrite !canonicalJSON_array.
    assert (Hmap : map canonicalJSON items = map canonicalJSON items').
    { clear Hs. revert IH.
      induction Hl as [|x y l l' Hxy Hl IHl]; intros IH; [reflexivity|].
      apply Forall_cons in IH as [IHx IH]. cbn [map].
      rewrite (IHx y Hxy), (IHl IH). reflexivity. }
    rewrite Hmap. reflexivity.
  - rewrite !canonicalJSON_object.
    rewrite (sort_keys_order _ _ Hp).
    apply (f_equal (fun l => str "{" ++ join (str ",") l ++ str "}")).
    apply List.map_ext_in. intros key Hk.
    destruct (sorted_key_defined _ _ Hk) as (v' & Hv').
    rewrite <- (sort_keys_order _ _ Hp) in Hk.
    destruct (sorted_key_defined _ _ Hk) as (v & Hv).
    rewrite Hv, Hv'. f_equal.
    rewrite List.Forall_forall in IH.
    exact (IH _ (get_prop_In _ _ _ Hv) v' (Hm key v v' Hv Hv')).
Qed.

(** Two documents whose keys have no double quote have the same
    canonical text exactly when they are the same document up to the
    order of the members of their objects, to Numbers of the same text
    ([0] and [-0]) and to which of [null], [Infinity] and [-Infinity]
    stands at a place, all three of which are written [null]: nothing
    else of a document can change without its canonical text changing. *)
Theorem canonical_text_determines_document (a b : value) :
  keys_quote_free a = true -> keys_quote_free b = true ->
  (canonicalJSON a = canonicalJSON b <-> same_doc a b).
Proof.
  intros Ha Hb. split.
  - intros E.
    destruct (canonicalJSON_prefix a b [] [] Ha Hb I I) as [Hs _];
      [rewrite !List.app_nil_r; exact E|exact Hs].
  - apply same_doc_text.
Qed.

(** A Number beyond the finite ones is written [null]: the literal
    [1e400] in a document and [null] in its place give the same text. *)
Lemma infinite_number_written_null :
  literal 1 400 = JInf false
  /\ canonicalJSON (JArr [literal 1 400]) = canonicalJSON (JArr [JNull])
  /\ same_doc (JArr [literal 1 400]) (JArr [JNull]).
Proof.
  assert (E : literal 1 400 = JInf false) by (vm_compute; reflexivity).
  rewrite E. split; [reflexivity|]. split; [reflexivity|].
  apply sd_arr. constructor; [|constructor]. apply sd_null; reflexivity.
Qed.

Lemma canonical_text_determines_document_witness :
  same_doc doc_nested doc_nested_reordered.
Proof.
  apply (canonical_text_determines_document doc_nested doc_nested_reordered);
    vm_compute; reflexivity.
Defined.

(* ================================================================== *)
(** * Numbers with the same text *)

(** ** Decimal digits *)

Lemma uint_digits_inj u v : uint_digits u = uint_digits v -> u = v.
Proof.
  revert v. induction u as [|u IH|u IH|u IH|u IH|u IH|u IH|u IH|u IH|u IH|u IH];
    intros [|v|v|v|v|v|v|v|v|v|v] E; try discriminate E;
    try reflexivity; cbn in E; injection E as E; f_equal; apply IH, E.
Qed.

Lemma decimal_digits_inj x y : decimal_digits x = decimal_digits y -> x = y.
Proof.
  unfold decimal_digits. intros E.
  apply DecimalN.Unsigned.to_uint_inj, uint_digits_inj.
  revert E. generalize (uint_digits (N.to_uint x)) (uint_digits (N.to_uint y)).
  induction l as [|a l IH]; intros [|b l'] E; try discriminate E;
    [reflexivity|].
  cbn in E. injection E as Eab E. f_equal; [lia|apply IH, E].
Qed.

Lemma uint_digits_revapp u acc :
  uint_digits (Decimal.revapp u acc) = rev (uint_digits u) ++ uint_digits acc.
Proof.
  revert acc. induction u; intros acc; [reflexivity|..];
    cbn [Decimal.revapp]; rewrite IHu; cbn; rewrite <- List.app_assoc;
    reflexivity.
Qed.

Lemma uint_digits_rev u :
  uint_digits (Decimal.rev u) = rev (uint_digits u).
Proof.
  unfold Decimal.rev. rewrite uint_digits_revapp. apply List.app_nil_r.
Qed.

Lemma uint_digits_hd u d rest :
  uint_digits u = d :: rest -> DecimalPos.Unsigned.hd u = d.
Proof. destruct u; cbn; intros E; try discriminate E; injection E as <- _;
  reflexivity. Qed.

(** The digits of a number above zero do not start with [0]. *)
Lemma decimal_digits_head x :
  x <> 0%N -> stops is_zero_unit (decimal_digits x).
Proof.
  intros Hx. unfold decimal_digits.
  pose proof (DecimalN.Unsigned.to_of (N.to_uint x)) as Hn.
  rewrite DecimalN.Unsigned.of_to in Hn.
  destruct (N.to_uint x) as [|u|u|u|u|u|u|u|u|u|u] eqn:E;
    try reflexivity.
  exfalso. rewrite DecimalFacts.unorm_D0 in Hn. unfold Decimal.unorm in Hn.
  destruct (Decimal.nzhead u) eqn:Eu; try discriminate Hn.
  - injection Hn as Hn. subst u. apply Hx.
    rewrite <- (DecimalN.Unsigned.of_to x), E. reflexivity.
  - exact (DecimalFacts.nzhead_nonzero _ _ Eu).
Qed.

(** The digits of a number that is no multiple of ten do not end in
    [0]. *)
Lemma decimal_digits_last x :
  (x mod 10 <> 0)%N -> stops is_zero_unit (rev (decimal_digits x)).
Proof.
  intros Hx. unfold decimal_digits. rewrite <- List.map_rev, <- uint_digits_rev.
  destruct (uint_digits (Decimal.rev (N.to_uint x))) as [|d rest] eqn:E;
    [exact I|].
  cbn. unfold is_zero_unit. apply N.eqb_neq. intros Hd.
  assert (d = 0%N) by lia. subst d. apply Hx.
  apply uint_digits_hd in E.
  rewrite <- (DecimalN.Unsigned.of_to x) at 1.
  change (N.of_uint (N.to_uint x)) with (Pos.of_uint (N.to_uint x)).
  rewrite DecimalPos.Unsigned.of_uint_alt, DecimalPos.Unsigned.of_lu_eqn, E.
  rewrite N.add_0_l, N.mul_comm. apply N.Div0.mod_mul.
Qed.

(** ** The parts of a text *)

Lemma number_text x :
  num_digits x <> 0%N ->
  number_to_string x
  = (if num_neg x then str "-" else []) ++ number_body x.
Proof.
  intros Hx. unfold number_to_string, number_body.
  destruct (N.eqb_spec (num_digits x) 0); [contradiction|reflexivity].
Qed.

Lemma zero_text x : num_digits x = 0%N -> number_to_string x = str "0".
Proof. intros Hx. unfold number_to_string. rewrite Hx. reflexivity. Qed.

Lemma digit_not_zero_unit c : is_digit c = false -> is_zero_unit c = false.
Proof.
  unfold is_digit, is_zero_unit. intros H.
  destruct (N.eqb_spec c 48); [subst c; discriminate H|reflexivity].
Qed.

Lemma Forall_zeros n : Forall (fun c => is_digit c = true) (repeat 48%N n).
Proof. induction n; cbn; constructor; [reflexivity|assumption]. Qed.

(** The text of a Number that is not zero, as its digits up to the first
    other character and the rest, in each of the four forms of
    [Number::toString]. *)
Lemma number_body_parts x :
  num_digits x <> 0%N ->
  let ds := decimal_digits (num_digits x) in
  let k := Z.of_nat (length ds) in
  let n := num_point x in
  exists c prefix rest,
    number_body x = (c :: prefix) ++ rest
    /\ Forall (fun c => is_digit c = true) (c :: prefix)
    /\ stops is_digit rest
    /\ ((k <= n <= 21
         /\ c :: prefix = ds ++ repeat 48%N (Z.to_nat (n - k))
         /\ rest = [])
        \/ (0 < n < k /\ n <= 21
            /\ c :: prefix = firstn (Z.to_nat n) ds
            /\ rest = 46%N :: skipn (Z.to_nat n) ds)
        \/ (-6 < n <= 0
            /\ c :: prefix = [48%N]
            /\ rest = 46%N :: repeat 48%N (Z.to_nat (- n)) ++ ds)
        \/ ((21 < n \/ n <= -6)
            /\ exists more,
                 ds = c :: more /\ prefix = []
                 /\ rest
                    = match more with [] => [] | _ => 46%N :: more end
                      ++ 101%N
                      :: (if (n - 1 <? 0) then str "-" else str "+")
                      ++ decimal_digits (Z.to_N (Z.abs (n - 1)))))%Z.
Proof.
  intros Hx ds k n. unfold number_body. fold ds. fold k. fold n.
  destruct (decimal_digits_nonempty _ Hx) as (d & more & E). fold ds in E.
  pose proof (decimal_digits_digit (num_digits x)) as Hds. fold ds in Hds.
  assert (Hk : (0 < k)%Z) by (subst k; rewrite E; cbn [length]; lia).
  destruct ((k <=? n) && (n <=? 21))%Z eqn:C1.
  { apply andb_true_iff in C1 as [C1 C1']. apply Z.leb_le in C1, C1'.
    exists d, (more ++ repeat 48%N (Z.to_nat (n - k))), [].
    rewrite List.app_nil_r, E. cbn [List.app].
    split; [reflexivity|]. split.
    - change (Forall (fun c => is_digit c = true)
                ((d :: more) ++ repeat 48%N (Z.to_nat (n - k)))).
      apply Forall_app. split; [rewrite <- E; exact Hds|apply Forall_zeros].
    - split; [exact I|]. left. repeat split; assumption. }
  destruct ((0 <? n) && (n <=? 21))%Z eqn:C2.
  { apply andb_true_iff in C2 as [C2 C2']. apply Z.ltb_lt in C2.
    apply Z.leb_le in C2'.
    assert (Hn : (n < k)%Z).
    { apply andb_false_iff in C1 as [C1|C1];
        [apply Z.leb_gt in C1|apply Z.leb_gt in C1]; lia. }
    destruct (Z.to_nat n) as [|j] eqn:Ej; [lia|].
    exists d, (firstn j more), (46%N :: skipn (S j) ds).
    split; [rewrite E; reflexivity|]. split.
    - change (d :: take j more) with (firstn (S j) (d :: more)).
      rewrite <- E. apply Forall_take, Hds.
    - split; [reflexivity|]. right. left.
      repeat split; try assumption. rewrite E. reflexivity. }
  destruct ((-6 <? n) && (n <=? 0))%Z eqn:C3.
  { apply andb_true_iff in C3 as [C3 C3']. apply Z.ltb_lt in C3.
    apply Z.leb_le in C3'.
    exists 48%N, [], (46%N :: repeat 48%N (Z.to_nat (- n)) ++ ds).
    split; [reflexivity|]. split; [repeat constructor|].
    split; [reflexivity|]. right. right. left. repeat split; assumption. }
  assert (Hn : (21 < n \/ n <= -6)%Z).
  { apply andb_false_iff in C2 as [C2|C2];
      apply andb_false_iff in C3 as [C3|C3];
      try apply Z.ltb_ge in C2; try apply Z.leb_gt in C2;
      try apply Z.ltb_ge in C3; try apply Z.leb_gt in C3; lia. }
  rewrite E in Hds. apply Forall_cons in Hds as [Hd Hmore].
  exists d, [], (match more with [] => [] | _ => 46%N :: more end
                 ++ 101%N
                 :: (if (n - 1 <? 0)%Z then str "-" else str "+")
                 ++ decimal_digits (Z.to_N (Z.abs (n - 1)))).
  split; [rewrite E; destruct more; reflexivity|].
  split; [repeat constructor; exact Hd|].
  split; [destruct more; reflexivity|].
  right. right. right. split; [exact Hn|].
  exists more. repeat split. exact E.
Qed.

(** ** Lists of digits *)

Lemma zeros_suffix l l' a a' :
  stops is_zero_unit (rev l) -> stops is_zero_unit (rev l') ->
  l ++ repeat 48%N a = l' ++ repeat 48%N a' -> l = l' /\ a = a'.
Proof.
  intros Hl Hl'. revert a'. induction a as [|a IH]; intros [|a'] E.
  - cbn in E. rewrite !List.app_nil_r in E. split; [exact E|reflexivity].
  - exfalso. cbn [repeat] in E. rewrite List.app_nil_r in E.
    rewrite repeat_cons, List.app_assoc in E. subst l.
    rewrite rev_unit in Hl. discriminate Hl.
  - exfalso. cbn [repeat] in E. rewrite List.app_nil_r in E.
    rewrite repeat_cons, List.app_assoc in E. subst l'.
    rewrite rev_unit in Hl'. discriminate Hl'.
  - cbn [repeat] in E. rewrite !repeat_cons, !List.app_assoc in E.
    apply app_inj_tail in E as [E _].
    destruct (IH a' E) as [-> ->]. split; reflexivity.
Qed.

Lemma zeros_prefix l l' a a' :
  stops is_zero_unit l -> stops is_zero_unit l' ->
  repeat 48%N a ++ l = repeat 48%N a' ++ l' -> l = l' /\ a = a'.
Proof.
  intros Hl Hl' E.
  assert (Hz : forall n, Forall (fun c => is_zero_unit c = true)
                                (repeat 48%N n)).
  { induction n; cbn; constructor; [reflexivity|assumption]. }
  destruct (class_prefix is_zero_unit _ _ _ _ (Hz a) (Hz a') Hl Hl' E)
    as [Ea El].
  split; [exact El|].
  apply (f_equal (@length _)) in Ea. rewrite !repeat_length in Ea. exact Ea.
Qed.

Lemma digits_without_e l more rest :
  Forall (fun c => is_digit c = true) l -> l <> more ++ 101%N :: rest.
Proof.
  intros Hl E. subst l. apply Forall_app in Hl as [_ Hl].
  apply Forall_cons in Hl as [Hl _]. discriminate Hl.
Qed.

Lemma firstn_head_nonzero ds j c p :
  stops is_zero_unit ds -> c :: p = firstn j ds -> c <> 48%N.
Proof.
  destruct j, ds as [|d ds]; cbn; intros H E; try discriminate E.
  injection E as -> _. intros ->. discriminate H.
Qed.

Lemma point_rest_without_e ds j more rest :
  Forall (fun c => is_digit c = true) ds ->
  46%N :: skipn j ds
  <> match more with [] => [] | _ => 46%N :: more end ++ 101%N :: rest.
Proof.
  intros Hds E. destruct more as [|m more]; [discriminate E|].
  injection E as E.
  exact (digits_without_e _ (m :: more) rest (Forall_drop _ _ _ Hds) E).
Qed.

(** ** Numbers that are not zero *)

Lemma number_body_inj x y :
  num_digits x <> 0%N -> num_digits y <> 0%N ->
  (num_digits x mod 10 <> 0)%N -> (num_digits y mod 10 <> 0)%N ->
  number_body x = number_body y ->
  num_digits x = num_digits y /\ num_point x = num_point y.
Proof.
  intros Hx Hy Mx My E.
  destruct (number_body_parts x Hx) as (c & p & r & Ex & Fp & Sr & Fx).
  destruct (number_body_parts y Hy) as (c' & p' & r' & Ey & Fp' & Sr' & Fy).
  cbv zeta in Fx, Fy. rewrite Ex, Ey in E.
  destruct (class_prefix is_digit _ _ _ _ Fp Fp' Sr Sr' E) as [Ep Er].
  pose proof (decimal_digits_head _ Hx) as Hh.
  pose proof (decimal_digits_head _ Hy) as Hh'.
  pose proof (decimal_digits_last _ Mx) as Hl.
  pose proof (decimal_digits_last _ My) as Hl'.
  pose proof (decimal_digits_digit (num_digits x)) as Hd.
  pose proof (decimal_digits_digit (num_digits y)) as Hd'.
  cut (decimal_digits (num_digits x) = decimal_digits (num_digits y)
       /\ num_point x = num_point y).
  { intros [E1 E2]. split; [apply decimal_digits_inj, E1|exact E2]. }
  set (ds := decimal_digits (num_digits x)) in *.
  set (ds' := decimal_digits (num_digits y)) in *.
  set (n := num_point x) in *. set (n' := num_point y) in *.
  clearbody ds ds' n n'. clear Ex Ey E Hx Hy Mx My.
  destruct Fx as [(Hn & Hp & Hr)|[(Hn & Hn2 & Hp & Hr)
                 |[(Hn & Hp & Hr)|(Hn & more & Hds & Hp & Hr)]]];
    destruct Fy as [(Hn' & Hp' & Hr')|[(Hn' & Hn2' & Hp' & Hr')
                   |[(Hn' & Hp' & Hr')|(Hn' & more' & Hds' & Hp' & Hr')]]].
  - rewrite Hp, Hp' in Ep.
    destruct (zeros_suffix _ _ _ _ Hl Hl' Ep) as [-> Ea].
    split; [reflexivity|lia].
  - exfalso. subst r r'. discriminate Er.
  - exfalso. subst r r'. discriminate Er.
  - exfalso. subst r r'. destruct more'; discriminate Er.
  - exfalso. subst r r'. discriminate Er.
  - rewrite Hp, Hp' in Ep. subst r r'. injection Er as Er.
    assert (Eds : ds = ds').
    { rewrite <- (firstn_skipn (Z.to_nat n) ds).
      rewrite <- (firstn_skipn (Z.to_nat n') ds'). rewrite Ep, Er.
      reflexivity. }
    split; [exact Eds|].
    apply (f_equal (@length _)) in Ep.
    rewrite !List.length_firstn in Ep. subst ds'. lia.
  - exfalso. rewrite Ep in Hp. rewrite Hp' in Hp.
    exact (firstn_head_nonzero _ _ _ _ Hh Hp eq_refl).
  - exfalso. subst r r'. revert Er. apply point_rest_without_e, Hd.
  - exfalso. subst r r'. discriminate Er.
  - exfalso. rewrite <- Ep in Hp'. rewrite Hp in Hp'.
    exact (firstn_head_nonzero _ _ _ _ Hh' Hp' eq_refl).
  - subst r r'. injection Er as Er.
    destruct (zeros_prefix _ _ _ _ Hh Hh' Er) as [-> Ea].
    split; [reflexivity|lia].
  - exfalso. rewrite Ep in Hp. injection Hp as Hc _. subst c'.
    rewrite Hds' in Hh'. discriminate Hh'.
  - exfalso. subst r r'. destruct more; discriminate Er.
  - exfalso. subst r r'. symmetry in Er. revert Er.
    apply point_rest_without_e, Hd'.
  - exfalso. rewrite <- Ep in Hp'. injection Hp' as Hc _. subst c.
    rewrite Hds in Hh. discriminate Hh.
  - injection Ep as -> _. subst r r'.
    rewrite Hds in Hd. rewrite Hds' in Hd'.
    apply Forall_cons in Hd as [_ Hd]. apply Forall_cons in Hd' as [_ Hd'].
    assert (Hm : forall l, Forall (fun c => is_digit c = true) l ->
              Forall (fun c => (is_digit c || (c =? 46)%N) = true)
                     (match l with [] => [] | _ => 46%N :: l end)).
    { intros l Hl0.
      assert (Forall (fun c => (is_digit c || (c =? 46)%N) = true) l).
      { eapply List.Forall_impl; [|exact Hl0].
        intros a Ha. cbn beta in *. rewrite Ha. reflexivity. }
      destruct l; [constructor|]. constructor; [reflexivity|assumption]. }
    destruct (class_prefix (fun c => is_digit c || (c =? 46)%N)
                _ _ (101%N :: _) (101%N :: _)
                (Hm _ Hd) (Hm _ Hd') eq_refl eq_refl Er) as [Em Ee].
    assert (more = more').
    { destruct more, more'; try discriminate Em; [reflexivity|].
      injection Em as -> ->. reflexivity. }
    subst more'. split; [congruence|].
    injection Ee as Ee.
    destruct (Z.ltb_spec (n - 1) 0), (Z.ltb_spec (n' - 1) 0);
      cbn in Ee; injection Ee as Ee; try discriminate;
      apply decimal_digits_inj in Ee; lia.
Qed.

(** A Number that is not zero does not have the text of zero. *)
Lemma number_body_not_zero x :
  num_digits x <> 0%N -> number_body x <> str "0".
Proof.
  intros Hx E.
  destruct (number_body_parts x Hx) as (c & p & r & Ex & Fp & Sr & Fx).
  cbv zeta in Fx. rewrite Ex in E. cbn in E. injection E as -> E.
  apply app_eq_nil in E as [-> ->].
  pose proof (decimal_digits_head _ Hx) as Hh.
  destruct Fx as [(Hn & Hp & Hr)|[(Hn & Hn2 & Hp & Hr)
                 |[(Hn & Hp & Hr)|(Hn & more & Hds & Hp & Hr)]]].
  - destruct (decimal_digits_nonempty _ Hx) as (d & more & Ed).
    rewrite Ed in Hp, Hh. cbn in Hp. injection Hp as <- _. discriminate Hh.
  - exact (firstn_head_nonzero _ _ _ _ Hh Hp eq_refl).
  - discriminate Hr.
  - rewrite Hds in Hh. discriminate Hh.
Qed.

(** ** Numbers with the same text *)

(** Two Numbers with the same text are the same Number, or both are
    zero ([0] and [-0] are both written [0]): no amount can change
    without its text changing. *)
Theorem number_text_determines_number (x y : number) :
  proper x = true -> proper y = true ->
  number_to_string x = number_to_string y ->
  x = y \/ (num_digits x = 0%N /\ num_digits y = 0%N).
Proof.
  unfold proper. intros Px Py E.
  destruct (N.eqb_spec (num_digits x) 0) as [Zx|Hx];
    destruct (N.eqb_spec (num_digits y) 0) as [Zy|Hy].
  - right. split; assumption.
  - exfalso. rewrite (zero_text x Zx), (number_text y Hy) in E.
    destruct (num_neg y); [discriminate E|].
    symmetry in E. exact (number_body_not_zero y Hy E).
  - exfalso. rewrite (zero_text y Zy), (number_text x Hx) in E.
    destruct (num_neg x); [discriminate E|].
    exact (number_body_not_zero x Hx E).
  - left. apply negb_true_iff, N.eqb_neq in Px, Py.
    rewrite (number_text x Hx), (number_text y Hy) in E.
    destruct (number_body_parts x Hx) as (c & p & r & Ex & Fp & _).
    destruct (number_body_parts y Hy) as (c' & p' & r' & Ey & Fp' & _).
    apply Forall_cons in Fp as [Fc _]. apply Forall_cons in Fp' as [Fc' _].
    assert (Hs : num_neg x = num_neg y /\ number_body x = number_body y).
    { destruct (num_neg x), (num_neg y).
      - injection E as E. split; [reflexivity|exact E].
      - exfalso. rewrite Ey in E. injection E as E _. subst c'.
        discriminate Fc'.
      - exfalso. rewrite Ex in E. injection E as E _. subst c.
        discriminate Fc.
      - split; [reflexivity|exact E]. }
    destruct Hs as [Hs Hb].
    destruct (number_body_inj x y Hx Hy Px Py Hb) as [Hd Hp].
    destruct x, y. cbn in *. subst. reflexivity.
Qed.

(** A literal is read as the nearest double: digits beyond the precision
    of a Number are lost, a literal of nearly nothing is zero, and the
    largest finite Number is followed by the infinite one. *)
Lemma literal_rounded :
  decimal 9007199254740993 0 = decimal 9007199254740992 0
  /\ decimal 1 (-1) = Num false 1 0
  /\ decimal 1 23 = Num false 1 24
  /\ decimal 5 (-324) = Num false 5 (-323)
  /\ decimal (-1) (-400) = Num true 0 0
  /\ literal 17976931348623158 292 = JNum (Num false 17976931348623157 309)
  /\ literal 17976931348623159 292 = JInf false.
Proof. repeat split; vm_compute; reflexivity. Qed.

Lemma number_text_determines_number_witness :
  decimal 0 0 = Num true 0 0
  \/ (num_digits (decimal 0 0) = 0%N /\ num_digits (Num true 0 0) = 0%N).
Proof.
  apply (number_text_determines_number (decimal 0 0) (Num true 0 0));
    reflexivity.
Defined.

(* ================================================================== *)
(** * What a verified receipt says *)




